(** * libdrgn/program.c: target bootstrap and address translation

    A shallow embedding of the note parsers, the file-mapping table, the
    relocation hooks, the cleanup stack, the bootstrap from a core dump and
    from a process, and the C-string reader of [libdrgn/program.c], with the
    properties the specification states about them.

    Conventions.  [uint64_t] and [size_t] values are integers of [Z] in
    [0, 2^64) (an LP64 target); every operation that can wrap in C is
    written with [wrap64].  Raw memory is [list byte].  A C string is the
    list of the bytes before its terminating NUL.  Pointers to objects of
    the collaborating libraries (libelf, the DWARF index, ...) are opaque
    handles of type [Z]. *)

From Stdlib Require Import ZArith List Lia Bool String Ascii.
From Stdlib.Strings Require Import Byte.
Import ListNotations.
Local Open Scope string_scope.
Local Open Scope list_scope.
Local Open Scope Z_scope.

(** ** Machine integers *)

Definition UINT64_MAX : Z := 2 ^ 64 - 1.

Definition wrap64 (z : Z) : Z := z mod 2 ^ 64.

Definition is_u64 (z : Z) : Prop := 0 <= z <= UINT64_MAX.

(** ** Errors

    [struct drgn_error] carries a code, an [errno] for OS errors and a
    message.  [drgn_enomem], [drgn_stop] and [drgn_not_elf] are the
    statically allocated error objects of the library. *)

(** Modelled from the spec: the enumeration of the error codes is declared
    in drgn.h, which is not part of the sources at hand.  The codes are the
    ones that program.c names, with the two kinds of the specification's
    taxonomy that it reaches through [drgn_error_libelf] and
    [drgn_not_elf]: "LIBELF (wraps the ELF parser)" and "NOT_ELF (file is
    not an ELF)". *)

Inductive drgn_error_code : Type :=
| DRGN_ERROR_NO_MEMORY
| DRGN_ERROR_STOP
| DRGN_ERROR_OTHER
| DRGN_ERROR_INVALID_ARGUMENT
| DRGN_ERROR_OVERFLOW
| DRGN_ERROR_OS
| DRGN_ERROR_LIBELF
| DRGN_ERROR_NOT_ELF
| DRGN_ERROR_ELF_FORMAT
| DRGN_ERROR_MISSING_DEBUG
| DRGN_ERROR_LOOKUP
| DRGN_ERROR_FAULT.

Definition drgn_error_code_eqb (a b : drgn_error_code) : bool :=
  match a, b with
  | DRGN_ERROR_NO_MEMORY, DRGN_ERROR_NO_MEMORY
  | DRGN_ERROR_STOP, DRGN_ERROR_STOP
  | DRGN_ERROR_OTHER, DRGN_ERROR_OTHER
  | DRGN_ERROR_INVALID_ARGUMENT, DRGN_ERROR_INVALID_ARGUMENT
  | DRGN_ERROR_OVERFLOW, DRGN_ERROR_OVERFLOW
  | DRGN_ERROR_OS, DRGN_ERROR_OS
  | DRGN_ERROR_LIBELF, DRGN_ERROR_LIBELF
  | DRGN_ERROR_NOT_ELF, DRGN_ERROR_NOT_ELF
  | DRGN_ERROR_ELF_FORMAT, DRGN_ERROR_ELF_FORMAT
  | DRGN_ERROR_MISSING_DEBUG, DRGN_ERROR_MISSING_DEBUG
  | DRGN_ERROR_LOOKUP, DRGN_ERROR_LOOKUP
  | DRGN_ERROR_FAULT, DRGN_ERROR_FAULT => true
  | _, _ => false
  end.

Record drgn_error : Type := mk_error {
  code : drgn_error_code;
  errnum : Z;
  message : string
}.

Definition drgn_error_create (c : drgn_error_code) (msg : string) : drgn_error :=
  mk_error c 0 msg.

Definition drgn_error_format (c : drgn_error_code) (fmt arg : string) : drgn_error :=
  mk_error c 0 (fmt ++ arg)%string.

Definition drgn_error_create_os (errno : Z) (path syscall : string) : drgn_error :=
  mk_error DRGN_ERROR_OS errno (syscall ++ ": " ++ path)%string.

Definition drgn_error_libelf : drgn_error :=
  mk_error DRGN_ERROR_LIBELF 0 "libelf error".

Definition drgn_enomem : drgn_error :=
  mk_error DRGN_ERROR_NO_MEMORY 0 "cannot allocate memory".

Definition drgn_stop : drgn_error :=
  mk_error DRGN_ERROR_STOP 0 "stop iteration".

Definition drgn_not_elf : drgn_error :=
  mk_error DRGN_ERROR_NOT_ELF 0 "not an ELF file".

Definition ENOENT : Z := 2.

(** ** The allocator

    [malloc], [malloc64], [malloc_array] and [resize_array] may fail.  The
    outcome of the successive allocation requests of a run is an oracle:
    one boolean per request, in order; requests beyond the end of the list
    succeed.  The contents of the arrays are lists, so that a request only
    matters through its outcome. *)

Definition alloc_oracle : Type := list bool.

Definition alloc (heap : alloc_oracle) : bool * alloc_oracle :=
  match heap with
  | [] => (true, [])
  | ok :: heap' => (ok, heap')
  end.

(** ** C strings *)

(** The bytes of [s] before its first NUL: what [strcmp] and [strlen] see. *)
Fixpoint cstr (s : list byte) : list byte :=
  match s with
  | [] => []
  | b :: s' => if Byte.eqb b x00 then [] else b :: cstr s'
  end.

Fixpoint bytes_eqb (a b : list byte) : bool :=
  match a, b with
  | [], [] => true
  | x :: a', y :: b' => Byte.eqb x y && bytes_eqb a' b'
  | _, _ => false
  end.

(** [strcmp(a, b) == 0]. *)
Definition strcmp_eq (a b : list byte) : bool := bytes_eqb (cstr a) (cstr b).

(** [strncmp(a, b, n) == 0]: the first [n] bytes are compared, and the
    comparison ends at a NUL. *)
Definition strncmp_eq (a b : list byte) (n : nat) : bool :=
  bytes_eqb (cstr (firstn n a)) (cstr (firstn n b)).

(** [memchr(p, c, end - p)]: the bytes before the first [c], and the bytes
    after it. *)
Fixpoint memchr (c : byte) (p : list byte) : option (list byte * list byte) :=
  match p with
  | [] => None
  | b :: p' =>
      if Byte.eqb b c then Some ([], p')
      else match memchr c p' with
           | Some (before, rest) => Some (b :: before, rest)
           | None => None
           end
  end.

(** ** Binary readers (read.h) *)

Definition byte_val (b : byte) : Z := Z.of_N (Byte.to_N b).

(** The value of a little-endian byte sequence. *)
Fixpoint le_value (bs : list byte) : Z :=
  match bs with
  | [] => 0
  | b :: bs' => byte_val b + 256 * le_value bs'
  end.

(** Modelled from the spec: read.h is not part of the sources at hand.
    "Fixed-width little/big-endian integer and NUL-terminated string
    extraction from bounded byte slices, with overflow-safe bounds checks."
    The host is little-endian; [bswap] selects the other byte order.  A
    cursor [p .. end] is the list of the bytes that remain. *)
Definition read_uint_nocheck (width : nat) (bswap : bool) (p : list byte)
  : Z * list byte :=
  let raw := firstn width p in
  (le_value (if bswap then rev raw else raw), skipn width p).

Definition read_in_bounds (p : list byte) (size : Z) : bool :=
  size <=? Z.of_nat (List.length p).

Definition read_uint (width : nat) (bswap : bool) (p : list byte)
  : option (Z * list byte) :=
  if read_in_bounds p (Z.of_nat width)
  then Some (read_uint_nocheck width bswap p)
  else None.

Definition read_u64 := read_uint 8.
Definition read_u32_into_u64 := read_uint 4.
Definition read_u64_nocheck := read_uint_nocheck 8.
Definition read_u32_into_u64_nocheck := read_uint_nocheck 4.

(** [read_string(&p, end, &str, &len)]: the string at the cursor, its length
    and the cursor after its NUL; fails when no NUL is left. *)
Definition read_string (p : list byte) : option (list byte * Z * list byte) :=
  match memchr x00 p with
  | Some (str, rest) => Some (str, Z.of_nat (List.length str), rest)
  | None => None
  end.

(** [__builtin_mul_overflow(a, b, &res)] on [size_t]. *)
Definition mul_overflow (a b : Z) : bool * Z :=
  (UINT64_MAX <? a * b, wrap64 (a * b)).

(** ** The file-mapping table *)

(** [struct file_mapping].  [path] and [elf] are pointers: [None] is NULL. *)
Record file_mapping : Type := mk_mapping {
  start : Z;
  end_ : Z;
  file_offset : Z;
  path : option (list byte);
  elf : option Z
}.

Definition set_end (m : file_mapping) (e : Z) : file_mapping :=
  mk_mapping (start m) e (file_offset m) (path m) (elf m).

Definition set_path (m : file_mapping) (p : option (list byte)) : file_mapping :=
  mk_mapping (start m) (end_ m) (file_offset m) p (elf m).

Definition set_elf (m : file_mapping) (e : option Z) : file_mapping :=
  mk_mapping (start m) (end_ m) (file_offset m) (path m) e.

(** The array of [num_mappings] entries that [mappings] points to is a list;
    [unsnoc] gives access to its last slot, the one at index
    [num_mappings - 1]. *)
Fixpoint unsnoc {A : Type} (l : list A) : option (list A * A) :=
  match l with
  | [] => None
  | x :: l' =>
      match unsnoc l' with
      | None => Some ([], x)
      | Some (front, z) => Some (x :: front, z)
      end
  end.

(** The test of [append_file_mapping] that decides a merge of the incoming
    mapping into [mapping], the last one of the table. *)
Definition merges_into (mapping : file_mapping) (start' file_offset' : Z)
    (path' : list byte) : bool :=
  let length := wrap64 (end_ mapping - start mapping) in
  (end_ mapping =? start')
  && (wrap64 (file_offset mapping + length) =? file_offset')
  && match path mapping with
     | Some p => strcmp_eq p path'
     | None => false
     end.

(** [append_file_mapping]: "Returns NULL if a mapping was appended,
    &drgn_stop if the mapping was merged, non-NULL on error."  The result is
    the returned error with the table, its capacity and the allocator after
    the call.  The slot of a new entry comes from [resize_array] and its
    [elf] member is assigned later, by [open_userspace_files]; it is NULL
    here. *)
Definition append_file_mapping (start' end' file_offset' : Z) (path' : list byte)
    (mappings : list file_mapping) (capacity : Z) (heap : alloc_oracle)
  : option drgn_error * list file_mapping * Z * alloc_oracle :=
  if end' <? start' then
    (Some (drgn_error_create DRGN_ERROR_OTHER
             "file memory mapping has negative length"),
     mappings, capacity, heap)
  else if start' =? end' then
    (None, mappings, capacity, heap)
  else
    let append_new :=
      let store cap hp :=
        (None,
         mappings ++ [mk_mapping start' end' file_offset' (Some path') None],
         cap, hp) in
      if capacity <=? Z.of_nat (List.length mappings) then
        let new_capacity :=
          if capacity =? 0 then 1 else wrap64 (capacity * 2) in
        let (ok, heap') := alloc heap in
        if ok then store new_capacity heap'
        else (Some drgn_enomem, mappings, capacity, heap')
      else store capacity heap in
    match unsnoc mappings with
    | Some (front, mapping) =>
        if merges_into mapping start' file_offset' path' then
          (Some drgn_stop, front ++ [set_end mapping end'], capacity, heap)
        else append_new
    | None => append_new
    end.

(** ** NT_FILE notes *)

(** What a run of [parse_nt_file] comes to: it returns NULL, it returns an
    error, or it stores through the slot at index [num_mappings - 1] while
    [num_mappings] is zero, which is outside the array.  The bootstrap that
    calls it has the same three outcomes. *)
Inductive status : Type :=
| Ok
| Failed (err : drgn_error)
| OutOfBoundsStore.

Definition invalid_nt_file : drgn_error :=
  drgn_error_create DRGN_ERROR_ELF_FORMAT "invalid NT_FILE note".

(** The loop over the [count] entries.  [n] is the number of iterations
    left, [p] the cursor in the entries and [q] the cursor in the paths. *)
Fixpoint parse_nt_file_entries (n : nat) (is_64_bit bswap : bool) (page_size : Z)
    (p q : list byte) (mappings : list file_mapping) (capacity : Z)
    (heap : alloc_oracle)
  : status * list file_mapping * Z * alloc_oracle :=
  match n with
  | O => (Ok, mappings, capacity, heap)
  | S n' =>
      let rd := if is_64_bit then read_u64_nocheck bswap
                else read_u32_into_u64_nocheck bswap in
      let '(mapping_start, p1) := rd p in
      let '(mapping_end, p2) := rd p1 in
      let '(file_offset0, p3) := rd p2 in
      let file_offset' := wrap64 (file_offset0 * page_size) in
      match read_string q with
      | None => (Failed invalid_nt_file, mappings, capacity, heap)
      | Some (path', len, q') =>
          match append_file_mapping mapping_start mapping_end file_offset'
                  path' mappings capacity heap with
          | (None, mappings1, capacity1, heap1) =>
              (* "The mapping wasn't merged, so actually allocate the path
                 now." *)
              match unsnoc mappings1 with
              | None => (OutOfBoundsStore, mappings1, capacity1, heap1)
              | Some (front, mapping) =>
                  let (ok, heap2) := alloc heap1 in
                  if ok then
                    parse_nt_file_entries n' is_64_bit bswap page_size p3 q'
                      (front ++ [set_path mapping (Some path')]) capacity1 heap2
                  else
                    (Failed drgn_enomem, front ++ [set_path mapping None],
                     capacity1, heap2)
              end
          | (Some err, mappings1, capacity1, heap1) =>
              if drgn_error_code_eqb (code err) DRGN_ERROR_STOP then
                parse_nt_file_entries n' is_64_bit bswap page_size p3 q'
                  mappings1 capacity1 heap1
              else (Failed err, mappings1, capacity1, heap1)
          end
      end
  end.

Definition parse_nt_file (desc : list byte) (is_64_bit : bool)
    (mappings : list file_mapping) (capacity : Z) (heap : alloc_oracle)
  : status * list file_mapping * Z * alloc_oracle :=
  let bswap := false in
  let invalid := (Failed invalid_nt_file, mappings, capacity, heap) in
  let rd := if is_64_bit then read_u64 bswap else read_u32_into_u64 bswap in
  match rd desc with
  | None => invalid
  | Some (count, p1) =>
      match rd p1 with
      | None => invalid
      | Some (page_size, p) =>
          let (overflow, paths_offset) :=
            mul_overflow count (if is_64_bit then 24 else 12) in
          if overflow then invalid
          else if negb (read_in_bounds p paths_offset) then invalid
          else
            let q := skipn (Z.to_nat paths_offset) p in
            parse_nt_file_entries (Z.to_nat count) is_64_bit bswap page_size
              p q mappings capacity heap
      end
  end.

(** ** Writing descriptors down

    The encoders below are the inverse of the readers; they are used to
    state concrete note payloads. *)

Definition byte_of_Z (z : Z) : byte :=
  match Byte.of_N (Z.to_N (z mod 256)) with
  | Some b => b
  | None => x00
  end.

Fixpoint le_bytes (width : nat) (z : Z) : list byte :=
  match width with
  | O => []
  | S w => byte_of_Z z :: le_bytes w (z / 256)
  end.

Definition bytes (s : string) : list byte := list_byte_of_string s.

Definition c_string (s : string) : list byte := bytes s ++ [x00].

(** An NT_FILE descriptor of the 64-bit class. *)
Definition nt_file_desc64 (page_size : Z) (entries : list (Z * Z * Z))
    (paths : list string) : list byte :=
  le_bytes 8 (Z.of_nat (List.length entries)) ++ le_bytes 8 page_size
  ++ flat_map (fun '(s, e, o) => le_bytes 8 s ++ le_bytes 8 e ++ le_bytes 8 o)
       entries
  ++ flat_map c_string paths.

(** ** ELF objects, as libelf hands them out

    An [Elf] is what the calls of libelf return for one open file; a call
    that fails returns [None].  Two [Elf *] are equal pointers when their
    handles are equal. *)

Definition PT_LOAD : Z := 1.
Definition PT_NOTE : Z := 4.
Definition ET_REL : Z := 1.
Definition ET_EXEC : Z := 2.
Definition ET_CORE : Z := 4.
Definition SHN_XINDEX : Z := 0xffff.
Definition NT_TASKSTRUCT : Z := 4.
Definition NT_FILE : Z := 0x46494c45.

Record GElf_Phdr : Type := mk_phdr {
  p_type : Z;
  p_offset : Z;
  p_vaddr : Z;
  p_paddr : Z;
  p_filesz : Z;
  p_memsz : Z;
  p_align : Z
}.

Record GElf_Sym : Type := mk_sym {
  st_value : Z;
  st_shndx : Z
}.

(** A section: its name ([None] when [gelf_getshdr] or [elf_strptr] fails),
    its contents as [read_elf_section] returns them, and, for a symbol
    table, its entries as [gelf_getsymshndx] returns them with their
    extended section index. *)
Record Elf_Scn : Type := mk_scn {
  scn_name : option (list byte);
  scn_data : drgn_error + list byte;
  scn_syms : list (option (GElf_Sym * Z))
}.

(** A note of a PT_NOTE segment: the [n_namesz] bytes of its name, its type
    and its descriptor. *)
Record note : Type := mk_note {
  n_name : list byte;
  n_type : Z;
  n_desc : list byte
}.

Record Elf : Type := mk_elf {
  elf_handle : Z;
  (* gelf_getehdr: e_type and whether e_ident[EI_CLASS] is ELFCLASS64 *)
  elf_ehdr : option (Z * bool);
  (* elf_getphdrnum, then gelf_getphdr for each index *)
  elf_phdrs : option (list (option GElf_Phdr));
  (* elf_getshdrstrndx succeeds *)
  elf_shstrndx_ok : bool;
  (* the sections elf_nextscn iterates over; elf_getscn(elf, i) is the
     i-th one, counted from 1 *)
  elf_sections : list Elf_Scn;
  (* elf_getdata_rawchunk on the i-th program header and the notes
     gelf_getnote then yields *)
  elf_notes : nat -> option (list note)
}.

(** ** Symbols (symbol_index.h) *)

(** Modelled from the spec: the declaration of [struct drgn_symbol] is not
    part of the sources at hand.  "Symbol (record exchanged across the
    relocation boundary): name, address, is_enumerator, qualified_type,
    little_endian, and for enumerators svalue or uvalue."  The name travels
    as a separate argument of the hooks. *)
Record drgn_symbol : Type := mk_symbol {
  qualified_type : Z;
  is_enumerator : bool;
  little_endian : bool;
  address : Z;
  svalue : Z;
  uvalue : Z
}.

Definition set_address (sym : drgn_symbol) (a : Z) : drgn_symbol :=
  mk_symbol (qualified_type sym) (is_enumerator sym) (little_endian sym) a
    (svalue sym) (uvalue sym).

(** ** The program *)

(** Modelled from the spec: [struct vmcoreinfo] is declared in program.h,
    which is not part of the sources at hand.  "VmcoreInfo: os_release, a
    string of at most 64 bytes, and kaslr_offset, a u64." *)
Record vmcoreinfo : Type := mk_vmcoreinfo {
  osrelease : list byte;
  kaslr_offset : Z
}.

(** [sizeof(ret->osrelease)]. *)
Definition sizeof_osrelease : Z := 64.

(** The functions registered as cleanup callbacks. *)
Inductive cleanup_cb : Type :=
| cleanup_fd
| cleanup_free
| cleanup_dwarf_index
| cleanup_dwarf_type_cache
| cleanup_file_mappings.

Definition cleanup_cb_eqb (a b : cleanup_cb) : bool :=
  match a, b with
  | cleanup_fd, cleanup_fd
  | cleanup_free, cleanup_free
  | cleanup_dwarf_index, cleanup_dwarf_index
  | cleanup_dwarf_type_cache, cleanup_dwarf_type_cache
  | cleanup_file_mappings, cleanup_file_mappings => true
  | _, _ => false
  end.

(** [struct drgn_cleanup], without its [next] link: the stack is a list
    whose head is the cleanup registered last. *)
Record drgn_cleanup : Type := mk_cleanup {
  cb : cleanup_cb;
  arg : Z
}.

(** Modelled from the spec: "SessionFlags: bitset; the only defined bit in
    this core is IS_LINUX_KERNEL."  The enumeration is declared in drgn.h. *)
Definition DRGN_PROGRAM_IS_LINUX_KERNEL : Z := 1.

Record drgn_program : Type := mk_program {
  reader : Z;
  tindex : Z;
  sindex : Z;
  cleanup : list drgn_cleanup;
  flags : Z;
  prog_vmcoreinfo : vmcoreinfo;
  (* mappings and num_mappings *)
  prog_mappings : list file_mapping
}.

(** ** Relocation hooks *)

(** The test of [userspace_relocation_hook] on a program header. *)
Definition segment_contains (phdr : GElf_Phdr) (addr : Z) : bool :=
  (p_type phdr =? PT_LOAD)
  && (p_vaddr phdr <=? addr)
  && (addr <? wrap64 (p_vaddr phdr + p_memsz phdr)).

(** [phdr->p_offset + sym->address - phdr->p_vaddr]. *)
Definition segment_file_offset (phdr : GElf_Phdr) (addr : Z) : Z :=
  wrap64 (wrap64 (p_offset phdr + addr) - p_vaddr phdr).

(** The scan of [userspace_relocation_hook] for the PT_LOAD segment that
    contains [addr]: the file offset of [addr] in the first such segment,
    [inl] when [gelf_getphdr] fails before one is found, [inr None] when
    the loop ends with [i >= phnum]. *)
Fixpoint find_load_segment (phdrs : list (option GElf_Phdr)) (addr : Z)
  : drgn_error + option Z :=
  match phdrs with
  | [] => inr None
  | None :: _ => inl drgn_error_libelf
  | Some phdr :: rest =>
      if segment_contains phdr addr
      then inr (Some (segment_file_offset phdr addr))
      else find_load_segment rest addr
  end.

Definition elf_ptr_eqb (a : option Z) (e : Elf) : bool :=
  match a with
  | Some h => h =? elf_handle e
  | None => false
  end.

(** The test of [userspace_relocation_hook] on a mapping. *)
Definition mapping_contains (mapping : file_mapping) (e : Elf)
    (file_offset' : Z) : bool :=
  let mapping_size := wrap64 (end_ mapping - start mapping) in
  elf_ptr_eqb (elf mapping) e
  && (file_offset mapping <=? file_offset')
  && (file_offset' <? wrap64 (file_offset mapping + mapping_size)).

(** [mapping->start + file_offset - mapping->file_offset]. *)
Definition relocated_address (mapping : file_mapping) (file_offset' : Z) : Z :=
  wrap64 (wrap64 (start mapping + file_offset') - file_offset mapping).

(** The scan of the mapping table: the relocated address for the first
    mapping of [e] that contains [file_offset']. *)
Fixpoint find_file_mapping (mappings : list file_mapping) (e : Elf)
    (file_offset' : Z) : option Z :=
  match mappings with
  | [] => None
  | mapping :: rest =>
      if mapping_contains mapping e file_offset'
      then Some (relocated_address mapping file_offset')
      else find_file_mapping rest e file_offset'
  end.

(** [userspace_relocation_hook].  [e] is the ELF file of the DIE. *)
Definition userspace_relocation_hook (prog : drgn_program) (name : string)
    (e : Elf) (sym : drgn_symbol) : option drgn_error * drgn_symbol :=
  match elf_phdrs e with
  | None => (Some drgn_error_libelf, sym)
  | Some phdrs =>
      match find_load_segment phdrs (address sym) with
      | inl err => (Some err, sym)
      | inr None =>
          (Some (drgn_error_format DRGN_ERROR_LOOKUP
                   "could not find segment containing " name), sym)
      | inr (Some file_offset') =>
          match find_file_mapping (prog_mappings prog) e file_offset' with
          | Some a => (None, set_address sym a)
          | None =>
              (Some (drgn_error_format DRGN_ERROR_LOOKUP
                       "could not find file mapping containing " name), sym)
          end
      end
  end.

(** *** The kernel hook and its helpers *)

(** Modelled from the spec: the object API (object.h) is not part of the
    sources at hand.  "Walk the in-kernel global linked list rooted at
    modules by dereferencing next until the circular head is met ...
    comparing each module.name against the module's name string; on match,
    iterate module.sect_attrs.attrs[0..nsections], match on name, and add
    the matching address."  The running kernel is the list of its modules in
    list order; [inl] stands for a step of the object API that fails. *)
Record kernel_module : Type := mk_kernel_module {
  km_name : drgn_error + list byte;
  km_sect_attrs : drgn_error + list (list byte * Z)
}.

Definition kernel_target : Type := drgn_error + list kernel_module.

Definition text (s : list byte) : string := string_of_list_byte (cstr s).

(** The strings of a section that end in a NUL, in order. *)
Fixpoint nul_terminated (cur : list byte) (p : list byte) : list (list byte) :=
  match p with
  | [] => []
  | b :: p' =>
      if Byte.eqb b x00 then rev cur :: nul_terminated [] p'
      else nul_terminated (b :: cur) p'
  end.

Definition get_module_name (modinfo_scn : Elf_Scn) : drgn_error + list byte :=
  match scn_data modinfo_scn with
  | inl err => inl err
  | inr data =>
      match find (fun p => strncmp_eq p (bytes "name=") 5)
              (nul_terminated [] data) with
      | Some p => inr (skipn 5 p)
      | None =>
          inl (drgn_error_create DRGN_ERROR_LOOKUP
                 "could not find name in .modinfo section")
      end
  end.

(** [find_elf_symbol] with [by_address] set. *)
Definition find_elf_symbol_by_address (symtab_scn : Elf_Scn) (name : string)
    (addr : Z) : drgn_error + (GElf_Sym * Z) :=
  match scn_data symtab_scn with
  | inl err => inl err
  | inr _ =>
      match find (fun s => match s with
                           | Some (sym, _) => st_value sym =? addr
                           | None => false
                           end) (scn_syms symtab_scn) with
      | Some (Some found) => inr found
      | _ =>
          inl (mk_error DRGN_ERROR_LOOKUP 0
                 ("could not find " ++ name ++ " symbol")%string)
      end
  end.

Definition null_scn : Elf_Scn := mk_scn (Some []) (inr []) [].

Definition elf_getscn (e : Elf) (index : Z) : option Elf_Scn :=
  if index <? 0 then None
  else nth_error (null_scn :: elf_sections e) (Z.to_nat index).

Definition get_symbol_section_name (e : Elf) (symtab_scn : Elf_Scn)
    (name : string) (addr : Z) : drgn_error + list byte :=
  match find_elf_symbol_by_address symtab_scn name addr with
  | inl err => inl err
  | inr (sym, xshndx) =>
      let shndx := if st_shndx sym =? SHN_XINDEX then xshndx
                   else st_shndx sym in
      match elf_getscn e shndx with
      | None => inl drgn_error_libelf
      | Some scn =>
          match scn_name scn with
          | None => inl drgn_error_libelf
          | Some scnname => inr scnname
          end
      end
  end.

Fixpoint find_module_loop (modules : list kernel_module)
    (module_name : list byte) : drgn_error + kernel_module :=
  match modules with
  | [] =>
      inl (mk_error DRGN_ERROR_LOOKUP 0
             (text module_name ++ " is not loaded")%string)
  | km :: rest =>
      match km_name km with
      | inl err => inl err
      | inr name =>
          if strcmp_eq name module_name then inr km
          else find_module_loop rest module_name
      end
  end.

Definition find_module (kernel : kernel_target) (module_name : list byte)
  : drgn_error + kernel_module :=
  match kernel with
  | inl err => inl err
  | inr modules => find_module_loop modules module_name
  end.

Definition find_section_address (km : kernel_module)
    (section_name : list byte) : drgn_error + Z :=
  match km_sect_attrs km with
  | inl err => inl err
  | inr attrs =>
      match find (fun a => strcmp_eq (fst a) section_name) attrs with
      | Some a => inr (snd a)
      | None =>
          inl (drgn_error_format DRGN_ERROR_LOOKUP
                 "could not find module section " (text section_name))
      end
  end.

(** The loop of the hook over the sections: the last section named
    .modinfo and the last one named .symtab. *)
Definition find_modinfo_symtab (sections : list Elf_Scn)
  : option Elf_Scn * option Elf_Scn :=
  fold_left
    (fun found scn =>
       match scn_name scn with
       | None => found
       | Some scnname =>
           if strcmp_eq scnname (bytes ".modinfo") then (Some scn, snd found)
           else if strcmp_eq scnname (bytes ".symtab") then (fst found, Some scn)
           else found
       end)
    sections (None, None).

(** [kernel_relocation_hook].  [e] is the ELF file of the DIE and [kernel]
    the running kernel the program reads. *)
Definition kernel_relocation_hook (prog : drgn_program) (kernel : kernel_target)
    (name : string) (e : Elf) (sym : drgn_symbol)
  : option drgn_error * drgn_symbol :=
  match elf_ehdr e with
  | None => (Some drgn_error_libelf, sym)
  | Some (e_type, _) =>
      (* "vmlinux is executable, kernel modules are relocatable." *)
      if e_type =? ET_EXEC then
        (None,
         set_address sym
           (wrap64 (address sym + kaslr_offset (prog_vmcoreinfo prog))))
      else if negb (elf_shstrndx_ok e) then (Some drgn_error_libelf, sym)
      else
        match find_modinfo_symtab (elf_sections e) with
        | (None, _) =>
            (Some (drgn_error_create DRGN_ERROR_LOOKUP
                     "could not find .modinfo section"), sym)
        | (Some _, None) =>
            (Some (drgn_error_create DRGN_ERROR_LOOKUP
                     "could not find .symtab section"), sym)
        | (Some modinfo_scn, Some symtab_scn) =>
            match get_module_name modinfo_scn with
            | inl err => (Some err, sym)
            | inr module_name =>
                match get_symbol_section_name e symtab_scn name
                        (address sym) with
                | inl err => (Some err, sym)
                | inr section_name =>
                    match find_module kernel module_name with
                    | inl err => (Some err, sym)
                    | inr km =>
                        match find_section_address km section_name with
                        | inl err => (Some err, sym)
                        | inr section_address =>
                            (None,
                             set_address sym
                               (wrap64 (address sym + section_address)))
                        end
                    end
                end
            end
        end
  end.

(** ** VMCOREINFO notes *)

(** [linematch]: when the line starts with [prefix], the line after it. *)
Definition linematch (line : list byte) (prefix : string) : option (list byte) :=
  let len := List.length (bytes prefix) in
  if strncmp_eq line (bytes prefix) len then Some (skipn len line) else None.

(** *** strtoull, base 16 (ISO C 7.22.1.4)

    White space is skipped, then an optional sign and an optional 0x or 0X
    that a hexadecimal digit follows, then the longest run of hexadecimal
    digits.  Without a digit nothing is converted and the end pointer is
    the start of the string.  A value above ULLONG_MAX gives ULLONG_MAX and
    ERANGE; a minus sign negates the value in the unsigned type. *)

Definition isspace (b : byte) : bool :=
  let v := byte_val b in
  (v =? 32) || ((9 <=? v) && (v <=? 13)).

Definition hex_digit (b : byte) : option Z :=
  let v := byte_val b in
  if (48 <=? v) && (v <=? 57) then Some (v - 48)
  else if (97 <=? v) && (v <=? 102) then Some (v - 87)
  else if (65 <=? v) && (v <=? 70) then Some (v - 55)
  else None.

Fixpoint skip_spaces (s : list byte) : nat * list byte :=
  match s with
  | b :: s' =>
      if isspace b then let (n, r) := skip_spaces s' in (S n, r)
      else (O, s)
  | [] => (O, [])
  end.

(** The digits at the start of [s]: their number and their value after
    [acc]. *)
Fixpoint hex_digits (s : list byte) (acc : Z) : nat * Z :=
  match s with
  | b :: s' =>
      match hex_digit b with
      | Some d => let (n, v) := hex_digits s' (16 * acc + d) in (S n, v)
      | None => (O, acc)
      end
  | [] => (O, acc)
  end.

Record strtoull_result : Type := mk_strtoull {
  ull_value : Z;
  (* nend - nptr *)
  ull_consumed : nat;
  (* errno == ERANGE *)
  ull_erange : bool
}.

Definition strtoull16 (nptr : list byte) : strtoull_result :=
  let (nspace, s1) := skip_spaces nptr in
  let '(negative, nsign, s2) :=
    match s1 with
    | b :: r =>
        if Byte.eqb b "-"%byte then (true, 1%nat, r)
        else if Byte.eqb b "+"%byte then (false, 1%nat, r)
        else (false, 0%nat, s1)
    | [] => (false, 0%nat, s1)
    end in
  let '(nprefix, s3) :=
    match s2 with
    | z :: x :: (d :: _) as r =>
        if Byte.eqb z "0"%byte
           && (Byte.eqb x "x"%byte || Byte.eqb x "X"%byte)
           && match hex_digit d with Some _ => true | None => false end
        then (2%nat, r) else (0%nat, s2)
    | _ => (0%nat, s2)
    end in
  let (ndigits, v) := hex_digits s3 0 in
  match ndigits with
  | O => mk_strtoull 0 0 false
  | S _ =>
      let consumed := (nspace + nsign + nprefix + ndigits)%nat in
      if UINT64_MAX <? v then mk_strtoull UINT64_MAX consumed true
      else mk_strtoull (if negative then wrap64 (- v) else v) consumed false
  end.

Definition newline : byte := "010"%byte.

(** The loop of [parse_vmcoreinfo] over the lines.  [line] is the cursor
    [line .. end]; the string [strtoull] reads is what is left of the
    descriptor.  Every iteration moves the cursor past a newline, so a
    [fuel] above the length of [line] is never used up. *)
Fixpoint parse_vmcoreinfo_lines (fuel : nat) (line : list byte)
    (ret : vmcoreinfo) : drgn_error + vmcoreinfo :=
  match fuel with
  | O => inr ret
  | S fuel' =>
      match memchr newline line with
      | None => inr ret
      | Some (before, next_line) =>
          (* newline - line, once [consumed] bytes of the line are behind *)
          let to_newline (consumed : nat) : nat :=
            (List.length before - consumed)%nat in
          match linematch line "OSRELEASE=" with
          | Some value =>
              let n := to_newline 10%nat in
              if sizeof_osrelease <=? Z.of_nat n then
                inl (drgn_error_create DRGN_ERROR_OTHER
                       "OSRELEASE in VMCOREINFO is too long")
              else
                parse_vmcoreinfo_lines fuel' next_line
                  (mk_vmcoreinfo (firstn n value) (kaslr_offset ret))
          | None =>
              match linematch line "KERNELOFFSET=" with
              | Some value =>
                  let r := strtoull16 value in
                  if ull_erange r then
                    inl (drgn_error_create DRGN_ERROR_OVERFLOW
                           "KERNELOFFSET in VMCOREINFO is too large")
                  else if (ull_consumed r =? 0)%nat
                          || negb (ull_consumed r =? to_newline 13%nat)%nat then
                    inl (drgn_error_create DRGN_ERROR_OVERFLOW
                           "KERNELOFFSET in VMCOREINFO is invalid")
                  else
                    parse_vmcoreinfo_lines fuel' next_line
                      (mk_vmcoreinfo (osrelease ret) (ull_value r))
              | None => parse_vmcoreinfo_lines fuel' next_line ret
              end
          end
      end
  end.

(** [!ret->osrelease[0]]. *)
Definition osrelease_is_empty (v : vmcoreinfo) : bool :=
  match osrelease v with
  | [] => true
  | b :: _ => Byte.eqb b x00
  end.

Definition parse_vmcoreinfo (desc : list byte) : drgn_error + vmcoreinfo :=
  match parse_vmcoreinfo_lines (S (List.length desc)) desc
          (mk_vmcoreinfo [] 0) with
  | inl err => inl err
  | inr ret =>
      if osrelease_is_empty ret then
        inl (drgn_error_create DRGN_ERROR_OTHER
               "VMCOREINFO does not contain valid OSRELEASE")
      else inr ret
  end.

(** ** Reading target memory *)

(** Modelled from the spec: memory_reader.h is not part of the sources at
    hand.  "read(buf, address, count, physical) selects the segment whose
    axis contains address, invokes reader_fn, and fails with LOOKUP when no
    segment matches."  A reader is the outcome of its one-byte reads. *)
Definition memory_reader : Type := Z -> bool -> drgn_error + byte.

(** The loop of [drgn_program_read_c_string].  [str] holds the [size] bytes
    stored so far.  [None] stands for a run that uses up [fuel]. *)
Fixpoint read_c_string_loop (fuel : nat) (rd : memory_reader) (physical : bool)
    (max_size : Z) (str : list byte) (size capacity addr : Z)
    (heap : alloc_oracle) : option ((drgn_error + list byte) * alloc_oracle) :=
  match fuel with
  | O => None
  | S fuel' =>
      let '(ok, capacity1, heap1) :=
        if capacity <=? size then
          let (ok, heap') := alloc heap in (ok, wrap64 (capacity * 2), heap')
        else (true, capacity, heap) in
      if negb ok then Some (inl drgn_enomem, heap1)
      else if size <? max_size then
        match rd addr physical with
        | inl err => Some (inl err, heap1)
        | inr b =>
            if Byte.eqb b x00 then Some (inr (str ++ [b]), heap1)
            else read_c_string_loop fuel' rd physical max_size (str ++ [b])
                   (size + 1) capacity1 (wrap64 (addr + 1)) heap1
        end
      else Some (inr (str ++ [x00]), heap1)
  end.

(** [drgn_program_read_c_string], for a program whose reader is [rd].  The
    result is the buffer stored in [*ret], terminator included. *)
Definition drgn_program_read_c_string (rd : memory_reader) (addr : Z)
    (physical : bool) (max_size : Z) (heap : alloc_oracle)
  : option ((drgn_error + list byte) * alloc_oracle) :=
  let (ok, heap1) := alloc heap in
  if negb ok then Some (inl drgn_enomem, heap1)
  else
    match read_c_string_loop (S (Z.to_nat max_size)) rd physical max_size
            [] 0 1 addr heap1 with
    | Some (inr str, heap2) =>
        (* "We don't care if this fails." *)
        Some (inr str, snd (alloc heap2))
    | other => other
    end.

(** ** The cleanup stack *)

(** What the program does to the resources it holds, in the order in which
    it does it.  [ev_cleanup c] is the call [cleanup->cb(cleanup->arg)] of
    [drgn_program_deinit]; what the callback does follows it. *)
Inductive event : Type :=
| ev_cleanup (c : drgn_cleanup)
| ev_close (fd : Z)
| ev_free (p : Z)
| ev_elf_end (e : option Z)
| ev_memory_reader_destroy (r : Z)
| ev_type_index_destroy (t : Z)
| ev_symbol_index_destroy (s : Z)
| ev_dwarf_index_destroy (d : Z)
| ev_dwarf_type_cache_destroy (c : Z)
| ev_free_file_mappings (mappings : list file_mapping).

Definition drgn_program_init (prog : drgn_program) (reader' tindex' sindex' : Z)
  : drgn_program :=
  mk_program reader' tindex' sindex' [] 0 (prog_vmcoreinfo prog)
    (prog_mappings prog).

(** The body of a callback; the argument of [cleanup_file_mappings] is the
    program itself. *)
Definition run_cleanup (prog : drgn_program) (c : drgn_cleanup) : list event :=
  match cb c with
  | cleanup_fd => [ev_close (arg c)]
  | cleanup_free => [ev_free (arg c)]
  | cleanup_dwarf_index => [ev_dwarf_index_destroy (arg c)]
  | cleanup_dwarf_type_cache => [ev_dwarf_type_cache_destroy (arg c)]
  | cleanup_file_mappings => [ev_free_file_mappings (prog_mappings prog)]
  end.

Definition drgn_program_deinit (prog : drgn_program) : list event :=
  [ev_symbol_index_destroy (sindex prog);
   ev_type_index_destroy (tindex prog);
   ev_memory_reader_destroy (reader prog)]
  ++ flat_map (fun c => ev_cleanup c :: run_cleanup prog c) (cleanup prog).

Definition set_cleanup (prog : drgn_program) (l : list drgn_cleanup)
  : drgn_program :=
  mk_program (reader prog) (tindex prog) (sindex prog) l (flags prog)
    (prog_vmcoreinfo prog) (prog_mappings prog).

Definition drgn_program_add_cleanup (prog : drgn_program) (cb' : cleanup_cb)
    (arg' : Z) (heap : alloc_oracle)
  : option drgn_error * drgn_program * alloc_oracle :=
  let (ok, heap') := alloc heap in
  if ok then (None, set_cleanup prog (mk_cleanup cb' arg' :: cleanup prog), heap')
  else (Some drgn_enomem, prog, heap').

Fixpoint remove_first_cleanup (l : list drgn_cleanup) (cb' : cleanup_cb)
    (arg' : Z) : bool * list drgn_cleanup :=
  match l with
  | [] => (false, [])
  | c :: rest =>
      if cleanup_cb_eqb (cb c) cb' && (arg c =? arg') then (true, rest)
      else let (found, rest') := remove_first_cleanup rest cb' arg' in
           (found, c :: rest')
  end.

Definition drgn_program_remove_cleanup (prog : drgn_program) (cb' : cleanup_cb)
    (arg' : Z) : bool * drgn_program :=
  let (found, l) := remove_first_cleanup (cleanup prog) cb' arg' in
  (found, set_cleanup prog l).

(** ** Bootstrap from a core dump *)

(** A segment as [drgn_memory_reader_add_segment] receives it, with the
    [struct drgn_memory_file_segment] that backs it. *)
Record memory_segment : Type := mk_segment {
  seg_vaddr : Z;
  seg_paddr : Z;
  seg_size : Z;
  seg_file_offset : Z;
  seg_file_size : Z;
  seg_fd : Z
}.

(** Which hook the symbol index calls. *)
Inductive relocation_hook : Type :=
| hook_kernel
| hook_userspace.

(** [struct drgn_dwarf_symbol_index], as far as the bootstrap writes it. *)
Record dwarf_symbol_index : Type := mk_dsindex {
  ds_prog : option Z;
  ds_relocation_hook : option relocation_hook
}.

(** What the operating system, libelf and the collaborating indices answer
    during one bootstrap, from a core dump or from a process.  Pointers are handles; [inl] is the failure of a
    call ([errno] for a system call, the error for a library call). *)
Record bootstrap_env : Type := mk_env {
  (* open(path, O_RDONLY), of the core dump or of /proc/<pid>/mem *)
  env_open : Z + Z;
  (* elf_begin(fd, ELF_C_READ, NULL) *)
  env_elf : option Elf;
  env_reader_create : drgn_error + Z;
  (* the file segments that malloc_array or malloc returns *)
  env_file_segments : Z;
  (* drgn_memory_reader_add_segment, by the number of segments added before *)
  env_add_segment : nat -> option drgn_error;
  (* fstatfs(fd, &fs): errno or fs.f_type *)
  env_fstatfs : Z + Z;
  (* fopen and fscanf on /sys/kernel/vmcoreinfo: address and size *)
  env_sysfs : Z + option (Z * Z);
  (* drgn_memory_reader_read(reader, buf, address, size, true) *)
  env_read_physical : Z -> Z -> drgn_error + list byte;
  (* uname(&uts): errno or uts.release *)
  env_uname : Z + list byte;
  (* proc_kallsyms_symbol_addr and vmlinux_symbol_addr for _stext *)
  env_kallsyms_stext : drgn_error + Z;
  env_vmlinux_stext : list byte -> drgn_error + Z;
  env_dindex_create : drgn_error + Z;
  (* drgn_dwarf_index_open(dindex, path, &elf): the ELF handle it stores *)
  env_dindex_open : list byte -> drgn_error + option Z;
  (* the walk of open_kernel_files over the module trees *)
  env_walk_modules : list byte -> option drgn_error;
  env_dindex_update : option drgn_error;
  env_tindex_create : drgn_error + Z;
  env_dtcache_create : drgn_error + Z;
  env_add_finder : option drgn_error;
  env_dsindex_create : drgn_error + Z;
  (* the address of the program being initialised *)
  env_prog : Z
}.

Definition PROC_SUPER_MAGIC : Z := 0x9fa0.

Definition read_vmcoreinfo_from_sysfs (env : bootstrap_env) (heap : alloc_oracle)
  : (drgn_error + vmcoreinfo) * alloc_oracle :=
  match env_sysfs env with
  | inl errno =>
      (inl (drgn_error_create_os errno "/sys/kernel/vmcoreinfo" "fopen"), heap)
  | inr None =>
      (inl (drgn_error_create DRGN_ERROR_OTHER
              "could not parse /sys/kernel/vmcoreinfo"), heap)
  | inr (Some (addr, size)) =>
      let (ok, heap') := alloc heap in
      if negb ok then (inl drgn_enomem, heap')
      else
        match env_read_physical env addr size with
        | inl err => (inl err, heap')
        | inr buf =>
            (* "The first 12 bytes are the Elf{32,64}_Nhdr ... the
               descriptor starts at byte 24." *)
            let n_namesz := le_value (firstn 4 buf) in
            let n_descsz := le_value (firstn 4 (skipn 4 buf)) in
            if (size <? 24)
               || negb (n_namesz =? 11)
               || negb (bytes_eqb (firstn 10 (skipn 12 buf)) (bytes "VMCOREINFO"))
               || (wrap64 (size - 24) <? n_descsz)
            then
              (inl (drgn_error_create DRGN_ERROR_OTHER
                      "VMCOREINFO in /sys/kernel/vmcoreinfo is invalid"), heap')
            else
              (parse_vmcoreinfo (firstn (Z.to_nat n_descsz) (skipn 24 buf)),
               heap')
        end
  end.

Definition get_fallback_vmcoreinfo (env : bootstrap_env)
  : drgn_error + vmcoreinfo :=
  match env_uname env with
  | inl errno => inl (drgn_error_create_os errno "" "uname")
  | inr release =>
      if sizeof_osrelease <=? Z.of_nat (List.length (cstr release)) then
        inl (drgn_error_create DRGN_ERROR_OTHER "uname release is too long")
      else
        match env_kallsyms_stext env with
        | inl err => inl err
        | inr kallsyms_addr =>
            match env_vmlinux_stext env (cstr release) with
            | inl err => inl err
            | inr elf_addr =>
                inr (mk_vmcoreinfo (cstr release)
                       (wrap64 (kallsyms_addr - elf_addr)))
            end
        end
  end.

(** The formats of [vmlinux_paths], split at their %s. *)
Definition vmlinux_paths : list (string * string) :=
  [("/usr/lib/debug/lib/modules/", "/vmlinux");
   ("/boot/vmlinux-", "");
   ("/lib/modules/", "/build/vmlinux")].

Definition is_enoent (err : drgn_error) : bool :=
  drgn_error_code_eqb (code err) DRGN_ERROR_OS && (errnum err =? ENOENT).

Definition is_missing_debug (err : drgn_error) : bool :=
  drgn_error_code_eqb (code err) DRGN_ERROR_MISSING_DEBUG.

(** The first loop of [open_kernel_files]: [None] when a vmlinux was
    opened. *)
Fixpoint open_vmlinux (env : bootstrap_env) (paths : list (string * string))
    (release : list byte) (found_vmlinux : bool) : option drgn_error :=
  match paths with
  | [] =>
      Some (drgn_error_create DRGN_ERROR_MISSING_DEBUG
              (if found_vmlinux then "vmlinux does not have debug information"
               else "could not find vmlinux"))
  | (before, after) :: rest =>
      match env_dindex_open env (bytes before ++ cstr release ++ bytes after) with
      | inl err =>
          if is_enoent err then open_vmlinux env rest release found_vmlinux
          else if is_missing_debug err then open_vmlinux env rest release true
          else Some err
      | inr _ => None
      end
  end.

Definition open_kernel_files (env : bootstrap_env) (release : list byte)
  : option drgn_error :=
  match open_vmlinux env vmlinux_paths release false with
  | Some err => Some err
  | None => env_walk_modules env release
  end.

(** The loop of [open_userspace_files]: the error it returns, whether a file
    was opened, and the mappings with their [elf] members filled in. *)
Fixpoint open_userspace_loop (env : bootstrap_env) (mappings : list file_mapping)
    (success : bool) : option drgn_error * bool * list file_mapping :=
  match mappings with
  | [] => (None, success, [])
  | mapping :: rest =>
      let path' := match path mapping with Some p => p | None => [] end in
      match env_dindex_open env path' with
      | inl err =>
          if is_enoent err
             || drgn_error_code_eqb (code err) DRGN_ERROR_NOT_ELF
             || is_missing_debug err
          then
            let '(r, success', rest') := open_userspace_loop env rest success in
            (r, success', set_elf mapping None :: rest')
          else (Some err, success, set_elf mapping None :: rest)
      | inr e =>
          let '(r, success', rest') := open_userspace_loop env rest true in
          (r, success', set_elf mapping e :: rest')
      end
  end.

Definition open_userspace_files (env : bootstrap_env)
    (mappings : list file_mapping) : option drgn_error * list file_mapping :=
  match open_userspace_loop env mappings false with
  | (Some err, _, mappings') => (Some err, mappings')
  | (None, success, mappings') =>
      if success then (None, mappings')
      else (Some (drgn_error_create DRGN_ERROR_MISSING_DEBUG
                    "no debug information found"), mappings')
  end.

(** What the two passes over the program headers have built: the segments
    given to the reader, the table that [parse_nt_file] fills (it receives
    [&prog->mappings] and [&prog->num_mappings]), [mappings_capacity], the
    parsed VMCOREINFO ([have_vmcoreinfo] is set exactly when there is one)
    and the two other flags. *)
Record pass_state : Type := mk_pass {
  ps_segments : list memory_segment;
  ps_mappings : list file_mapping;
  ps_capacity : Z;
  ps_vmcoreinfo : option vmcoreinfo;
  ps_have_nt_file : bool;
  ps_have_nt_taskstruct : bool;
  ps_heap : alloc_oracle
}.

(** "First pass: count the number of loadable segments and check if p_addr
    is valid."  [None] when [gelf_getphdr] fails. *)
Fixpoint count_load_segments (phdrs : list (option GElf_Phdr))
    (have_non_zero_phys_addr : bool) (num_file_segments : Z)
  : option (bool * Z) :=
  match phdrs with
  | [] => Some (have_non_zero_phys_addr, num_file_segments)
  | None :: _ => None
  | Some phdr :: rest =>
      if p_type phdr =? PT_LOAD then
        count_load_segments rest
          (have_non_zero_phys_addr || negb (p_paddr phdr =? 0))
          (num_file_segments + 1)
      else count_load_segments rest have_non_zero_phys_addr num_file_segments
  end.

(** [strncmp(name, "CORE", nhdr.n_namesz) == 0] and the same test for
    VMCOREINFO. *)
Definition note_named (nt : note) (name : string) : bool :=
  strncmp_eq (n_name nt) (bytes name) (List.length (n_name nt)).

(** The loop over the notes of one PT_NOTE segment. *)
Fixpoint parse_notes (notes : list note) (is_64_bit : bool) (st : pass_state)
  : status * pass_state :=
  match notes with
  | [] => (Ok, st)
  | nt :: rest =>
      if note_named nt "CORE" then
        if n_type nt =? NT_FILE then
          let '(r, mappings', capacity', heap') :=
            parse_nt_file (n_desc nt) is_64_bit (ps_mappings st)
              (ps_capacity st) (ps_heap st) in
          let st' have_nt_file :=
            mk_pass (ps_segments st) mappings' capacity' (ps_vmcoreinfo st)
              have_nt_file (ps_have_nt_taskstruct st) heap' in
          match r with
          | Ok => parse_notes rest is_64_bit (st' true)
          | _ => (r, st' (ps_have_nt_file st))
          end
        else if n_type nt =? NT_TASKSTRUCT then
          parse_notes rest is_64_bit
            (mk_pass (ps_segments st) (ps_mappings st) (ps_capacity st)
               (ps_vmcoreinfo st) (ps_have_nt_file st) true (ps_heap st))
        else parse_notes rest is_64_bit st
      else if note_named nt "VMCOREINFO" then
        match parse_vmcoreinfo (n_desc nt) with
        | inl err => (Failed err, st)
        | inr v =>
            parse_notes rest is_64_bit
              (mk_pass (ps_segments st) (ps_mappings st) (ps_capacity st)
                 (Some v) (ps_have_nt_file st) (ps_have_nt_taskstruct st)
                 (ps_heap st))
        end
      else parse_notes rest is_64_bit st
  end.

(** "Second pass: add the segments and parse notes."  [i] is the index of
    the head of [phdrs] in the program header table. *)
Fixpoint second_pass (env : bootstrap_env) (e : Elf) (fd : Z)
    (is_64_bit have_non_zero_phys_addr : bool) (num_file_segments : Z)
    (i : nat) (phdrs : list (option GElf_Phdr)) (st : pass_state)
  : status * pass_state :=
  match phdrs with
  | [] => (Ok, st)
  | None :: _ => (Failed drgn_error_libelf, st)
  | Some phdr :: rest =>
      let continue st' :=
        second_pass env e fd is_64_bit have_non_zero_phys_addr
          num_file_segments (S i) rest st' in
      if p_type phdr =? PT_LOAD then
        if Z.of_nat (List.length (ps_segments st)) =? num_file_segments then
          continue st
        else
          let phys_addr := if have_non_zero_phys_addr then p_paddr phdr
                           else UINT64_MAX in
          match env_add_segment env (List.length (ps_segments st)) with
          | Some err => (Failed err, st)
          | None =>
              continue
                (mk_pass
                   (ps_segments st
                    ++ [mk_segment (p_vaddr phdr) phys_addr (p_memsz phdr)
                          (p_offset phdr) (p_filesz phdr) fd])
                   (ps_mappings st) (ps_capacity st) (ps_vmcoreinfo st)
                   (ps_have_nt_file st) (ps_have_nt_taskstruct st)
                   (ps_heap st))
          end
      else if p_type phdr =? PT_NOTE then
        match elf_notes e i with
        | None => (Failed drgn_error_libelf, st)
        | Some notes =>
            match parse_notes notes is_64_bit st with
            | (Ok, st') => continue st'
            | failed => failed
            end
        end
      else continue st
  end.

Definition set_mappings (prog : drgn_program) (m : list file_mapping)
  : drgn_program :=
  mk_program (reader prog) (tindex prog) (sindex prog) (cleanup prog)
    (flags prog) (prog_vmcoreinfo prog) m.

Definition set_kernel (prog : drgn_program) (v : vmcoreinfo) : drgn_program :=
  mk_program (reader prog) (tindex prog) (sindex prog) (cleanup prog)
    (Z.lor (flags prog) DRGN_PROGRAM_IS_LINUX_KERNEL) v (prog_mappings prog).

(** The calls of [drgn_program_remove_cleanup] from a label of the error
    path down to [out_program]. *)
Definition remove_cleanups (prog : drgn_program) (l : list drgn_cleanup)
  : drgn_program :=
  fold_left (fun p c => snd (drgn_program_remove_cleanup p (cb c) (arg c)))
    l prog.

Record bootstrap_result : Type := mk_result {
  br_status : status;
  (* the contents of the program structure when the call returns *)
  br_prog : drgn_program;
  br_dsindex : option dwarf_symbol_index;
  br_events : list event;
  br_heap : alloc_oracle
}.

(** *** The labels of the error path

    Each label runs what it names and falls through to the next one.
    [mappings] is the local table of the function and [elf] its ELF
    pointer, NULL once [elf_end] has been called. *)

Definition out_fd (fd : Z) : list event := [ev_close fd].

Definition out_elf (elf : option Z) (fd : Z) : list event :=
  ev_elf_end elf :: out_fd fd.

Definition out_reader (reader' : Z) (elf : option Z) (fd : Z) : list event :=
  ev_memory_reader_destroy reader' :: out_elf elf fd.

Definition out_mappings (mappings : list file_mapping) (file_segments reader' : Z)
    (elf : option Z) (fd : Z) : list event :=
  ev_free_file_mappings mappings :: ev_free file_segments
  :: out_reader reader' elf fd.

Definition out_dindex (dindex : Z) (mappings : list file_mapping)
    (file_segments reader' : Z) (elf : option Z) (fd : Z) : list event :=
  ev_dwarf_index_destroy dindex
  :: out_mappings mappings file_segments reader' elf fd.

Definition out_tindex (tindex' dindex : Z) (mappings : list file_mapping)
    (file_segments reader' : Z) (elf : option Z) (fd : Z) : list event :=
  ev_type_index_destroy tindex'
  :: out_dindex dindex mappings file_segments reader' elf fd.

Definition out_dtcache (dtcache tindex' dindex : Z) (mappings : list file_mapping)
    (file_segments reader' : Z) (elf : option Z) (fd : Z) : list event :=
  ev_dwarf_type_cache_destroy dtcache
  :: out_tindex tindex' dindex mappings file_segments reader' elf fd.

(** The bootstrap from [drgn_program_init] on: the cleanups are registered
    and the program is completed.  [vmc] is the VMCOREINFO that stands for
    [have_vmcoreinfo] and [vmcoreinfo], and [done] the events so far.  A
    registration that fails goes to its label out_cleanup_...: the cleanups
    registered before it are removed, the program is deinitialised and
    out_dtcache follows. *)
Definition init_core_dump_register (env : bootstrap_env)
    (fd file_segments reader' dindex tindex' dtcache dsindex : Z)
    (mappings : list file_mapping) (vmc : option vmcoreinfo)
    (prog : drgn_program) (done : list event) (heap : alloc_oracle)
  : bootstrap_result :=
  let c_fd := mk_cleanup cleanup_fd fd in
  let c_file_segments := mk_cleanup cleanup_free file_segments in
  let c_dindex := mk_cleanup cleanup_dwarf_index dindex in
  let c_dtcache := mk_cleanup cleanup_dwarf_type_cache dtcache in
  let fail err prog (registered : list drgn_cleanup) ds heap :=
    let prog := remove_cleanups prog registered in
    mk_result (Failed err) prog ds
      (done ++ drgn_program_deinit prog
       ++ out_dtcache dtcache tindex' dindex mappings file_segments reader'
            None fd)
      heap in
  let ds0 := Some (mk_dsindex None None) in
  let prog := drgn_program_init prog reader' tindex' dsindex in
  match drgn_program_add_cleanup prog cleanup_fd fd heap with
  | (Some err, prog, heap) => fail err prog [] ds0 heap
  | (None, prog, heap) =>
  match drgn_program_add_cleanup prog cleanup_free file_segments heap with
  | (Some err, prog, heap) => fail err prog [c_fd] ds0 heap
  | (None, prog, heap) =>
  match drgn_program_add_cleanup prog cleanup_dwarf_index dindex heap with
  | (Some err, prog, heap) => fail err prog [c_file_segments; c_fd] ds0 heap
  | (None, prog, heap) =>
  match drgn_program_add_cleanup prog cleanup_dwarf_type_cache dtcache heap with
  | (Some err, prog, heap) =>
      fail err prog [c_dindex; c_file_segments; c_fd] ds0 heap
  | (None, prog, heap) =>
  match vmc with
  | Some v =>
      mk_result Ok (set_kernel prog v)
        (Some (mk_dsindex (Some (env_prog env)) (Some hook_kernel))) done heap
  | None =>
      let prog := set_mappings prog mappings in
      let ds := Some (mk_dsindex (Some (env_prog env)) (Some hook_userspace)) in
      match drgn_program_add_cleanup prog cleanup_file_mappings (env_prog env)
              heap with
      | (Some err, prog, heap) =>
          fail err prog [c_dtcache; c_dindex; c_file_segments; c_fd] ds heap
      | (None, prog, heap) => mk_result Ok prog ds done heap
      end
  end end end end end.

(** The bootstrap from [drgn_dwarf_index_create] to
    [drgn_dwarf_symbol_index_create]. *)
Definition init_core_dump_indices (env : bootstrap_env) (fd file_segments reader' : Z)
    (mappings : list file_mapping) (vmc : option vmcoreinfo)
    (prog : drgn_program) (done : list event) (heap : alloc_oracle)
  : bootstrap_result :=
  let failed err events := mk_result (Failed err) prog None (done ++ events) heap in
  match env_dindex_create env with
  | inl err => failed err (out_mappings mappings file_segments reader' None fd)
  | inr dindex =>
  let (opened, mappings) :=
    match vmc with
    | Some v => (open_kernel_files env (osrelease v), mappings)
    | None => open_userspace_files env mappings
    end in
  let out_dindex := out_dindex dindex mappings file_segments reader' None fd in
  match opened with
  | Some err => failed err out_dindex
  | None =>
  match env_dindex_update env with
  | Some err => failed err out_dindex
  | None =>
  match env_tindex_create env with
  | inl err => failed err out_dindex
  | inr tindex' =>
  match env_dtcache_create env with
  | inl err =>
      failed err (out_tindex tindex' dindex mappings file_segments reader' None fd)
  | inr dtcache =>
  let out_dtcache :=
    out_dtcache dtcache tindex' dindex mappings file_segments reader' None fd in
  match env_add_finder env with
  | Some err => failed err out_dtcache
  | None =>
  match env_dsindex_create env with
  | inl err => failed err out_dtcache
  | inr dsindex =>
      init_core_dump_register env fd file_segments reader' dindex tindex'
        dtcache dsindex mappings vmc prog done heap
  end end end end end end end.

(** The decision after the note pass: [inr true] for a kernel
    ([have_vmcoreinfo || is_proc_kcore]), [inl] when [fstatfs] fails. *)
Definition detect_proc_kcore (env : bootstrap_env) (path' : string)
    (have_vmcoreinfo have_nt_taskstruct : bool) : drgn_error + bool :=
  if have_vmcoreinfo then inr true
  else if have_nt_taskstruct then
    (* "If this is a file in /proc with the NT_TASKSTRUCT note, then it's
       probably /proc/kcore." *)
    match env_fstatfs env with
    | inl errno => inl (drgn_error_create_os errno path' "fstatfs")
    | inr f_type => inr (f_type =? PROC_SUPER_MAGIC)
    end
  else inr false.

(** [drgn_program_init_core_dump].  [prog] is what the structure holds when
    the function is entered; [verbose] only selects what is written to
    stderr and is left out. *)
Definition drgn_program_init_core_dump (env : bootstrap_env) (path' : string)
    (prog : drgn_program) (heap : alloc_oracle) : bootstrap_result :=
  match env_open env with
  | inl errno =>
      mk_result (Failed (drgn_error_create_os errno path' "open")) prog None
        [] heap
  | inr fd =>
  match env_elf env with
  | None => mk_result (Failed drgn_error_libelf) prog None (out_fd fd) heap
  | Some e =>
  let elf := Some (elf_handle e) in
  match elf_ehdr e with
  | None => mk_result (Failed drgn_error_libelf) prog None (out_elf elf fd) heap
  | Some (e_type, is_64_bit) =>
  if negb (e_type =? ET_CORE) then
    mk_result
      (Failed (drgn_error_create DRGN_ERROR_INVALID_ARGUMENT
                 "not an ELF core file"))
      prog None (out_elf elf fd) heap
  else
  match elf_phdrs e with
  | None => mk_result (Failed drgn_error_libelf) prog None (out_elf elf fd) heap
  | Some phdrs =>
  match count_load_segments phdrs false 0 with
  | None => mk_result (Failed drgn_error_libelf) prog None (out_elf elf fd) heap
  | Some (have_non_zero_phys_addr, num_file_segments) =>
  match env_reader_create env with
  | inl err => mk_result (Failed err) prog None (out_elf elf fd) heap
  | inr reader' =>
  let (ok, heap) := alloc heap in
  if negb ok then
    (* goto out_reader, and err is still the NULL of the call before *)
    mk_result Ok prog None (out_reader reader' elf fd) heap
  else
  let file_segments := env_file_segments env in
  (* the local table: mappings = NULL, num_mappings = 0 *)
  let mappings : list file_mapping := [] in
  let '(r, st) :=
    second_pass env e fd is_64_bit have_non_zero_phys_addr num_file_segments
      0 phdrs (mk_pass [] (prog_mappings prog) 0 None false false heap) in
  let prog := set_mappings prog (ps_mappings st) in
  let heap := ps_heap st in
  match r with
  | OutOfBoundsStore => mk_result OutOfBoundsStore prog None [] heap
  | Failed err =>
      mk_result (Failed err) prog None
        (out_mappings mappings file_segments reader' elf fd) heap
  | Ok =>
  (* elf_end(elf); elf = NULL; *)
  let done := [ev_elf_end elf] in
  let heap :=
    if Z.of_nat (List.length mappings) <? ps_capacity st then
      (* "We don't care if this fails." *)
      snd (alloc heap)
    else heap in
  let have_vmcoreinfo :=
    match ps_vmcoreinfo st with Some _ => true | None => false end in
  match detect_proc_kcore env path' have_vmcoreinfo
          (ps_have_nt_taskstruct st) with
  | inl err =>
      mk_result (Failed err) prog None
        (done ++ out_mappings mappings file_segments reader' None fd) heap
  | inr is_proc_kcore =>
  if have_vmcoreinfo || is_proc_kcore then
    (* "Just in case the core dump also had any NT_FILE notes." *)
    let done := done ++ [ev_free_file_mappings mappings] in
    let mappings : list file_mapping := [] in
    let '(found, heap) :=
      match ps_vmcoreinfo st with
      | Some v => (inr v, heap)
      | None =>
          if have_non_zero_phys_addr then read_vmcoreinfo_from_sysfs env heap
          else (get_fallback_vmcoreinfo env, heap)
      end in
    match found with
    | inl err =>
        mk_result (Failed err) prog None
          (done ++ out_mappings mappings file_segments reader' None fd) heap
    | inr v =>
        init_core_dump_indices env fd file_segments reader' mappings (Some v)
          prog done heap
    end
  else if negb (ps_have_nt_file st) then
    mk_result
      (Failed (drgn_error_create DRGN_ERROR_INVALID_ARGUMENT
                 "core dump has no NT_FILE or VMCOREINFO note"))
      prog None
      (done ++ out_mappings mappings file_segments reader' None fd) heap
  else
    init_core_dump_indices env fd file_segments reader' mappings None prog
      done heap
  end end end end end end end end.

(** [drgn_program_from_core_dump]: the status, the program stored in [*ret]
    if one is, and the events.  [garbage] is what the memory that [malloc]
    returns for the program holds. *)
Definition drgn_program_from_core_dump (env : bootstrap_env) (path' : string)
    (garbage : drgn_program) (heap : alloc_oracle)
  : status * option drgn_program * list event :=
  let (ok, heap) := alloc heap in
  if negb ok then (Failed drgn_enomem, None, [])
  else
    let r := drgn_program_init_core_dump env path' garbage heap in
    match br_status r with
    | Ok => (Ok, Some (br_prog r), br_events r)
    | Failed err => (Failed err, None, br_events r ++ [ev_free (env_prog env)])
    | OutOfBoundsStore => (OutOfBoundsStore, None, [])
    end.

(** [drgn_program_destroy] of the program at address [p]; [None] is NULL. *)
Definition drgn_program_destroy (prog : option drgn_program) (p : Z)
  : list event :=
  match prog with
  | Some prog => drgn_program_deinit prog ++ [ev_free p]
  | None => []
  end.

(** ** Bootstrap from a process *)

(** What the [fscanf] of [parse_proc_maps] makes of a line of
    /proc/<pid>/maps: a mapping of a file (it returns 4), an anonymous
    mapping (3), or anything else.  The end of the list is the end of the
    file. *)
Inductive maps_line : Type :=
| maps_file (mapping_start mapping_end file_offset' : Z) (path' : list byte)
| maps_anonymous
| maps_unparsed.

(** The loop of [parse_proc_maps]. *)
Fixpoint parse_proc_maps_lines (maps_path : string) (file : list maps_line)
    (mappings : list file_mapping) (capacity : Z) (heap : alloc_oracle)
  : option drgn_error * list file_mapping * Z * alloc_oracle :=
  match file with
  | [] => (None, mappings, capacity, heap)
  | maps_anonymous :: rest =>
      (* "This is an anonymous mapping; skip it." *)
      parse_proc_maps_lines maps_path rest mappings capacity heap
  | maps_unparsed :: _ =>
      (Some (drgn_error_format DRGN_ERROR_OTHER "could not parse " maps_path),
       mappings, capacity, heap)
  | maps_file mapping_start mapping_end file_offset' path' :: rest =>
      match append_file_mapping mapping_start mapping_end file_offset' path'
              mappings capacity heap with
      | (None, mappings1, capacity1, heap1) =>
          parse_proc_maps_lines maps_path rest mappings1 capacity1 heap1
      | (Some err, mappings1, capacity1, heap1) =>
          if drgn_error_code_eqb (code err) DRGN_ERROR_STOP then
            (* "The mapping was merged, so free the path." *)
            parse_proc_maps_lines maps_path rest mappings1 capacity1 heap1
          else (Some err, mappings1, capacity1, heap1)
      end
  end.

(** [parse_proc_maps]; [file] is what [fopen] returns, [errno] or the
    lines. *)
Definition parse_proc_maps (maps_path : string) (file : Z + list maps_line)
    (mappings : list file_mapping) (heap : alloc_oracle)
  : option drgn_error * list file_mapping * alloc_oracle :=
  match file with
  | inl errno =>
      (Some (drgn_error_create_os errno maps_path "fopen"), mappings, heap)
  | inr scanned =>
      match parse_proc_maps_lines maps_path scanned mappings 0 heap with
      | (Some err, mappings', _, heap') => (Some err, mappings', heap')
      | (None, mappings', capacity, heap') =>
          (None, mappings',
           if Z.of_nat (List.length mappings') <? capacity then
             (* "We don't care if this fails." *)
             snd (alloc heap')
           else heap')
      end
  end.

(** The labels of the error path of [drgn_program_init_pid]. *)
Definition pid_out_file_segment (file_segment fd : Z) : list event :=
  [ev_free file_segment; ev_close fd].

Definition pid_out_reader (reader' file_segment fd : Z) : list event :=
  ev_memory_reader_destroy reader' :: pid_out_file_segment file_segment fd.

Definition pid_out_mappings (mappings : list file_mapping)
    (reader' file_segment fd : Z) : list event :=
  ev_free_file_mappings mappings :: pid_out_reader reader' file_segment fd.

Definition pid_out_dindex (dindex : Z) (mappings : list file_mapping)
    (reader' file_segment fd : Z) : list event :=
  ev_dwarf_index_destroy dindex
  :: pid_out_mappings mappings reader' file_segment fd.

Definition pid_out_tindex (tindex' dindex : Z) (mappings : list file_mapping)
    (reader' file_segment fd : Z) : list event :=
  ev_type_index_destroy tindex'
  :: pid_out_dindex dindex mappings reader' file_segment fd.

Definition pid_out_dtcache (dtcache tindex' dindex : Z)
    (mappings : list file_mapping) (reader' file_segment fd : Z)
  : list event :=
  ev_dwarf_type_cache_destroy dtcache
  :: pid_out_tindex tindex' dindex mappings reader' file_segment fd.

(** [drgn_program_init_pid] from [drgn_program_init] on. *)
Definition init_pid_register (env : bootstrap_env)
    (fd file_segment reader' dindex tindex' dtcache dsindex : Z)
    (mappings : list file_mapping) (prog : drgn_program) (heap : alloc_oracle)
  : bootstrap_result :=
  let c_fd := mk_cleanup cleanup_fd fd in
  let c_file_segment := mk_cleanup cleanup_free file_segment in
  let c_dindex := mk_cleanup cleanup_dwarf_index dindex in
  let c_dtcache := mk_cleanup cleanup_dwarf_type_cache dtcache in
  let ds := Some (mk_dsindex (Some (env_prog env)) (Some hook_userspace)) in
  let fail err prog (registered : list drgn_cleanup) heap :=
    let prog := remove_cleanups prog registered in
    mk_result (Failed err) prog ds
      (drgn_program_deinit prog
       ++ pid_out_dtcache dtcache tindex' dindex mappings reader'
            file_segment fd)
      heap in
  let prog :=
    set_mappings (drgn_program_init prog reader' tindex' dsindex) mappings in
  match drgn_program_add_cleanup prog cleanup_fd fd heap with
  | (Some err, prog, heap) => fail err prog [] heap
  | (None, prog, heap) =>
  match drgn_program_add_cleanup prog cleanup_free file_segment heap with
  | (Some err, prog, heap) => fail err prog [c_fd] heap
  | (None, prog, heap) =>
  match drgn_program_add_cleanup prog cleanup_dwarf_index dindex heap with
  | (Some err, prog, heap) => fail err prog [c_file_segment; c_fd] heap
  | (None, prog, heap) =>
  match drgn_program_add_cleanup prog cleanup_dwarf_type_cache dtcache heap with
  | (Some err, prog, heap) =>
      fail err prog [c_dindex; c_file_segment; c_fd] heap
  | (None, prog, heap) =>
  match drgn_program_add_cleanup prog cleanup_file_mappings (env_prog env)
          heap with
  | (Some err, prog, heap) =>
      fail err prog [c_dtcache; c_dindex; c_file_segment; c_fd] heap
  | (None, prog, heap) => mk_result Ok prog ds [] heap
  end end end end end.

(** [drgn_program_init_pid].  [pid] is the process id as [sprintf] prints
    it and [maps] what [fopen] returns for /proc/<pid>/maps. *)
Definition drgn_program_init_pid (env : bootstrap_env) (pid : string)
    (maps : Z + list maps_line) (prog : drgn_program) (heap : alloc_oracle)
  : bootstrap_result :=
  let failed err events heap := mk_result (Failed err) prog None events heap in
  match env_open env with
  | inl errno =>
      failed
        (drgn_error_create_os errno ("/proc/" ++ pid ++ "/mem")%string "open")
        [] heap
  | inr fd =>
  let (ok, heap) := alloc heap in
  if negb ok then failed drgn_enomem (out_fd fd) heap
  else
  let file_segment := env_file_segments env in
  match env_reader_create env with
  | inl err => failed err (pid_out_file_segment file_segment fd) heap
  | inr reader' =>
  match env_add_segment env 0 with
  | Some err => failed err (pid_out_reader reader' file_segment fd) heap
  | None =>
  let '(parsed, mappings, heap) :=
    parse_proc_maps ("/proc/" ++ pid ++ "/maps")%string maps [] heap in
  match parsed with
  | Some err =>
      failed err (pid_out_mappings mappings reader' file_segment fd) heap
  | None =>
  match env_dindex_create env with
  | inl err =>
      failed err (pid_out_mappings mappings reader' file_segment fd) heap
  | inr dindex =>
  let (opened, mappings) := open_userspace_files env mappings in
  let out_dindex := pid_out_dindex dindex mappings reader' file_segment fd in
  match opened with
  | Some err => failed err out_dindex heap
  | None =>
  match env_dindex_update env with
  | Some err => failed err out_dindex heap
  | None =>
  match env_tindex_create env with
  | inl err => failed err out_dindex heap
  | inr tindex' =>
  match env_dtcache_create env with
  | inl err =>
      failed err
        (pid_out_tindex tindex' dindex mappings reader' file_segment fd) heap
  | inr dtcache =>
  let out_dtcache :=
    pid_out_dtcache dtcache tindex' dindex mappings reader' file_segment fd in
  match env_add_finder env with
  | Some err => failed err out_dtcache heap
  | None =>
  match env_dsindex_create env with
  | inl err => failed err out_dtcache heap
  | inr dsindex =>
      init_pid_register env fd file_segment reader' dindex tindex' dtcache
        dsindex mappings prog heap
  end end end end end end end end end end end.

(** ** The public constructors *)

(** [drgn_program_init_kernel]. *)
Definition drgn_program_init_kernel (env : bootstrap_env) (prog : drgn_program)
    (heap : alloc_oracle) : bootstrap_result :=
  drgn_program_init_core_dump env "/proc/kcore" prog heap.

(** [drgn_program_from_kernel]. *)
Definition drgn_program_from_kernel (env : bootstrap_env)
    (garbage : drgn_program) (heap : alloc_oracle)
  : status * option drgn_program * list event :=
  let (ok, heap) := alloc heap in
  if negb ok then (Failed drgn_enomem, None, [])
  else
    let r := drgn_program_init_kernel env garbage heap in
    match br_status r with
    | Ok => (Ok, Some (br_prog r), br_events r)
    | Failed err => (Failed err, None, br_events r ++ [ev_free (env_prog env)])
    | OutOfBoundsStore => (OutOfBoundsStore, None, [])
    end.

(** [drgn_program_from_pid]. *)
Definition drgn_program_from_pid (env : bootstrap_env) (pid : string)
    (maps : Z + list maps_line) (garbage : drgn_program) (heap : alloc_oracle)
  : status * option drgn_program * list event :=
  let (ok, heap) := alloc heap in
  if negb ok then (Failed drgn_enomem, None, [])
  else
    let r := drgn_program_init_pid env pid maps garbage heap in
    match br_status r with
    | Ok => (Ok, Some (br_prog r), br_events r)
    | Failed err => (Failed err, None, br_events r ++ [ev_free (env_prog env)])
    | OutOfBoundsStore => (OutOfBoundsStore, None, [])
    end.

(** ** /proc/kallsyms *)

(** *** strtok_r (POSIX)

    A call skips the delimiters at the start of the string; if nothing is
    left it returns NULL, else the token that runs to the next delimiter,
    which it overwrites with a NUL, or to the end of the string.  The
    strings are the bytes before the NUL. *)

Definition is_delim (delim : list byte) (b : byte) : bool :=
  existsb (Byte.eqb b) delim.

(** [s + strspn(s, delim)]. *)
Fixpoint strtok_skip (delim : list byte) (s : list byte) : list byte :=
  match s with
  | b :: s' => if is_delim delim b then strtok_skip delim s' else s
  | [] => []
  end.

(** The token at the start of [s], and what [saveptr] points to. *)
Fixpoint strtok_token (delim : list byte) (s : list byte)
  : list byte * list byte :=
  match s with
  | b :: s' =>
      if is_delim delim b then ([], s')
      else let (token, saveptr) := strtok_token delim s' in
           (b :: token, saveptr)
  | [] => ([], [])
  end.

Definition strtok_r (delim : list byte) (s : list byte)
  : option (list byte * list byte) :=
  match strtok_skip delim s with
  | [] => None
  | s' => Some (strtok_token delim s')
  end.

Definition tab : byte := "009"%byte.
Definition space : byte := " "%byte.

(** What the body of the loop of [proc_kallsyms_symbol_addr] makes of a
    line: it is invalid, it names another symbol, or it gives the
    address. *)
Inductive kallsyms_line : Type :=
| kallsyms_invalid
| kallsyms_other
| kallsyms_found (addr : Z).

(** The body of the loop.  [line] is the buffer that [getline] returns; the
    string in it ends at its first NUL.  [strtoull] reads the buffer from
    its start, after [strtok_r] has ended the first token with a NUL: it
    sees the delimiters that were skipped and the token, and the byte at
    its end pointer is a NUL exactly when it has consumed them all. *)
Definition parse_kallsyms_line (line : list byte) (name : list byte)
  : kallsyms_line :=
  let s := cstr line in
  match strtok_r [tab; space] s with
  | None => kallsyms_invalid
  | Some (addr_str, saveptr) =>
      match strtok_r [tab; space] saveptr with
      | None => kallsyms_invalid
      | Some (_, saveptr) =>
          match strtok_r [tab; newline; space] saveptr with
          | None => kallsyms_invalid
          | Some (sym_str, _) =>
              if negb (bytes_eqb sym_str (cstr name)) then kallsyms_other
              else
                let skipped :=
                  (List.length s
                   - List.length (strtok_skip [tab; space] s))%nat in
                let r := strtoull16 (firstn skipped s ++ addr_str) in
                if ull_erange r
                   || negb (ull_consumed r
                            =? skipped + List.length addr_str)%nat
                then kallsyms_invalid
                else kallsyms_found (ull_value r)
          end
      end
  end.

(** The loop over the lines that [getline] returns. *)
Fixpoint find_kallsyms_line (lines : list (list byte)) (name : list byte)
  : kallsyms_line :=
  match lines with
  | [] => kallsyms_other
  | line :: rest =>
      match parse_kallsyms_line line name with
      | kallsyms_other => find_kallsyms_line rest name
      | r => r
      end
  end.

(** [proc_kallsyms_symbol_addr].  [file] is what [fopen] returns: [errno],
    or the lines of the file with the [errno] that the call of [getline]
    that returns -1 leaves, 0 at the end of the file.  In the bootstrap
    [env_kallsyms_stext] stands for the call with _stext. *)
Definition proc_kallsyms_symbol_addr (file : Z + list (list byte) * Z)
    (name : list byte) : drgn_error + Z :=
  match file with
  | inl errno => inl (drgn_error_create_os errno "/proc/kallsyms" "fopen")
  | inr (lines, getline_errno) =>
      match find_kallsyms_line lines name with
      | kallsyms_invalid =>
          inl (drgn_error_create DRGN_ERROR_OTHER
                 "could not parse /proc/kallsyms")
      | kallsyms_found addr => inr addr
      | kallsyms_other =>
          if negb (getline_errno =? 0) then
            inl (drgn_error_create_os getline_errno "/proc/kallsyms" "getline")
          else
            inl (mk_error DRGN_ERROR_OTHER 0
                   ("could not find " ++ text name
                    ++ " symbol in /proc/kallsyms")%string)
      end
  end.

(** ** The walk over the module trees

    The second loop of [open_kernel_files], which [env_walk_modules] stands
    for in the bootstrap.  The directory tree is what fts(3) reports;
    [verbose] only selects what is written to stderr and is left out. *)

(** [fts_info], as far as the walk tells its values apart. *)
Inductive fts_info_t : Type :=
| FTS_F
| FTS_NSOK
| FTS_other.

Definition S_IFREG : Z := 0x8000.

(** An entry that [fts_read] returns.  [fts_name] holds [fts_namelen]
    bytes; [fts_stat] is what [stat(fts_accpath, &st)] gives, [None] when
    it returns -1 and [st.st_mode & S_IFMT] otherwise. *)
Record FTSENT : Type := mk_ftsent {
  fts_info : fts_info_t;
  fts_name : list byte;
  fts_accpath : list byte;
  fts_stat : option Z
}.

(** What [fts_open] returns for a root: [errno], or the entries that
    [fts_read] returns in order with the [errno] that it leaves when it
    returns NULL, 0 at the end of the tree. *)
Definition fts_tree : Type := Z + list FTSENT * Z.

(** [fts_name_endswith]. *)
Definition fts_name_endswith (ent : FTSENT) (suffix : list byte) : bool :=
  let len := List.length (cstr suffix) in
  (len <=? List.length (fts_name ent))%nat
  && bytes_eqb
       (firstn len (skipn (List.length (fts_name ent) - len) (fts_name ent)))
       (firstn len suffix).

(** [module_paths], split at their %s, each with its entry of
    [module_extensions]. *)
Definition module_paths : list (string * string * string) :=
  [("/usr/lib/debug/lib/modules/", "/kernel", ".ko.debug");
   ("/lib/modules/", "/kernel", ".ko")].

(** The tests of the loop on an entry: a regular file whose name ends in
    the extension. *)
Definition is_module_file (ent : FTSENT) (extension : string) : bool :=
  match fts_info ent with
  | FTS_F => fts_name_endswith ent (c_string extension)
  | FTS_NSOK =>
      fts_name_endswith ent (c_string extension)
      && match fts_stat ent with
         | Some fmt => fmt =? S_IFREG
         | None => false
         end
  | FTS_other => false
  end.

(** The loop over the entries of one tree: the error that ends it,
    [found_modules], and the entries given to [drgn_dwarf_index_open] so
    far, in order. *)
Fixpoint read_module_tree (env : bootstrap_env) (extension : string)
    (entries : list FTSENT) (found_modules : bool) (opened : list FTSENT)
  : option drgn_error * bool * list FTSENT :=
  match entries with
  | [] => (None, found_modules, opened)
  | ent :: rest =>
      if negb (is_module_file ent extension) then
        read_module_tree env extension rest found_modules opened
      else
        match env_dindex_open env (fts_accpath ent) with
        | inl err =>
            if is_missing_debug err then
              read_module_tree env extension rest true (opened ++ [ent])
            else (Some err, true, opened ++ [ent])
        | inr _ => read_module_tree env extension rest true (opened ++ [ent])
        end
  end.

(** The loop over [module_paths]. *)
Fixpoint walk_module_trees (env : bootstrap_env)
    (fts_open : list byte -> fts_tree) (release : list byte)
    (trees : list (string * string * string)) (found_modules : bool)
    (opened : list FTSENT) : option drgn_error * list FTSENT :=
  match trees with
  | [] => (None, opened)
  | (before, after, extension) :: rest =>
      if found_modules then (None, opened)
      else
        let buf := bytes before ++ cstr release ++ bytes after in
        match fts_open buf with
        | inl errno =>
            if errno =? ENOENT then
              walk_module_trees env fts_open release rest found_modules opened
            else
              (Some (drgn_error_create_os errno (text buf) "fts_open"), opened)
        | inr (entries, fts_read_errno) =>
            match read_module_tree env extension entries found_modules
                    opened with
            | (Some err, _, opened') => (Some err, opened')
            | (None, found_modules', opened') =>
                if negb (fts_read_errno =? 0) then
                  (Some (drgn_error_create_os fts_read_errno (text buf)
                           "fts_read"), opened')
                else
                  walk_module_trees env fts_open release rest found_modules'
                    opened'
            end
        end
  end.

(** The second loop of [open_kernel_files]: the error it returns and the
    entries it has given to [drgn_dwarf_index_open]. *)
Definition open_kernel_modules (env : bootstrap_env)
    (fts_open : list byte -> fts_tree) (release : list byte)
  : option drgn_error * list FTSENT :=
  walk_module_trees env fts_open release module_paths false [].

(** ** A core dump to run the bootstrap on

    A 64-bit ET_CORE file with a PT_NOTE segment that holds [notes] and one
    PT_LOAD segment, in an environment where every call succeeds, the file
    is not on procfs and every path opened by the DWARF index has debugging
    information. *)

Definition example_elf (notes : list note) : Elf :=
  mk_elf 100 (Some (ET_CORE, true))
    (Some [Some (mk_phdr PT_NOTE 0x200 0 0 0x400 0 4);
           Some (mk_phdr PT_LOAD 0x1000 0x400000 0 0x1000 0x1000 0x1000)])
    true []
    (fun i => match i with O => Some notes | S _ => None end).

Definition example_env (notes : list note) : bootstrap_env :=
  mk_env (inr 3) (Some (example_elf notes)) (inr 200) 300 (fun _ => None)
    (inr 0xef53) (inr None)
    (fun _ _ => inl (drgn_error_create DRGN_ERROR_FAULT "no segment"))
    (inr (bytes "5.4.0-test")) (inr 0) (fun _ => inr 0)
    (inr 400) (fun _ => inr (Some 900)) (fun _ => None) None
    (inr 500) (inr 600) None (inr 700) 800.

Definition example_prstatus_note : note := mk_note (c_string "CORE") 1 [].

Definition example_nt_file_note : note :=
  mk_note (c_string "CORE") NT_FILE
    (nt_file_desc64 0x1000 [(0x400000, 0x401000, 0)] ["/bin/x"]).

Definition example_vmcoreinfo_note : note :=
  mk_note (c_string "VMCOREINFO") 0 (bytes "OSRELEASE=5.4.0-test" ++ [newline]).

(** A program structure whose memory holds zeroes. *)
Definition zeroed_program : drgn_program :=
  mk_program 0 0 0 [] 0 (mk_vmcoreinfo [] 0) [].

(** Environments that differ from another one in the answers of one
    collaborator. *)

Definition with_dindex_open (env : bootstrap_env)
    (dindex_open : list byte -> drgn_error + option Z) : bootstrap_env :=
  mk_env (env_open env) (env_elf env) (env_reader_create env)
    (env_file_segments env) (env_add_segment env) (env_fstatfs env)
    (env_sysfs env) (env_read_physical env) (env_uname env)
    (env_kallsyms_stext env) (env_vmlinux_stext env) (env_dindex_create env)
    dindex_open (env_walk_modules env) (env_dindex_update env)
    (env_tindex_create env) (env_dtcache_create env) (env_add_finder env)
    (env_dsindex_create env) (env_prog env).

Definition with_sysfs (env : bootstrap_env) (sysfs : Z + option (Z * Z))
    (read_physical : Z -> Z -> drgn_error + list byte) : bootstrap_env :=
  mk_env (env_open env) (env_elf env) (env_reader_create env)
    (env_file_segments env) (env_add_segment env) (env_fstatfs env)
    sysfs read_physical (env_uname env)
    (env_kallsyms_stext env) (env_vmlinux_stext env) (env_dindex_create env)
    (env_dindex_open env) (env_walk_modules env) (env_dindex_update env)
    (env_tindex_create env) (env_dtcache_create env) (env_add_finder env)
    (env_dsindex_create env) (env_prog env).

Definition with_stext (env : bootstrap_env) (kallsyms_stext : drgn_error + Z)
    (vmlinux_stext : list byte -> drgn_error + Z) : bootstrap_env :=
  mk_env (env_open env) (env_elf env) (env_reader_create env)
    (env_file_segments env) (env_add_segment env) (env_fstatfs env)
    (env_sysfs env) (env_read_physical env) (env_uname env)
    kallsyms_stext vmlinux_stext (env_dindex_create env)
    (env_dindex_open env) (env_walk_modules env) (env_dindex_update env)
    (env_tindex_create env) (env_dtcache_create env) (env_add_finder env)
    (env_dsindex_create env) (env_prog env).

(** ** The vocabulary of the properties *)

(** The mapping that follows [a] in a table would have been merged into
    [a]: the test of [append_file_mapping], on two entries. *)
Definition mergeable (a b : file_mapping) : bool :=
  match path b with
  | Some p => merges_into a (start b) (file_offset b) p
  | None => false
  end.

(** No entry of the table can be merged into the one before it. *)
Definition merged (mappings : list file_mapping) : Prop :=
  forall front a b back,
    mappings = front ++ a :: b :: back -> mergeable a b = false.

(** A run of append operations: the arguments of the successive calls. *)
Fixpoint append_all (calls : list (Z * Z * Z * list byte))
    (mappings : list file_mapping) (capacity : Z) (heap : alloc_oracle)
  : list file_mapping :=
  match calls with
  | [] => mappings
  | (s, e, o, p) :: rest =>
      let '(_, mappings', capacity', heap') :=
        append_file_mapping s e o p mappings capacity heap in
      append_all rest mappings' capacity' heap'
  end.

(** None of the next [n] entries at the cursor [p] has length zero. *)
Fixpoint entries_nonempty (n : nat) (rd : list byte -> Z * list byte)
    (p : list byte) : Prop :=
  match n with
  | O => True
  | S n' =>
      let '(s, p1) := rd p in
      let '(e, p2) := rd p1 in
      let '(_, p3) := rd p2 in
      s <> e /\ entries_nonempty n' rd p3
  end.

(** The merge condition as the data model words it: identical paths,
    contiguous addresses and colinear file offsets. *)
Definition merge_condition (a b : file_mapping) : Prop :=
  (exists p q, path a = Some p /\ path b = Some q /\ cstr p = cstr q)
  /\ end_ a = start b
  /\ file_offset a + (end_ a - start a) = file_offset b.

(** Complete lines, each followed by its newline. *)
Definition lines (ls : list (list byte)) : list byte :=
  flat_map (fun l => l ++ [newline]) ls.

(** Every allocation request is granted. *)
Definition all_succeed (heap : alloc_oracle) : Prop := Forall (eq true) heap.

(** The three kinds of note the second pass acts on. *)
Definition is_nt_file_note (nt : note) : bool :=
  note_named nt "CORE" && (n_type nt =? NT_FILE).

Definition is_taskstruct_note (nt : note) : bool :=
  note_named nt "CORE" && (n_type nt =? NT_TASKSTRUCT).

Definition is_vmcoreinfo_note (nt : note) : bool :=
  negb (note_named nt "CORE") && note_named nt "VMCOREINFO".

(** [nt] is a note of a PT_NOTE segment of the file. *)
Definition note_of (e : Elf) (phdrs : list GElf_Phdr) (nt : note) : Prop :=
  exists (j : nat) (p : GElf_Phdr) (notes : list note),
    nth_error phdrs j = Some p /\ p_type p = PT_NOTE
    /\ elf_notes e j = Some notes /\ In nt notes.

(** libelf returns the notes of every PT_NOTE segment. *)
Definition notes_readable (e : Elf) (phdrs : list GElf_Phdr) : Prop :=
  forall (j : nat) (p : GElf_Phdr),
    nth_error phdrs j = Some p -> p_type p = PT_NOTE ->
    exists notes, elf_notes e j = Some notes.

(** The cleanup callbacks that a run calls, in the order of the calls. *)
Definition callbacks_run (events : list event) : list drgn_cleanup :=
  flat_map (fun ev => match ev with ev_cleanup c => [c] | _ => [] end) events.

(** The releases of the resources that the bootstrap registers cleanups
    for: the file descriptor, the array of file segments, the DWARF index
    and the DWARF type cache. *)
Definition releases (events : list event) : list event :=
  filter (fun ev => match ev with
                    | ev_close _ | ev_free _ | ev_dwarf_index_destroy _
                    | ev_dwarf_type_cache_destroy _ => true
                    | _ => false
                    end) events.

(** Registrations in the order of the list. *)
Fixpoint register_all (prog : drgn_program) (cs : list drgn_cleanup)
    (heap : alloc_oracle) : drgn_program :=
  match cs with
  | [] => prog
  | c :: rest =>
      let '(_, prog', heap') :=
        drgn_program_add_cleanup prog (cb c) (arg c) heap in
      register_all prog' rest heap'
  end.

(** *** The mapping table and its parsers *)

(** The error of [append_file_mapping] for an entry that ends before it
    starts. *)
Definition negative_length_error : drgn_error :=
  drgn_error_create DRGN_ERROR_OTHER "file memory mapping has negative length".

(** The calls of [append_file_mapping] that the entries of an NT_FILE
    descriptor stand for: the file offset of an entry counts pages. *)
Definition nt_file_calls (page_size : Z) (entries : list (Z * Z * Z))
    (paths : list string) : list (Z * Z * Z * list byte) :=
  map (fun '((s, e, o), p) => (s, e, wrap64 (o * page_size), bytes p))
    (combine entries paths).

(** A line of /proc/<pid>/maps that leaves no trace in the table: an
    anonymous mapping, or a file mapping of length zero. *)
Definition maps_line_skipped (l : maps_line) : bool :=
  match l with
  | maps_anonymous => true
  | maps_file mapping_start mapping_end _ _ => mapping_start =? mapping_end
  | maps_unparsed => false
  end.

(** A mapping whose range does not wrap. *)
Definition mapping_in_range (m : file_mapping) : Prop :=
  0 <= start m <= end_ m /\ end_ m <= UINT64_MAX /\ 0 <= file_offset m.

(** The path that [open_userspace_files] opens for a mapping. *)
Definition mapping_path (m : file_mapping) : list byte :=
  match path m with
  | Some p => p
  | None => []
  end.

(** What a mapping says about the address space, without its ELF handle. *)
Definition mapping_geometry (m : file_mapping)
  : Z * Z * Z * option (list byte) :=
  (start m, end_ m, file_offset m, path m).

(** *** Sections and notes *)

(** The contents of a section of NUL-terminated strings. *)
Definition nul_separated (entries : list (list byte)) : list byte :=
  flat_map (fun s => s ++ [x00]) entries.

(** The note behind /sys/kernel/vmcoreinfo: the three words of the header,
    the name with its NUL, padded to 12 bytes, and the descriptor. *)
Definition vmcoreinfo_note (type : Z) (desc : list byte) : list byte :=
  le_bytes 4 11 ++ le_bytes 4 (Z.of_nat (List.length desc)) ++ le_bytes 4 type
  ++ c_string "VMCOREINFO" ++ [x00] ++ desc.

(** *** Lines of a VMCOREINFO note *)

(** The line starts with [prefix]. *)
Definition has_prefix (prefix : string) (l : list byte) : bool :=
  bytes_eqb (firstn (List.length (bytes prefix)) l) (bytes prefix).

Definition is_hex_digit (b : byte) : Prop := hex_digit b <> None.

(** The number that a string of hexadecimal digits writes. *)
Definition hex_number (digits : list byte) : Z :=
  fold_left (fun acc b => 16 * acc + match hex_digit b with
                                     | Some d => d
                                     | None => 0
                                     end) digits 0.

(** What follows a number ends it: the string ends there, or goes on with
    a byte that is neither a digit nor the x of a prefix. *)
Definition ends_number (tail : list byte) : Prop :=
  match tail with
  | [] => True
  | b :: _ =>
      hex_digit b = None /\ Byte.eqb b "x"%byte = false
      /\ Byte.eqb b "X"%byte = false
  end.

(** What a complete line of a VMCOREINFO note says: OSRELEASE= and
    KERNELOFFSET= give the two members, any other line gives nothing. *)
Definition vmcoreinfo_line (v : vmcoreinfo) (l : list byte) : vmcoreinfo :=
  if has_prefix "OSRELEASE=" l then
    mk_vmcoreinfo (skipn 10 l) (kaslr_offset v)
  else if has_prefix "KERNELOFFSET=" l then
    mk_vmcoreinfo (osrelease v) (hex_number (skipn 13 l))
  else v.

(** A line as the kernel writes it: a release of less than 64 bytes, an
    offset of hexadecimal digits that fits 64 bits, or another key. *)
Definition well_formed_line (l : list byte) : Prop :=
  ~ In newline l
  /\ (has_prefix "OSRELEASE=" l = true -> (List.length l < 74)%nat)
  /\ (has_prefix "OSRELEASE=" l = false ->
      has_prefix "KERNELOFFSET=" l = true ->
      skipn 13 l <> []
      /\ Forall is_hex_digit (skipn 13 l)
      /\ hex_number (skipn 13 l) <= UINT64_MAX).

(** A VMCOREINFO that fits the program structure. *)
Definition vmcoreinfo_fits (v : vmcoreinfo) : Prop :=
  Z.of_nat (List.length (osrelease v)) < sizeof_osrelease
  /\ is_u64 (kaslr_offset v).

Definition option_fits (v : option vmcoreinfo) : Prop :=
  match v with
  | Some v => vmcoreinfo_fits v
  | None => True
  end.

(** *** Lines of /proc/kallsyms *)

(** A line as the kernel writes it: the address in hexadecimal digits, the
    type, the symbol, and what follows the symbol (the newline, or a tab
    and the module). *)
Record kallsyms_entry : Type := mk_kallsyms_entry {
  ke_digits : list byte;
  ke_type : list byte;
  ke_symbol : list byte;
  ke_rest : list byte
}.

Definition kallsyms_entry_line (e : kallsyms_entry) : list byte :=
  ke_digits e ++ space :: ke_type e ++ space :: ke_symbol e ++ ke_rest e.

Definition well_formed_kallsyms_entry (e : kallsyms_entry) : Prop :=
  (ke_digits e <> [] /\ Forall is_hex_digit (ke_digits e)
   /\ hex_number (ke_digits e) <= UINT64_MAX)
  /\ (ke_type e <> []
      /\ Forall (fun b => is_delim [tab; space] b = false /\ b <> x00)
           (ke_type e))
  /\ (ke_symbol e <> []
      /\ Forall (fun b => is_delim [tab; newline; space] b = false /\ b <> x00)
           (ke_symbol e))
  /\ (~ In x00 (ke_rest e)
      /\ match ke_rest e with
         | [] => True
         | d :: _ => is_delim [tab; newline; space] d = true
         end).

(** *** Files with debugging information *)

(** A candidate of [vmlinux_paths] for a release. *)
Definition vmlinux_path (release : list byte) (format : string * string)
  : list byte :=
  bytes (fst format) ++ cstr release ++ bytes (snd format).

(** What [drgn_dwarf_index_open] answers for a path: it opens the file,
    the file is absent, the file has no debugging information, or the
    error is one of those that [open_userspace_files] passes over. *)
Definition opens (env : bootstrap_env) (p : list byte) : bool :=
  match env_dindex_open env p with
  | inr _ => true
  | inl _ => false
  end.

Definition is_absent (env : bootstrap_env) (p : list byte) : bool :=
  match env_dindex_open env p with
  | inl err => is_enoent err
  | inr _ => false
  end.

Definition lacks_debug (env : bootstrap_env) (p : list byte) : bool :=
  match env_dindex_open env p with
  | inl err => negb (is_enoent err) && is_missing_debug err
  | inr _ => false
  end.

Definition is_passed_over (env : bootstrap_env) (p : list byte) : bool :=
  match env_dindex_open env p with
  | inl err =>
      is_enoent err || drgn_error_code_eqb (code err) DRGN_ERROR_NOT_ELF
      || is_missing_debug err
  | inr _ => false
  end.

(** *** Target memory *)

(** The reader returns the bytes [bs], none of them NUL, for the addresses
    from [addr] on. *)
Definition reads_string (rd : memory_reader) (physical : bool) (addr : Z)
    (bs : list byte) : Prop :=
  Forall (fun b => b <> x00) bs
  /\ forall i : nat, (i < List.length bs)%nat ->
       rd (wrap64 (addr + Z.of_nat i)) physical = inr (nth i bs x00).

(** *** Segments and resources of a bootstrap *)

Definition is_load (phdr : GElf_Phdr) : bool := p_type phdr =? PT_LOAD.

(** The segment that the second pass adds for a PT_LOAD header. *)
Definition segment_of_phdr (fd : Z) (have_non_zero_phys_addr : bool)
    (phdr : GElf_Phdr) : memory_segment :=
  mk_segment (p_vaddr phdr)
    (if have_non_zero_phys_addr then p_paddr phdr else UINT64_MAX)
    (p_memsz phdr) (p_offset phdr) (p_filesz phdr) fd.

(** The file descriptors that a run closes and the ELF handles that it
    ends, in order. *)
Definition files_closed (events : list event) : list Z :=
  flat_map (fun ev => match ev with ev_close fd => [fd] | _ => [] end) events.

Definition elfs_ended (events : list event) : list Z :=
  flat_map (fun ev => match ev with ev_elf_end (Some h) => [h] | _ => [] end)
    events.

(** * Properties *)

(** ** Lists, bytes and C strings *)

Lemma unsnoc_app {A : Type} (l : list A) (x : A) : unsnoc (l ++ [x]) = Some (l, x).
Proof.
  induction l as [|y l IH]; simpl; [reflexivity|].
  now rewrite IH.
Qed.

Lemma unsnoc_Some {A : Type} (l front : list A) (x : A) :
  unsnoc l = Some (front, x) -> l = front ++ [x].
Proof.
  revert front x.
  induction l as [|y l IH]; simpl; intros front x H; [discriminate|].
  destruct (unsnoc l) as [[f z]|] eqn:E.
  - inversion H; subst. simpl. f_equal. now apply IH.
  - inversion H; subst.
    destruct l as [|w l]; [reflexivity|].
    simpl in E. destruct (unsnoc l) as [[? ?]|]; discriminate.
Qed.

Lemma unsnoc_None {A : Type} (l : list A) : unsnoc l = None -> l = [].
Proof.
  destruct l as [|y l]; simpl; [reflexivity|].
  destruct (unsnoc l) as [[? ?]|]; discriminate.
Qed.

Lemma byte_eqb_eq (a b : byte) : Byte.eqb a b = true <-> a = b.
Proof.
  split.
  - apply Byte.byte_dec_bl.
  - intros ->. apply Byte.byte_dec_lb. reflexivity.
Qed.

Lemma byte_eqb_refl (a : byte) : Byte.eqb a a = true.
Proof. now apply byte_eqb_eq. Qed.

Lemma byte_eqb_neq (a b : byte) : Byte.eqb a b = false <-> a <> b.
Proof.
  split.
  - intros H E. apply byte_eqb_eq in E. congruence.
  - intros H. destruct (Byte.eqb a b) eqn:E; [|reflexivity].
    apply byte_eqb_eq in E. contradiction.
Qed.

Lemma bytes_eqb_eq (a b : list byte) : bytes_eqb a b = true <-> a = b.
Proof.
  revert b.
  induction a as [|x a IH]; intros [|y b]; simpl; split; intros H;
    try reflexivity; try discriminate.
  - apply andb_true_iff in H as [H1 H2].
    apply byte_eqb_eq in H1. apply IH in H2. congruence.
  - inversion H; subst. rewrite byte_eqb_refl. simpl. now apply IH.
Qed.

Lemma strcmp_eq_iff (a b : list byte) : strcmp_eq a b = true <-> cstr a = cstr b.
Proof. apply bytes_eqb_eq. Qed.

(** ** Readers and encoders *)

Lemma byte_val_range (b : byte) : 0 <= byte_val b < 256.
Proof.
  unfold byte_val. pose proof (Byte.to_N_bounded b) as H.
  split; [apply N2Z.is_nonneg|].
  apply (proj1 (N2Z.inj_le _ _)) in H. change (Z.of_N 255) with 255 in H. lia.
Qed.

Lemma byte_val_of_Z (z : Z) : byte_val (byte_of_Z z) = z mod 256.
Proof.
  unfold byte_val, byte_of_Z.
  assert (Hr : 0 <= z mod 256 < 256) by (apply Z.mod_pos_bound; lia).
  destruct (Byte.of_N (Z.to_N (z mod 256))) as [b|] eqn:E.
  - apply Byte.to_of_N in E. rewrite E. apply Z2N.id. lia.
  - apply (proj1 (Byte.of_N_None_iff _)) in E.
    apply (proj1 (N2Z.inj_lt _ _)) in E.
    rewrite Z2N.id in E by lia. change (Z.of_N 255) with 255 in E. lia.
Qed.

(** Reading back what [le_bytes] writes. *)
Lemma le_value_le_bytes (width : nat) (z : Z) :
  le_value (le_bytes width z) = z mod 256 ^ Z.of_nat width.
Proof.
  revert z. induction width as [|w IH]; intros z.
  - simpl. now rewrite Z.mod_1_r.
  - cbn [le_bytes le_value]. rewrite byte_val_of_Z, IH.
    rewrite Nat2Z.inj_succ, Z.pow_succ_r by lia.
    rewrite Z.rem_mul_r by lia.
    reflexivity.
Qed.

Lemma read_u64_le_bytes (z : Z) (rest : list byte) :
  is_u64 z -> read_u64 false (le_bytes 8 z ++ rest) = Some (z, rest).
Proof.
  intros Hz. unfold read_u64, read_uint, read_in_bounds, read_uint_nocheck.
  assert (Hf : firstn 8 (le_bytes 8 z ++ rest) = le_bytes 8 z) by reflexivity.
  assert (Hs : skipn 8 (le_bytes 8 z ++ rest) = rest) by reflexivity.
  assert (Hlen : List.length (le_bytes 8 z ++ rest)
                 = (8 + List.length rest)%nat) by reflexivity.
  rewrite Hf, Hs, Hlen, le_value_le_bytes.
  replace (Z.of_nat 8 <=? Z.of_nat (8 + List.length rest)) with true
    by (symmetry; apply Z.leb_le; lia).
  f_equal. f_equal. apply Z.mod_small.
  unfold is_u64, UINT64_MAX in Hz. simpl. lia.
Qed.

(** ** Appending to the mapping table *)

Ltac unfold_append :=
  unfold append_file_mapping;
  repeat match goal with
         | |- context [if ?c then _ else _] => destruct c eqn:?
         | |- context [match unsnoc ?l with _ => _ end] => destruct (unsnoc l) as [[? ?]|] eqn:?
         | |- context [let (_, _) := alloc ?h in _] => destruct (alloc h) as [? ?] eqn:?
         end.

Lemma merged_nil : merged [].
Proof. intros [|? ?] a b back H; discriminate. Qed.

Lemma merged_single (m : file_mapping) : merged [m].
Proof.
  intros [|x [|y front]] a b back H; simpl in H; inversion H.
Qed.

Lemma snoc_eq_split {A : Type} (l front back : list A) (x a b : A) :
  l ++ [x] = front ++ a :: b :: back ->
  (back = [] /\ x = b /\ l = front ++ [a])
  \/ (exists back', back = back' ++ [x] /\ l = front ++ a :: b :: back').
Proof.
  intros H.
  destruct (exists_last (l := a :: b :: back)) as [mid [z Hz]]; [discriminate|].
  destruct back as [|c back].
  - left.
    assert (E : l ++ [x] = (front ++ [a]) ++ [b])
      by (rewrite H, <- app_assoc; reflexivity).
    apply app_inj_tail in E as [-> ->]. auto.
  - right.
    destruct (exists_last (l := c :: back)) as [back' [z' Hz']]; [discriminate|].
    exists back'. rewrite Hz' in H |- *.
    assert (E : l ++ [x] = (front ++ a :: b :: back') ++ [z'])
      by (rewrite H, <- app_assoc; reflexivity).
    apply app_inj_tail in E as [-> ->]. auto.
Qed.

Lemma merged_snoc (l : list file_mapping) (m x : file_mapping) :
  merged (l ++ [m]) -> mergeable m x = false -> merged ((l ++ [m]) ++ [x]).
Proof.
  intros Hl Hm front a b back H.
  apply snoc_eq_split in H as [(-> & Hb & E) | (back' & -> & E)].
  - apply app_inj_tail in E as [_ ->]. rewrite <- Hb. exact Hm.
  - eapply Hl; eauto.
Qed.

Lemma mergeable_set_end (a b : file_mapping) (e : Z) :
  mergeable a (set_end b e) = mergeable a b.
Proof. reflexivity. Qed.

Lemma merged_set_end (l : list file_mapping) (m : file_mapping) (e : Z) :
  merged (l ++ [m]) -> merged (l ++ [set_end m e]).
Proof.
  intros Hl front a b back H.
  apply snoc_eq_split in H as [(-> & Hb & E) | (back' & -> & E)].
  - rewrite <- Hb, mergeable_set_end. apply (Hl front a m []).
    rewrite E, <- app_assoc. reflexivity.
  - apply (Hl front a b (back' ++ [m])).
    rewrite E, <- app_assoc. reflexivity.
Qed.

(** [append_file_mapping] keeps the table merged, whatever it is given and
    whatever the allocator answers. *)
Lemma append_file_mapping_merged
    (start' end' file_offset' : Z) (path' : list byte)
    (mappings : list file_mapping) (capacity : Z) (heap : alloc_oracle) :
  merged mappings ->
  merged (snd (fst (fst (append_file_mapping start' end' file_offset' path'
                           mappings capacity heap)))).
Proof.
  intros Hm.
  unfold_append; simpl; auto;
    try (apply unsnoc_Some in Heqo; subst mappings;
         first [ now apply merged_set_end
               | apply merged_snoc; [assumption|];
                 unfold mergeable; simpl; assumption ]);
    try (apply unsnoc_None in Heqo; subst mappings; apply merged_single).
Qed.

Lemma append_all_merged (calls : list (Z * Z * Z * list byte))
    (capacity : Z) (heap : alloc_oracle) :
  merged (append_all calls [] capacity heap).
Proof.
  generalize (@nil file_mapping) merged_nil.
  revert capacity heap.
  induction calls as [|[[[s e] o] p] rest IH]; intros capacity heap l Hl;
    simpl; [assumption|].
  pose proof (append_file_mapping_merged s e o p l capacity heap Hl) as H.
  destruct (append_file_mapping s e o p l capacity heap) as [[[r l'] c'] h'].
  apply IH. exact H.
Qed.

Lemma wrap64_small (z : Z) : is_u64 z -> wrap64 z = z.
Proof.
  unfold is_u64, wrap64, UINT64_MAX. intros H.
  apply Z.mod_small. lia.
Qed.

(** On entries of the table, the merge condition is the test of the code. *)
Lemma merge_condition_mergeable (a b : file_mapping) :
  is_u64 (end_ a - start a) -> is_u64 (file_offset b) ->
  merge_condition a b -> mergeable a b = true.
Proof.
  intros Hlen Hoff [(p & q & Hp & Hq & Hpq) [Hend Hcol]].
  unfold mergeable, merges_into. rewrite Hq, Hp.
  rewrite (wrap64_small _ Hlen), Hcol, (wrap64_small _ Hoff).
  rewrite Hend, !Z.eqb_refl. simpl.
  now apply strcmp_eq_iff.
Qed.

(** The scenario of the specification: two contiguous, colinear entries of
    one file come out as one mapping. *)
Example nt_file_scenario_merges :
  parse_nt_file
    (nt_file_desc64 0x1000
       [(0x400000, 0x401000, 0); (0x401000, 0x402000, 1)]
       ["/bin/x"; "/bin/x"])
    true [] 0 []
  = (Ok, [mk_mapping 0x400000 0x402000 0 (Some (bytes "/bin/x")) None], 1, []).
Proof. vm_compute. reflexivity. Qed.

(** C1 (code defect).  The table that [parse_nt_file] builds is not always
    merged: an entry of length zero makes the parser store that entry's path
    into the last mapping, and the last two mappings of the table then have
    the same path, contiguous addresses and colinear file offsets without
    having been merged.  Here the entries are /a at [0x1000, 0x2000), /b at
    [0x2000, 0x3000) with file offset one page, and /a of length zero. *)
Theorem nt_file_zero_length_entry_leaves_unmerged_neighbours :
  exists a b,
    parse_nt_file
      (nt_file_desc64 0x1000
         [(0x1000, 0x2000, 0); (0x2000, 0x3000, 1); (0x5000, 0x5000, 0)]
         ["/a"; "/b"; "/a"])
      true [] 0 []
    = (Ok, [a; b], 2, [])
    /\ merge_condition a b
    /\ mergeable a b = true.
Proof.
  exists (mk_mapping 0x1000 0x2000 0 (Some (bytes "/a")) None),
         (mk_mapping 0x2000 0x3000 0x1000 (Some (bytes "/a")) None).
  split; [vm_compute; reflexivity|].
  split; [|vm_compute; reflexivity].
  split; [|split; reflexivity].
  exists (bytes "/a"), (bytes "/a"). auto.
Qed.

(** ** Entries of length zero *)

(** [append_file_mapping] itself drops an entry of length zero: it returns
    NULL and changes nothing. *)
Lemma append_file_mapping_zero_length
    (start' file_offset' : Z) (path' : list byte)
    (mappings : list file_mapping) (capacity : Z) (heap : alloc_oracle) :
  append_file_mapping start' start' file_offset' path' mappings capacity heap
  = (None, mappings, capacity, heap).
Proof.
  unfold append_file_mapping.
  rewrite Z.ltb_irrefl, Z.eqb_refl. reflexivity.
Qed.

(** One iteration of the loop of [parse_nt_file] on an entry of length
    zero, for any table that is not empty: the entry is not added, the loop
    goes on, and the path of the last mapping has been replaced by the path
    of the entry. *)
Lemma parse_nt_file_entries_zero_length
    (n : nat) (is_64_bit bswap : bool) (page_size : Z) (p q q' : list byte)
    (front : list file_mapping) (last_mapping : file_mapping)
    (capacity len : Z) (heap heap' : alloc_oracle) (entry_path : list byte) :
  let rd := if is_64_bit then read_u64_nocheck bswap
            else read_u32_into_u64_nocheck bswap in
  fst (rd p) = fst (rd (snd (rd p))) ->
  read_string q = Some (entry_path, len, q') ->
  alloc heap = (true, heap') ->
  parse_nt_file_entries (S n) is_64_bit bswap page_size p q
    (front ++ [last_mapping]) capacity heap
  = parse_nt_file_entries n is_64_bit bswap page_size
      (snd (rd (snd (rd (snd (rd p)))))) q'
      (front ++ [set_path last_mapping (Some entry_path)]) capacity heap'.
Proof.
  intros rd Hse Hq Ha. simpl. fold rd.
  destruct (rd p) as [s p1] eqn:E1. simpl in Hse |- *.
  destruct (rd p1) as [e p2] eqn:E2. simpl in Hse |- *.
  destruct (rd p2) as [o p3] eqn:E3. simpl.
  rewrite Hq. subst e.
  rewrite append_file_mapping_zero_length, unsnoc_app, Ha.
  reflexivity.
Qed.

(** When [append_file_mapping] returns NULL for an entry that is not empty,
    the entry is the new last mapping of the table. *)
Lemma append_file_mapping_appended
    (start' end' file_offset' : Z) (path' : list byte)
    (mappings mappings' : list file_mapping) (capacity capacity' : Z)
    (heap heap' : alloc_oracle) :
  start' <> end' ->
  append_file_mapping start' end' file_offset' path' mappings capacity heap
  = (None, mappings', capacity', heap') ->
  mappings'
  = mappings ++ [mk_mapping start' end' file_offset' (Some path') None].
Proof.
  intros Hne. apply Z.eqb_neq in Hne.
  unfold append_file_mapping. rewrite Hne.
  repeat match goal with
         | |- context [if ?c then _ else _] => destruct c
         | |- context [match unsnoc ?l with _ => _ end] =>
             destruct (unsnoc l) as [[? ?]|]
         | |- context [let (_, _) := alloc ?h in _] =>
             destruct (alloc h) as [[|] ?]
         end;
    intros H; inversion H; reflexivity.
Qed.

(** Without entries of length zero, the loop of [parse_nt_file] keeps the
    table merged: the defect needs such an entry. *)
Lemma parse_nt_file_entries_merged (is_64_bit bswap : bool) (page_size : Z)
    (n : nat) :
  forall (p q : list byte) (mappings : list file_mapping) (capacity : Z)
         (heap : alloc_oracle),
    entries_nonempty n (if is_64_bit then read_u64_nocheck bswap
                        else read_u32_into_u64_nocheck bswap) p ->
    merged mappings ->
    merged (snd (fst (fst (parse_nt_file_entries n is_64_bit bswap page_size
                             p q mappings capacity heap)))).
Proof.
  induction n as [|n IH]; intros p q mappings capacity heap Hne Hm;
    [exact Hm|].
  cbn [parse_nt_file_entries entries_nonempty] in *.
  set (rd := if is_64_bit then read_u64_nocheck bswap
             else read_u32_into_u64_nocheck bswap) in *.
  destruct (rd p) as [s p1]. destruct (rd p1) as [e p2].
  destruct (rd p2) as [o p3]. destruct Hne as [Hse Hrest].
  destruct (read_string q) as [[[path' len] q']|]; [|exact Hm].
  pose proof (append_file_mapping_merged s e (wrap64 (o * page_size)) path'
                mappings capacity heap Hm) as Hm1.
  destruct (append_file_mapping s e (wrap64 (o * page_size)) path' mappings
              capacity heap) as [[[r mappings1] capacity1] heap1] eqn:Ea.
  simpl in Hm1.
  destruct r as [err|].
  - destruct (drgn_error_code_eqb (code err) DRGN_ERROR_STOP);
      [now apply IH|exact Hm1].
  - apply (append_file_mapping_appended _ _ _ _ _ _ _ _ _ _ Hse) in Ea.
    subst mappings1. rewrite unsnoc_app.
    destruct (alloc heap1) as [[|] heap2].
    + apply IH; [exact Hrest|exact Hm1].
    + simpl. intros front a b back H.
      apply snoc_eq_split in H as [(-> & Hb & E) | (back' & -> & E)].
      * rewrite <- Hb. reflexivity.
      * apply (Hm front a b back'). exact E.
Qed.

(** C5 (code defect).  [parse_nt_file] does not leave the table unchanged
    when it meets an entry of length zero.  With the table holding /a at
    [0x1000, 0x2000), the entry /b at [0x3000, 0x3000) is not added, the
    parser returns NULL, and the path of the existing mapping has become /b;
    with an empty table the parser stores outside the array. *)
Theorem nt_file_zero_length_entry_overwrites_last_path :
  parse_nt_file (nt_file_desc64 0x1000 [(0x3000, 0x3000, 0)] ["/b"]) true
    [mk_mapping 0x1000 0x2000 0 (Some (bytes "/a")) None] 1 []
  = (Ok, [mk_mapping 0x1000 0x2000 0 (Some (bytes "/b")) None], 1, [])
  /\ parse_nt_file (nt_file_desc64 0x1000 [(0x3000, 0x3000, 0)] ["/b"]) true
       [] 0 []
     = (OutOfBoundsStore, [], 0, []).
Proof. split; vm_compute; reflexivity. Qed.

(** ** Entries of negative length *)

(** C6 (counterexample).  The error for an entry whose start is above its
    end does not have the code ELF_FORMAT. *)
Lemma append_file_mapping_negative_length_not_elf_format :
  ~ (exists err,
       fst (fst (fst (append_file_mapping 0x2000 0x1000 0 (bytes "/bin/x")
                        [] 0 []))) = Some err
       /\ code err = DRGN_ERROR_ELF_FORMAT).
Proof.
  intros [err [H Hc]]. vm_compute in H. inversion H; subst. discriminate.
Qed.

(** C6 (amended).  For every entry whose start is strictly above its end,
    [append_file_mapping] fails with an error of code OTHER, and the table,
    its capacity and the allocator are as they were. *)
Theorem append_file_mapping_negative_length
    (start' end' file_offset' : Z) (path' : list byte)
    (mappings : list file_mapping) (capacity : Z) (heap : alloc_oracle) :
  end' < start' ->
  exists err,
    append_file_mapping start' end' file_offset' path' mappings capacity heap
    = (Some err, mappings, capacity, heap)
    /\ code err = DRGN_ERROR_OTHER
    /\ message err = "file memory mapping has negative length".
Proof.
  intros H. unfold append_file_mapping.
  apply Z.ltb_lt in H. rewrite H.
  eexists. split; [reflexivity|]. split; reflexivity.
Qed.

Lemma append_file_mapping_negative_length_witness :
  0x1000 < 0x2000
  /\ exists err,
       append_file_mapping 0x2000 0x1000 0 (bytes "/bin/x") [] 0 []
       = (Some err, [], 0, [])
       /\ code err = DRGN_ERROR_OTHER
       /\ message err = "file memory mapping has negative length".
Proof.
  split; [lia|].
  apply (append_file_mapping_negative_length 0x2000 0x1000 0 (bytes "/bin/x")
           [] 0 []).
  lia.
Defined.

(** ** Relocation in user space *)

Lemma find_load_segment_find (phdrs : list GElf_Phdr) (addr : Z) :
  find_load_segment (map Some phdrs) addr
  = inr (option_map (fun p => segment_file_offset p addr)
           (find (fun p => segment_contains p addr) phdrs)).
Proof.
  induction phdrs as [|p phdrs IH]; simpl; [reflexivity|].
  destruct (segment_contains p addr); [reflexivity|exact IH].
Qed.

Lemma find_file_mapping_find (mappings : list file_mapping) (e : Elf) (fo : Z) :
  find_file_mapping mappings e fo
  = option_map (fun m => relocated_address m fo)
      (find (fun m => mapping_contains m e fo) mappings).
Proof.
  induction mappings as [|m mappings IH]; simpl; [reflexivity|].
  destruct (mapping_contains m e fo); [reflexivity|exact IH].
Qed.

Lemma wrap64_idemp_sub (a b : Z) : wrap64 (wrap64 a - b) = wrap64 (a - b).
Proof. unfold wrap64. apply Zminus_mod_idemp_l. Qed.

Lemma relocated_address_formula (m : file_mapping) (fo : Z) :
  relocated_address m fo = wrap64 (start m + fo - file_offset m).
Proof. unfold relocated_address. apply wrap64_idemp_sub. Qed.

Lemma segment_file_offset_formula (p : GElf_Phdr) (addr : Z) :
  segment_file_offset p addr = wrap64 (p_offset p + addr - p_vaddr p).
Proof. unfold segment_file_offset. apply wrap64_idemp_sub. Qed.

(** The scenario of the specification. *)
Example userspace_relocation_scenario :
  let e := mk_elf 7 (Some (3, true))
             (Some [Some (mk_phdr PT_LOAD 0 0x1000 0 0x3000 0x3000 0x1000)])
             true [] (fun _ => None) in
  let prog := mk_program 0 0 0 [] 0 (mk_vmcoreinfo [] 0)
                [mk_mapping 0x7f0000 0x7f3000 0
                   (Some (bytes "/lib/libfoo.so")) (Some 7)] in
  let sym := mk_symbol 0 false true 0x2100 0 0 in
  userspace_relocation_hook prog "foo" e sym = (None, set_address sym 0x7f1100).
Proof. vm_compute. reflexivity. Qed.

(** C2 (counterexample).  Two mappings of one file, the text at file
    offsets [0, 0x3000) and the data at [0x2000, 0x4000), both contain the
    file offset 0x2100 of the symbol.  The second mapping satisfies what the
    claim asks of a mapping, and the relocated address is 0x7f2100, taken
    from the first mapping, not the 0x7f4100 of the claim's formula. *)
Lemma userspace_relocation_second_mapping_counterexample :
  let p := mk_phdr PT_LOAD 0 0x1000 0 0x4000 0x4000 0x1000 in
  let e := mk_elf 7 (Some (3, true)) (Some [Some p]) true [] (fun _ => None) in
  let m1 := mk_mapping 0x7f0000 0x7f3000 0
              (Some (bytes "/lib/libfoo.so")) (Some 7) in
  let m2 := mk_mapping 0x7f4000 0x7f6000 0x2000
              (Some (bytes "/lib/libfoo.so")) (Some 7) in
  let prog := mk_program 0 0 0 [] 0 (mk_vmcoreinfo [] 0) [m1; m2] in
  let sym := mk_symbol 0 false true 0x3100 0 0 in
  let fo := p_offset p + address sym - p_vaddr p in
  (p_type p = PT_LOAD
   /\ p_vaddr p <= address sym < p_vaddr p + p_memsz p)
  /\ (In m2 (prog_mappings prog)
      /\ elf m2 = Some (elf_handle e)
      /\ file_offset m2 <= fo < file_offset m2 + (end_ m2 - start m2))
  /\ userspace_relocation_hook prog "foo" e sym
     = (None, set_address sym 0x7f2100)
  /\ start m2 + fo - file_offset m2 = 0x7f4100.
Proof.
  cbv zeta. repeat split; try (vm_compute; congruence).
  right; left; reflexivity.
Qed.

(** C2 (amended).  When libelf returns every program header, the hook
    takes the first PT_LOAD segment [p] that contains the address of the
    symbol and the first mapping [m] of the table that belongs to the ELF
    file and contains the file offset [p_offset + address - p_vaddr]: the
    relocated address is [m.start + file offset - m.file_offset], in 64-bit
    arithmetic, and nothing else of the symbol changes.  Without such a
    segment, or without such a mapping, the hook fails with a LOOKUP error
    and leaves the symbol as it is. *)
Theorem userspace_relocation_hook_first_match
    (prog : drgn_program) (name : string) (e : Elf) (sym : drgn_symbol)
    (phdrs : list GElf_Phdr) :
  elf_phdrs e = Some (map Some phdrs) ->
  match find (fun p => segment_contains p (address sym)) phdrs with
  | Some p =>
      let fo := wrap64 (p_offset p + address sym - p_vaddr p) in
      match find (fun m => mapping_contains m e fo) (prog_mappings prog) with
      | Some m =>
          userspace_relocation_hook prog name e sym
          = (None, set_address sym (wrap64 (start m + fo - file_offset m)))
      | None =>
          exists err,
            userspace_relocation_hook prog name e sym = (Some err, sym)
            /\ code err = DRGN_ERROR_LOOKUP
      end
  | None =>
      exists err,
        userspace_relocation_hook prog name e sym = (Some err, sym)
        /\ code err = DRGN_ERROR_LOOKUP
  end.
Proof.
  intros Hph. unfold userspace_relocation_hook.
  rewrite Hph, find_load_segment_find.
  destruct (find _ phdrs) as [p|]; simpl.
  - rewrite find_file_mapping_find, <- segment_file_offset_formula.
    destruct (find _ (prog_mappings prog)) as [m|]; simpl.
    + now rewrite relocated_address_formula.
    + eexists. split; reflexivity.
  - eexists. split; reflexivity.
Qed.

Lemma userspace_relocation_hook_first_match_witness :
  let p := mk_phdr PT_LOAD 0 0x1000 0 0x3000 0x3000 0x1000 in
  let e := mk_elf 7 (Some (3, true)) (Some [Some p]) true [] (fun _ => None) in
  let m := mk_mapping 0x7f0000 0x7f3000 0
             (Some (bytes "/lib/libfoo.so")) (Some 7) in
  let prog := mk_program 0 0 0 [] 0 (mk_vmcoreinfo [] 0) [m] in
  let sym := mk_symbol 0 false true 0x2100 0 0 in
  elf_phdrs e = Some (map Some [p])
  /\ userspace_relocation_hook prog "foo" e sym
     = (None, set_address sym 0x7f1100).
Proof.
  cbv zeta. split; [reflexivity|].
  exact (userspace_relocation_hook_first_match
           (mk_program 0 0 0 [] 0 (mk_vmcoreinfo [] 0)
              [mk_mapping 0x7f0000 0x7f3000 0
                 (Some (bytes "/lib/libfoo.so")) (Some 7)])
           "foo"
           (mk_elf 7 (Some (3, true))
              (Some [Some (mk_phdr PT_LOAD 0 0x1000 0 0x3000 0x3000 0x1000)])
              true [] (fun _ => None))
           (mk_symbol 0 false true 0x2100 0 0)
           [mk_phdr PT_LOAD 0 0x1000 0 0x3000 0x3000 0x1000]
           eq_refl).
Defined.

(** Inside a mapping that does not wrap, the relocated address is the sum
    of the claim in the integers, and it lies in the mapping. *)
Lemma relocated_address_exact (m : file_mapping) (e : Elf) (fo : Z) :
  0 <= start m <= end_ m -> end_ m <= UINT64_MAX ->
  0 <= file_offset m ->
  mapping_contains m e fo = true ->
  relocated_address m fo = start m + fo - file_offset m
  /\ start m <= relocated_address m fo < end_ m.
Proof.
  intros Hs He Ho Hc. unfold mapping_contains in Hc.
  apply andb_true_iff in Hc as [Hc Hhi]. apply andb_true_iff in Hc as [_ Hlo].
  apply Z.leb_le in Hlo. apply Z.ltb_lt in Hhi.
  rewrite (wrap64_small (end_ m - start m)) in Hhi
    by (unfold is_u64; lia).
  assert (Hw : wrap64 (file_offset m + (end_ m - start m))
               <= file_offset m + (end_ m - start m)).
  { unfold wrap64. apply Z.mod_le; unfold UINT64_MAX in *; lia. }
  rewrite relocated_address_formula, wrap64_small by (unfold is_u64; lia).
  lia.
Qed.

(** ** Relocation in the kernel *)

(** C8.  For a symbol of vmlinux (an ELF file of type ET_EXEC), the kernel
    hook succeeds, the address of the symbol becomes its DWARF address plus
    the KASLR offset of the program, as [uint64_t] values, and no other
    member of the symbol changes. *)
Theorem kernel_relocation_hook_vmlinux
    (prog : drgn_program) (kernel : kernel_target) (name : string) (e : Elf)
    (sym : drgn_symbol) (is_64_bit : bool) :
  elf_ehdr e = Some (ET_EXEC, is_64_bit) ->
  let result := kernel_relocation_hook prog kernel name e sym in
  let sym' := snd result in
  fst result = None
  /\ address sym' = wrap64 (address sym + kaslr_offset (prog_vmcoreinfo prog))
  /\ (0 <= address sym + kaslr_offset (prog_vmcoreinfo prog) <= UINT64_MAX ->
      address sym' = address sym + kaslr_offset (prog_vmcoreinfo prog))
  /\ qualified_type sym' = qualified_type sym
  /\ is_enumerator sym' = is_enumerator sym
  /\ little_endian sym' = little_endian sym
  /\ svalue sym' = svalue sym
  /\ uvalue sym' = uvalue sym.
Proof.
  intros He. unfold kernel_relocation_hook. rewrite He. simpl.
  repeat split.
  intros Hr. now apply wrap64_small.
Qed.

Lemma kernel_relocation_hook_vmlinux_witness :
  let e := mk_elf 9 (Some (ET_EXEC, true)) None true [] (fun _ => None) in
  let prog := mk_program 0 0 0 [] DRGN_PROGRAM_IS_LINUX_KERNEL
                (mk_vmcoreinfo (bytes "5.4.0-test") 0x12000000) [] in
  let sym := mk_symbol 5 false true 0xffffffff81000000 0 0 in
  elf_ehdr e = Some (ET_EXEC, true)
  /\ fst (kernel_relocation_hook prog (inr []) "_stext" e sym) = None
  /\ address (snd (kernel_relocation_hook prog (inr []) "_stext" e sym))
     = 0xffffffff93000000.
Proof.
  cbv zeta. split; [reflexivity|].
  pose proof (kernel_relocation_hook_vmlinux
                (mk_program 0 0 0 [] DRGN_PROGRAM_IS_LINUX_KERNEL
                   (mk_vmcoreinfo (bytes "5.4.0-test") 0x12000000) [])
                (inr []) "_stext"
                (mk_elf 9 (Some (ET_EXEC, true)) None true [] (fun _ => None))
                (mk_symbol 5 false true 0xffffffff81000000 0 0) true eq_refl)
    as [H1 [H2 _]].
  split; [exact H1|exact H2].
Defined.

(** ** VMCOREINFO *)

Lemma memchr_length (c : byte) (p before rest : list byte) :
  memchr c p = Some (before, rest) ->
  (List.length rest < List.length p)%nat.
Proof.
  revert before rest.
  induction p as [|b p IH]; simpl; intros before rest H; [discriminate|].
  destruct (Byte.eqb b c).
  - inversion H; subst. lia.
  - destruct (memchr c p) as [[b' r']|]; [|discriminate].
    inversion H; subst. specialize (IH _ _ eq_refl). lia.
Qed.

Lemma memchr_app (c : byte) (l rest : list byte) :
  ~ In c l -> memchr c (l ++ c :: rest) = Some (l, rest).
Proof.
  induction l as [|b l IH]; simpl; intros H.
  - now rewrite byte_eqb_refl.
  - destruct (Byte.eqb b c) eqn:E.
    + apply byte_eqb_eq in E. subst. tauto.
    + rewrite IH by tauto. reflexivity.
Qed.

(** The fuel of the loop is enough: above the length of what is left to
    read, the result does not depend on it. *)
Lemma parse_vmcoreinfo_lines_fuel (f1 f2 : nat) (line : list byte)
    (ret : vmcoreinfo) :
  (List.length line < f1)%nat -> (List.length line < f2)%nat ->
  parse_vmcoreinfo_lines f1 line ret = parse_vmcoreinfo_lines f2 line ret.
Proof.
  revert f2 line ret.
  induction f1 as [|f1 IH]; intros f2 line ret H1 H2; [lia|].
  destruct f2 as [|f2]; [lia|].
  simpl.
  destruct (memchr newline line) as [[before next_line]|] eqn:E; [|reflexivity].
  apply memchr_length in E.
  assert (Hn1 : (List.length next_line < f1)%nat) by lia.
  assert (Hn2 : (List.length next_line < f2)%nat) by lia.
  repeat match goal with
         | |- context [match ?x with _ => _ end] =>
             lazymatch x with
             | parse_vmcoreinfo_lines _ _ _ => fail
             | _ => destruct x eqn:?
             end
         end;
    try reflexivity; now apply IH.
Qed.

Lemma lines_length (ls : list (list byte)) :
  (List.length ls <= List.length (lines ls))%nat.
Proof.
  induction ls as [|l ls IH]; simpl; [lia|].
  rewrite !length_app. simpl. lia.
Qed.

(** Over complete lines the loop either fails, with OVERFLOW or, at an
    OSRELEASE of 64 bytes or more, with OTHER, or it reaches what follows
    them. *)
Lemma parse_vmcoreinfo_lines_prefix (ls : list (list byte)) :
  forall (fuel : nat) (rest : list byte) (ret : vmcoreinfo),
    (forall l, In l ls -> ~ In newline l) ->
    (List.length ls <= fuel)%nat ->
    (exists err,
        parse_vmcoreinfo_lines fuel (lines ls ++ rest) ret = inl err
        /\ (code err = DRGN_ERROR_OVERFLOW
            \/ exists l, In l ls /\ (74 <= List.length l)%nat))
    \/ (exists ret',
           parse_vmcoreinfo_lines fuel (lines ls ++ rest) ret
           = parse_vmcoreinfo_lines (fuel - List.length ls) rest ret').
Proof.
  induction ls as [|l ls IH]; intros fuel rest ret Hnl Hfuel.
  - right. exists ret. simpl. now rewrite Nat.sub_0_r.
  - destruct fuel as [|fuel]; [simpl in Hfuel; lia|].
    assert (Hl : ~ In newline l) by (apply Hnl; now left).
    assert (Hls : forall l', In l' ls -> ~ In newline l')
      by (intros l' Hin; apply Hnl; now right).
    assert (Hf : (List.length ls <= fuel)%nat) by (simpl in Hfuel; lia).
    assert (IH' : forall ret0,
               (exists err,
                   parse_vmcoreinfo_lines fuel (lines ls ++ rest) ret0 = inl err
                   /\ (code err = DRGN_ERROR_OVERFLOW
                       \/ exists l0, In l0 (l :: ls)
                                     /\ (74 <= List.length l0)%nat))
               \/ (exists ret',
                      parse_vmcoreinfo_lines fuel (lines ls ++ rest) ret0
                      = parse_vmcoreinfo_lines (S fuel - List.length (l :: ls))
                          rest ret')).
    { intros ret0.
      destruct (IH fuel rest ret0 Hls Hf) as [(err & He & Hc)|(ret' & He)].
      - left. exists err. split; [exact He|].
        destruct Hc as [Hc|(l0 & Hin & Hlen)]; [now left|].
        right. exists l0. split; [now right|exact Hlen].
      - right. exists ret'. exact He. }
    change (lines (l :: ls)) with ((l ++ [newline]) ++ lines ls).
    rewrite <- !app_assoc. simpl app.
    cbn [parse_vmcoreinfo_lines].
    rewrite (memchr_app newline l (lines ls ++ rest) Hl).
    destruct (linematch _ "OSRELEASE=") as [value|].
    + destruct (sizeof_osrelease <=? _) eqn:Hsz.
      * left. eexists. split; [reflexivity|].
        right. exists l. split; [now left|].
        apply Z.leb_le in Hsz. unfold sizeof_osrelease in Hsz. lia.
      * apply IH'.
    + destruct (linematch _ "KERNELOFFSET=") as [value|].
      * destruct (ull_erange _).
        { left. eexists. split; [reflexivity|]. now left. }
        destruct (_ || _).
        { left. eexists. split; [reflexivity|]. now left. }
        apply IH'.
      * apply IH'.
Qed.
Lemma parse_vmcoreinfo_lines_bad_kerneloffset
    (fuel : nat) (value post : list byte) (ret : vmcoreinfo) :
  ~ In newline value ->
  (let r := strtoull16 (value ++ newline :: post) in
   ull_erange r = true \/ ull_consumed r = 0%nat
   \/ ull_consumed r <> List.length value) ->
  exists err,
    parse_vmcoreinfo_lines (S fuel)
      (bytes "KERNELOFFSET=" ++ value ++ newline :: post) ret = inl err
    /\ code err = DRGN_ERROR_OVERFLOW.
Proof.
  intros Hv Hbad.
  cbn [parse_vmcoreinfo_lines].
  assert (Hm : memchr newline (bytes "KERNELOFFSET=" ++ value ++ newline :: post)
               = Some (bytes "KERNELOFFSET=" ++ value, post)).
  { rewrite app_assoc. apply memchr_app.
    intros Hin. apply in_app_or in Hin as [Hin|Hin]; [|tauto].
    vm_compute in Hin. intuition discriminate. }
  rewrite Hm.
  set (tail := value ++ newline :: post) in *.
  assert (H1 : linematch (bytes "KERNELOFFSET=" ++ tail) "OSRELEASE=" = None)
    by reflexivity.
  assert (H2 : linematch (bytes "KERNELOFFSET=" ++ tail) "KERNELOFFSET="
               = Some tail) by reflexivity.
  rewrite H1, H2.
  replace (List.length (bytes "KERNELOFFSET=" ++ value) - 13)%nat
    with (List.length value)
    by (rewrite length_app; change (List.length (bytes "KERNELOFFSET=")) with 13%nat; lia).
  cbv zeta in Hbad.
  destruct (ull_erange (strtoull16 tail)) eqn:Er.
  - eexists. split; reflexivity.
  - destruct Hbad as [Hb|[Hb|Hb]]; [discriminate| |].
    + rewrite Hb. simpl. eexists. split; reflexivity.
    + apply Nat.eqb_neq in Hb. rewrite Hb, orb_true_r.
      eexists. split; reflexivity.
Qed.

(** C3 (counterexample).  A descriptor with the line
    KERNELOFFSET=FFFFFFFFFFFFFFFF is parsed without error: sixteen F are
    2^64 - 1, the largest value of an unsigned long long, which [strtoull]
    converts without ERANGE. *)
Lemma vmcoreinfo_kerneloffset_all_ones_is_accepted :
  parse_vmcoreinfo
    (lines [bytes "OSRELEASE=5.4.0-test"; bytes "KERNELOFFSET=FFFFFFFFFFFFFFFF"])
  = inr (mk_vmcoreinfo (bytes "5.4.0-test") UINT64_MAX).
Proof. vm_compute. reflexivity. Qed.

(** C3 (amended).  In a descriptor made of complete lines followed by a
    line KERNELOFFSET=value, [parse_vmcoreinfo] fails whenever [strtoull],
    in base 16, reports an overflow (a value of 2^64 or more, such as
    10000000000000000), converts nothing, or stops before the newline.  The
    error has the code OVERFLOW unless an earlier OSRELEASE line of 64 bytes
    or more has already failed the parse, which no line shorter than 74
    bytes can do. *)
Theorem parse_vmcoreinfo_rejects_bad_kerneloffset
    (ls : list (list byte)) (value post : list byte) :
  (forall l, In l ls -> ~ In newline l) ->
  ~ In newline value ->
  (let r := strtoull16 (value ++ newline :: post) in
   ull_erange r = true \/ ull_consumed r = 0%nat
   \/ ull_consumed r <> List.length value) ->
  exists err,
    parse_vmcoreinfo
      (lines ls ++ bytes "KERNELOFFSET=" ++ value ++ newline :: post)
    = inl err
    /\ ((forall l, In l ls -> (List.length l < 74)%nat) ->
        code err = DRGN_ERROR_OVERFLOW).
Proof.
  intros Hls Hv Hbad. unfold parse_vmcoreinfo.
  set (rest := bytes "KERNELOFFSET=" ++ value ++ newline :: post).
  set (fuel := S (List.length (lines ls ++ rest))).
  assert (Hfuel : (List.length ls < fuel)%nat).
  { unfold fuel. rewrite length_app. pose proof (lines_length ls). lia. }
  destruct (parse_vmcoreinfo_lines_prefix ls fuel rest (mk_vmcoreinfo [] 0) Hls)
    as [(err & He & Hc)|(ret' & He)]; [lia| |].
  - rewrite He. exists err. split; [reflexivity|].
    intros Hshort. destruct Hc as [Hc|(l & Hin & Hlen)]; [exact Hc|].
    specialize (Hshort l Hin). lia.
  - rewrite He.
    destruct (fuel - List.length ls)%nat as [|fuel'] eqn:Ef; [lia|].
    destruct (parse_vmcoreinfo_lines_bad_kerneloffset fuel' value post ret'
                Hv Hbad) as (err & Hr & Hcode).
    fold rest in Hr. rewrite Hr. exists err. split; [reflexivity|].
    intros _. exact Hcode.
Qed.

Lemma parse_vmcoreinfo_rejects_bad_kerneloffset_witness :
  exists err,
    parse_vmcoreinfo
      (lines [bytes "OSRELEASE=5.4.0-test"]
       ++ bytes "KERNELOFFSET=" ++ bytes "10000000000000000" ++ [newline])
    = inl err
    /\ code err = DRGN_ERROR_OVERFLOW.
Proof.
  destruct (parse_vmcoreinfo_rejects_bad_kerneloffset
              [bytes "OSRELEASE=5.4.0-test"] (bytes "10000000000000000") [])
    as (err & He & Hc).
  - intros l [<-|[]]. vm_compute. intuition discriminate.
  - vm_compute. intuition discriminate.
  - left. vm_compute. reflexivity.
  - exists err. split; [exact He|].
    apply Hc. intros l [<-|[]]. vm_compute. lia.
Defined.

(** ** Reading a C string *)

Lemma alloc_all_succeed (heap : alloc_oracle) :
  all_succeed heap ->
  fst (alloc heap) = true /\ all_succeed (snd (alloc heap)).
Proof.
  intros H. destruct heap as [|b heap]; simpl.
  - split; [reflexivity|constructor].
  - inversion H; subst. split; [reflexivity|assumption].
Qed.

Lemma wrap64_succ (a i : Z) :
  wrap64 (wrap64 (a + 1) + i) = wrap64 (a + (1 + i)).
Proof.
  unfold wrap64. rewrite Zplus_mod_idemp_l. f_equal. lia.
Qed.

Lemma wrap64_wrap64 (a : Z) : wrap64 (wrap64 a) = wrap64 a.
Proof. unfold wrap64. apply Z.mod_mod. discriminate. Qed.

Section ReadLoop.

Variable rd : memory_reader.
Variable physical : bool.
Variable max_size : Z.

(** The loop, on a memory that holds the bytes [bs], none of them NUL, from
    [addr] on, followed by a NUL unless [max_size] is reached first. *)
Lemma read_c_string_loop_spec (bs : list byte) :
  forall (fuel : nat) (str : list byte) (size capacity addr : Z)
         (heap : alloc_oracle),
    all_succeed heap ->
    size = Z.of_nat (List.length str) ->
    wrap64 addr = addr ->
    (List.length bs < fuel)%nat ->
    (forall i : nat, (i < List.length bs)%nat ->
       rd (wrap64 (addr + Z.of_nat i)) physical = inr (nth i bs x00)
       /\ nth i bs x00 <> x00) ->
    size + Z.of_nat (List.length bs) <= max_size ->
    (size + Z.of_nat (List.length bs) < max_size ->
     rd (wrap64 (addr + Z.of_nat (List.length bs))) physical = inr x00) ->
    exists heap',
      read_c_string_loop fuel rd physical max_size str size capacity addr heap
      = Some (inr (str ++ bs ++ [x00]), heap')
      /\ all_succeed heap'.
Proof.
  induction bs as [|b bs IH];
    intros fuel str size capacity addr heap Hheap Hsize Haddr Hfuel Hmem Hmax Hnul;
    (destruct fuel as [|fuel]; [simpl in Hfuel; lia|]);
    cbn [read_c_string_loop];
    destruct (alloc_all_succeed heap Hheap) as [Hok Hheap'];
    destruct (alloc heap) as [ok heap1]; simpl in Hok, Hheap'; subst ok.
  - simpl in Hmax, Hnul. rewrite Z.add_0_r in Hmax, Hnul.
    assert (Hrd : size < max_size -> rd addr physical = inr x00).
    { intros Hlt. rewrite <- Haddr at 1. rewrite <- (Z.add_0_r addr). auto. }
    destruct (capacity <=? size); simpl;
      (destruct (size <? max_size) eqn:Hlt;
       [ apply Z.ltb_lt in Hlt; rewrite (Hrd Hlt), byte_eqb_refl
       | ]);
      eexists; split; try reflexivity; assumption.
  - simpl List.length in Hmax, Hnul, Hmem, Hfuel.
    assert (Hlt : (size <? max_size) = true) by (apply Z.ltb_lt; lia).
    assert (H0 : (0 < S (List.length bs))%nat) by lia.
    destruct (Hmem 0%nat H0) as [Hb Hnz]. simpl in Hb, Hnz.
    rewrite Z.add_0_r, Haddr in Hb.
    assert (Hstep : forall capacity1 heap0, all_succeed heap0 ->
              exists heap',
                read_c_string_loop fuel rd physical max_size (str ++ [b])
                  (size + 1) capacity1 (wrap64 (addr + 1)) heap0
                = Some (inr (str ++ (b :: bs) ++ [x00]), heap')
                /\ all_succeed heap').
    { intros capacity1 heap0 Hheap0.
      destruct (IH fuel (str ++ [b]) (size + 1) capacity1 (wrap64 (addr + 1))
                  heap0 Hheap0) as (heap' & Hr & Hh).
      - rewrite length_app. simpl. lia.
      - apply wrap64_wrap64.
      - lia.
      - intros i Hi. rewrite wrap64_succ.
        replace (addr + (1 + Z.of_nat i)) with (addr + Z.of_nat (S i)) by lia.
        apply (Hmem (S i)). lia.
      - lia.
      - intros Hlt'. rewrite wrap64_succ.
        replace (addr + (1 + Z.of_nat (List.length bs)))
          with (addr + Z.of_nat (S (List.length bs))) by lia.
        apply Hnul. lia.
      - exists heap'. split; [|exact Hh].
        rewrite Hr, <- app_assoc. reflexivity. }
    apply byte_eqb_neq in Hnz.
    destruct (capacity <=? size); simpl; rewrite Hlt, Hb, Hnz; now apply Hstep.
Qed.

(** The loop always comes to a result: it stops at [max_size] at the
    latest. *)
Lemma read_c_string_loop_total :
  forall (fuel : nat) (str : list byte) (size capacity addr : Z)
         (heap : alloc_oracle),
    size <= max_size ->
    max_size - size < Z.of_nat fuel ->
    read_c_string_loop fuel rd physical max_size str size capacity addr heap
    <> None.
Proof.
  induction fuel as [|fuel IH]; intros str size capacity addr heap Hsize Hfuel.
  - simpl in Hfuel. lia.
  - cbn [read_c_string_loop].
    destruct (capacity <=? size); [destruct (alloc heap) as [[|] ?]|]; simpl;
      try discriminate;
      (destruct (size <? max_size) eqn:Hlt; [|discriminate]);
      (destruct (rd addr physical) as [?|b]; [discriminate|]);
      (destruct (Byte.eqb b x00); [discriminate|]);
      apply Z.ltb_lt in Hlt; apply IH; lia.
Qed.

End ReadLoop.

Lemma drgn_program_read_c_string_total (rd : memory_reader) (addr : Z)
    (physical : bool) (max_size : Z) (heap : alloc_oracle) :
  0 <= max_size ->
  drgn_program_read_c_string rd addr physical max_size heap <> None.
Proof.
  intros Hmax. unfold drgn_program_read_c_string.
  destruct (alloc heap) as [[|] heap1]; cbn [negb]; [|discriminate].
  pose proof (read_c_string_loop_total rd physical max_size
                (S (Z.to_nat max_size)) [] 0 1 addr heap1 Hmax) as H.
  assert (Hf : max_size - 0 < Z.of_nat (S (Z.to_nat max_size))) by lia.
  specialize (H Hf).
  destruct (read_c_string_loop _ _ _ _ _ _ _ _ _) as [[[?|?] ?]|];
    congruence.
Qed.

Lemma cstr_terminated (bs rest : list byte) :
  Forall (fun b => b <> x00) bs -> cstr (bs ++ x00 :: rest) = bs.
Proof.
  induction 1 as [|b bs Hb _ IH]; simpl; [reflexivity|].
  apply byte_eqb_neq in Hb. rewrite Hb. now f_equal.
Qed.

(** C9.  Let the memory of the target hold, from [a] on, bytes [bs] that are
    not NUL, as many as the smaller of [L] and [max_size], with a NUL at
    offset [L] if [L] is below [max_size]; let the reads of these bytes
    succeed and the allocations too.  Then [drgn_program_read_c_string]
    returns a buffer that holds [bs] followed by a NUL: a NUL-terminated
    string of length min(L, max_size), and when [max_size] is reached before
    any NUL, exactly [max_size] bytes and the terminator. *)
Theorem drgn_program_read_c_string_spec (rd : memory_reader) (a : Z)
    (physical : bool) (max_size L : Z) (bs : list byte) (heap : alloc_oracle) :
  is_u64 a -> 0 <= max_size <= UINT64_MAX -> 0 <= L ->
  all_succeed heap ->
  Z.of_nat (List.length bs) = Z.min L max_size ->
  (forall i : nat, (i < List.length bs)%nat ->
     rd (wrap64 (a + Z.of_nat i)) physical = inr (nth i bs x00)
     /\ nth i bs x00 <> x00) ->
  (L < max_size -> rd (wrap64 (a + L)) physical = inr x00) ->
  exists heap',
    drgn_program_read_c_string rd a physical max_size heap
    = Some (inr (bs ++ [x00]), heap')
    /\ cstr (bs ++ [x00]) = bs
    /\ Z.of_nat (List.length (cstr (bs ++ [x00]))) = Z.min L max_size
    /\ last (bs ++ [x00]) x00 = x00
    /\ (max_size <= L ->
        Z.of_nat (List.length (bs ++ [x00])) = max_size + 1).
Proof.
  intros Ha Hmax HL Hheap Hlen Hmem Hnul.
  unfold drgn_program_read_c_string.
  destruct (alloc_all_succeed heap Hheap) as [Hok Hheap1].
  destruct (alloc heap) as [ok heap1]; simpl in Hok, Hheap1; subst ok.
  cbn [negb].
  destruct (read_c_string_loop_spec rd physical max_size bs
              (S (Z.to_nat max_size)) [] 0 1 a heap1 Hheap1 eq_refl
              (wrap64_small a Ha))
    as (heap2 & Hr & _).
  - lia.
  - exact Hmem.
  - lia.
  - intros Hlt. rewrite Hlen, Z.min_l in * by lia. apply Hnul. lia.
  - rewrite Hr. simpl app.
    assert (Hnz : Forall (fun b => b <> x00) bs).
    { apply Forall_forall. intros b Hin.
      destruct (In_nth bs b x00 Hin) as (i & Hi & <-).
      now apply Hmem. }
    assert (Hc : cstr (bs ++ [x00]) = bs) by now apply cstr_terminated.
    exists (snd (alloc heap2)). rewrite Hc.
    repeat split; try assumption.
    + apply last_last.
    + intros Hge. rewrite length_app. simpl. lia.
Qed.

(** The memory "hi" followed by NUL bytes, read with a bound of sixteen. *)
Lemma drgn_program_read_c_string_spec_witness :
  let rd : memory_reader :=
    fun addr _ =>
      if addr =? 0x1000 then inr "h"%byte
      else if addr =? 0x1001 then inr "i"%byte
      else inr x00 in
  exists heap',
    drgn_program_read_c_string rd 0x1000 false 16 []
    = Some (inr (bytes "hi" ++ [x00]), heap')
    /\ cstr (bytes "hi" ++ [x00]) = bytes "hi".
Proof.
  intros rd.
  destruct (drgn_program_read_c_string_spec rd 0x1000 false 16 2 (bytes "hi") [])
    as (heap' & Hr & Hc & _).
  - unfold is_u64, UINT64_MAX. lia.
  - unfold UINT64_MAX. lia.
  - lia.
  - constructor.
  - reflexivity.
  - intros [|[|i]] Hi; simpl in Hi; try lia;
      (split; [reflexivity|discriminate]).
  - reflexivity.
  - exists heap'. split; assumption.
Defined.

(** With a bound of two, the same memory gives both bytes and the
    terminator that the function adds. *)
Example drgn_program_read_c_string_at_max :
  let rd : memory_reader :=
    fun addr _ =>
      if addr =? 0x1000 then inr "h"%byte
      else if addr =? 0x1001 then inr "i"%byte
      else inr "!"%byte in
  drgn_program_read_c_string rd 0x1000 false 2 []
  = Some (inr (bytes "hi" ++ [x00]), []).
Proof. vm_compute. reflexivity. Qed.

(** ** Bootstrap: the notes that decide the kind of target *)

Lemma count_load_segments_readable (phdrs : list GElf_Phdr) :
  forall (nz : bool) (num : Z),
    exists nz' num', count_load_segments (map Some phdrs) nz num = Some (nz', num').
Proof.
  induction phdrs as [|p phdrs IH]; intros nz num; simpl.
  - eauto.
  - destruct (p_type p =? PT_LOAD); apply IH.
Qed.

(** Notes that are neither NT_FILE nor VMCOREINFO only set
    [have_nt_taskstruct]. *)
Lemma parse_notes_other (is_64_bit : bool) (notes : list note) :
  forall st : pass_state,
    (forall nt, In nt notes ->
       is_nt_file_note nt = false /\ is_vmcoreinfo_note nt = false) ->
    parse_notes notes is_64_bit st
    = (Ok, mk_pass (ps_segments st) (ps_mappings st) (ps_capacity st)
             (ps_vmcoreinfo st) (ps_have_nt_file st)
             (ps_have_nt_taskstruct st || existsb is_taskstruct_note notes)
             (ps_heap st)).
Proof.
  induction notes as [|nt notes IH]; intros st H.
  - simpl. rewrite orb_false_r. now destruct st.
  - destruct (H nt (or_introl eq_refl)) as [Hf Hv].
    assert (H' : forall nt', In nt' notes ->
               is_nt_file_note nt' = false /\ is_vmcoreinfo_note nt' = false)
      by (intros nt' Hin; apply H; now right).
    unfold is_nt_file_note, is_vmcoreinfo_note in Hf, Hv.
    cbn [parse_notes existsb]. unfold is_taskstruct_note at 1.
    destruct (note_named nt "CORE") eqn:Ec; simpl in Hf, Hv |- *.
    + rewrite Hf.
      destruct (n_type nt =? NT_TASKSTRUCT).
      * rewrite IH by exact H'. simpl. now rewrite orb_true_r.
      * rewrite IH by exact H'. reflexivity.
    + rewrite Hv, IH by exact H'. reflexivity.
Qed.

Section PlainNotes.

Variable env : bootstrap_env.
Variable e : Elf.
Variable fd : Z.
Variables is_64_bit nz : bool.
Variable num : Z.
Variable all : list GElf_Phdr.

Hypothesis Hadd : forall k, env_add_segment env k = None.
Hypothesis Hread : notes_readable e all.
Hypothesis Hnotes :
  forall nt, note_of e all nt ->
    is_nt_file_note nt = false /\ is_vmcoreinfo_note nt = false.

(** The second pass over a file without NT_FILE and VMCOREINFO notes, when
    the segments can be added and the notes read: the table, the VMCOREINFO
    and the allocator are untouched, and [have_nt_taskstruct] is set only if
    the file has an NT_TASKSTRUCT note. *)
Lemma second_pass_other :
  forall (phdrs : list GElf_Phdr) (i : nat) (st : pass_state),
    (forall j, nth_error phdrs j = nth_error all (i + j)) ->
    exists st',
      second_pass env e fd is_64_bit nz num i (map Some phdrs) st = (Ok, st')
      /\ ps_mappings st' = ps_mappings st
      /\ ps_capacity st' = ps_capacity st
      /\ ps_vmcoreinfo st' = ps_vmcoreinfo st
      /\ ps_have_nt_file st' = ps_have_nt_file st
      /\ ps_heap st' = ps_heap st
      /\ (ps_have_nt_taskstruct st' = true ->
          ps_have_nt_taskstruct st = true
          \/ exists nt, note_of e all nt /\ is_taskstruct_note nt = true).
Proof.
  induction phdrs as [|p phdrs IH]; intros i st Hidx.
  - exists st. simpl. repeat split; auto.
  - assert (Hp : nth_error all i = Some p).
    { specialize (Hidx 0%nat). simpl in Hidx. now rewrite Nat.add_0_r in Hidx. }
    assert (Hidx' : forall j, nth_error phdrs j = nth_error all (S i + j)).
    { intros j. specialize (Hidx (S j)). simpl in Hidx.
      now rewrite Nat.add_succ_r in Hidx. }
    cbn [second_pass map].
    destruct (p_type p =? PT_LOAD) eqn:Eload.
    + destruct (_ =? num).
      * apply IH. exact Hidx'.
      * rewrite Hadd.
        destruct (IH (S i)
                    (mk_pass
                       (ps_segments st
                        ++ [mk_segment (p_vaddr p)
                              (if nz then p_paddr p else UINT64_MAX)
                              (p_memsz p) (p_offset p) (p_filesz p) fd])
                       (ps_mappings st) (ps_capacity st) (ps_vmcoreinfo st)
                       (ps_have_nt_file st) (ps_have_nt_taskstruct st)
                       (ps_heap st)) Hidx')
          as (st' & Hr & H1 & H2 & H3 & H4 & H5 & H6).
        exists st'. repeat split; assumption.
    + destruct (p_type p =? PT_NOTE) eqn:Enote.
      * apply Z.eqb_eq in Enote.
        destruct (Hread i p Hp Enote) as [notes Hn]. rewrite Hn.
        assert (Hin : forall nt, In nt notes -> note_of e all nt)
          by (intros nt Hnt; exists i, p, notes; auto).
        rewrite (parse_notes_other is_64_bit notes st)
          by (intros nt Hnt; apply Hnotes; now apply Hin).
        destruct (IH (S i)
                    (mk_pass (ps_segments st) (ps_mappings st) (ps_capacity st)
                       (ps_vmcoreinfo st) (ps_have_nt_file st)
                       (ps_have_nt_taskstruct st
                        || existsb is_taskstruct_note notes)
                       (ps_heap st)) Hidx')
          as (st' & Hr & H1 & H2 & H3 & H4 & H5 & H6).
        exists st'. repeat split; try assumption.
        intros Hts. destruct (H6 Hts) as [Hor|Hex]; [|now right].
        simpl in Hor. apply orb_true_iff in Hor as [Hor|Hor]; [now left|].
        apply existsb_exists in Hor as (nt & Hnt & Ht).
        right. exists nt. split; [now apply Hin|exact Ht].
      * apply IH. exact Hidx'.
Qed.

End PlainNotes.

(** C7.  A core dump without a VMCOREINFO and without an NT_FILE note that
    is not taken for /proc/kcore (it has no NT_TASKSTRUCT note, or
    [fstatfs] reports a file system other than procfs), for every outcome
    of the allocations.  Let the file open, libelf read the headers of an
    ET_CORE file and the notes, and the reader be created and take the
    segments.  The run then makes at most two allocation requests, and
    their outcome decides the result:
    - the program is refused: NO_MEMORY, and no program is stored in
      [*ret];
    - the program is granted and the array of file segments is refused:
      [drgn_program_init_core_dump] goes to [out_reader] while [err] is
      still the NULL of [drgn_memory_reader_create], so that
      [drgn_program_from_core_dump] returns NULL and stores in [*ret] the
      program as [malloc] returned it, never initialised, its reader, ELF
      handle and descriptor released;
    - both are granted: INVALID_ARGUMENT, and no program is stored in
      [*ret]. *)
Theorem core_dump_without_notes_outcome
    (env : bootstrap_env) (path' : string) (garbage : drgn_program)
    (heap : alloc_oracle) (fd reader' : Z) (e : Elf) (is_64_bit : bool)
    (phdrs : list GElf_Phdr) :
  env_open env = inr fd ->
  env_elf env = Some e ->
  elf_ehdr e = Some (ET_CORE, is_64_bit) ->
  elf_phdrs e = Some (map Some phdrs) ->
  env_reader_create env = inr reader' ->
  (forall k, env_add_segment env k = None) ->
  notes_readable e phdrs ->
  (forall nt, note_of e phdrs nt ->
     is_nt_file_note nt = false /\ is_vmcoreinfo_note nt = false) ->
  ((forall nt, note_of e phdrs nt -> is_taskstruct_note nt = false)
   \/ exists f_type,
        env_fstatfs env = inr f_type /\ f_type <> PROC_SUPER_MAGIC) ->
  drgn_program_from_core_dump env path' garbage heap
  = match heap with
    | false :: _ => (Failed drgn_enomem, None, [])
    | true :: false :: _ =>
        (Ok, Some garbage, out_reader reader' (Some (elf_handle e)) fd)
    | _ =>
        (Failed (drgn_error_create DRGN_ERROR_INVALID_ARGUMENT
                   "core dump has no NT_FILE or VMCOREINFO note"),
         None,
         ev_elf_end (Some (elf_handle e))
         :: out_mappings [] (env_file_segments env) reader' None fd
         ++ [ev_free (env_prog env)])
    end.
Proof.
  intros Hopen Helf Hehdr Hphdrs Hreader Hadd Hread Hnotes Hkcore.
  destruct (count_load_segments_readable phdrs false 0) as (nz & num & Hcount).
  assert (Hgranted : forall heap1,
             fst (alloc heap1) = true ->
             drgn_program_init_core_dump env path' garbage heap1
             = mk_result
                 (Failed (drgn_error_create DRGN_ERROR_INVALID_ARGUMENT
                            "core dump has no NT_FILE or VMCOREINFO note"))
                 (set_mappings garbage (prog_mappings garbage)) None
                 (ev_elf_end (Some (elf_handle e))
                  :: out_mappings [] (env_file_segments env) reader' None fd)
                 (snd (alloc heap1))).
  { intros heap1 Hok. unfold drgn_program_init_core_dump.
    rewrite Hopen, Helf, Hehdr, Z.eqb_refl, Hphdrs. cbn [negb].
    rewrite Hcount, Hreader.
    destruct (alloc heap1) as [ok heap2]; simpl in Hok; subst ok.
    cbn [negb snd].
    destruct (second_pass_other env e fd is_64_bit nz num phdrs Hadd Hread
                Hnotes phdrs 0%nat
                (mk_pass [] (prog_mappings garbage) 0 None false false heap2)
                (fun j => eq_refl))
      as (st & Hr & Hm & Hc & Hv & Hf & Hh & Ht).
    simpl in Hm, Hc, Hv, Hf, Hh, Ht.
    rewrite Hr, Hv, Hf, Hc, Hm, Hh.
    assert (Hdetect : detect_proc_kcore env path' false
                        (ps_have_nt_taskstruct st) = inr false).
    { unfold detect_proc_kcore.
      destruct (ps_have_nt_taskstruct st) eqn:Ets; [|reflexivity].
      destruct (Ht eq_refl) as [Habs|(nt & Hnt & Hts)]; [discriminate|].
      destruct Hkcore as [Hnone|(f_type & Hfs & Hmagic)].
      - rewrite (Hnone nt Hnt) in Hts. discriminate.
      - rewrite Hfs. apply Z.eqb_neq in Hmagic. now rewrite Hmagic. }
    rewrite Hdetect. reflexivity. }
  assert (Hrefused : forall heap2,
             drgn_program_init_core_dump env path' garbage (false :: heap2)
             = mk_result Ok garbage None
                 (out_reader reader' (Some (elf_handle e)) fd) heap2).
  { intros heap2. unfold drgn_program_init_core_dump.
    rewrite Hopen, Helf, Hehdr, Z.eqb_refl, Hphdrs. cbn [negb].
    rewrite Hcount, Hreader. reflexivity. }
  unfold drgn_program_from_core_dump.
  destruct heap as [|[] heap1]; cbn [alloc negb].
  - rewrite (Hgranted [] eq_refl). reflexivity.
  - destruct heap1 as [|[] heap2].
    + rewrite (Hgranted [] eq_refl). reflexivity.
    + rewrite (Hgranted (true :: heap2) eq_refl). reflexivity.
    + rewrite Hrefused. reflexivity.
  - reflexivity.
Qed.

Lemma core_dump_without_notes_outcome_witness :
  drgn_program_from_core_dump (example_env [example_prstatus_note]) "core"
    zeroed_program [true; false]
  = (Ok, Some zeroed_program,
     [ev_memory_reader_destroy 200; ev_elf_end (Some 100); ev_close 3]).
Proof.
  assert (Hnote : forall nt,
             note_of (example_elf [example_prstatus_note])
               [mk_phdr PT_NOTE 0x200 0 0 0x400 0 4;
                mk_phdr PT_LOAD 0x1000 0x400000 0 0x1000 0x1000 0x1000] nt ->
             nt = example_prstatus_note).
  { intros nt (j & p & notes & Hj & Hp & Hn & Hin).
    destruct j as [|[|[|j]]]; simpl in Hj; inversion Hj; subst;
      try discriminate Hp.
    simpl in Hn. inversion Hn; subst.
    destruct Hin as [<-|[]]. reflexivity. }
  apply (core_dump_without_notes_outcome
           (example_env [example_prstatus_note]) "core" zeroed_program
           [true; false]
           3 200 (example_elf [example_prstatus_note]) true
           [mk_phdr PT_NOTE 0x200 0 0 0x400 0 4;
            mk_phdr PT_LOAD 0x1000 0x400000 0 0x1000 0x1000 0x1000]).
  - reflexivity.
  - reflexivity.
  - reflexivity.
  - reflexivity.
  - reflexivity.
  - intros k. reflexivity.
  - intros j p Hj Hp.
    destruct j as [|[|[|j]]]; simpl in Hj; inversion Hj; subst;
      try discriminate Hp.
    exists [example_prstatus_note]. reflexivity.
  - intros nt Hnt. rewrite (Hnote nt Hnt). split; reflexivity.
  - left. intros nt Hnt. rewrite (Hnote nt Hnt). reflexivity.
Defined.

(** ** The cleanup stack *)

Lemma callbacks_run_app (a b : list event) :
  callbacks_run (a ++ b) = callbacks_run a ++ callbacks_run b.
Proof. apply flat_map_app. Qed.

Lemma callbacks_run_deinit (prog : drgn_program) :
  callbacks_run (drgn_program_deinit prog) = cleanup prog.
Proof.
  unfold drgn_program_deinit. rewrite callbacks_run_app. simpl.
  induction (cleanup prog) as [|c l IH]; simpl; [reflexivity|].
  rewrite callbacks_run_app, IH.
  destruct c as [[] a]; reflexivity.
Qed.

Lemma register_all_cleanup (cs : list drgn_cleanup) :
  forall (prog : drgn_program) (heap : alloc_oracle),
    all_succeed heap ->
    cleanup (register_all prog cs heap) = rev cs ++ cleanup prog.
Proof.
  induction cs as [|c cs IH]; intros prog heap Hheap; simpl; [reflexivity|].
  unfold drgn_program_add_cleanup.
  destruct (alloc_all_succeed heap Hheap) as [Hok Hheap'].
  destruct (alloc heap) as [ok heap']; simpl in Hok, Hheap'; subst ok.
  rewrite IH by exact Hheap'. simpl.
  rewrite <- app_assoc. destruct c; reflexivity.
Qed.

(** Destruction calls the registered callbacks last registered first, each
    of them once. *)
Lemma deinit_runs_cleanups_in_reverse (prog : drgn_program)
    (cs : list drgn_cleanup) (heap : alloc_oracle) :
  all_succeed heap -> cleanup prog = [] ->
  callbacks_run (drgn_program_deinit (register_all prog cs heap)) = rev cs.
Proof.
  intros Hheap Hempty.
  rewrite callbacks_run_deinit, register_all_cleanup by exact Hheap.
  rewrite Hempty. apply app_nil_r.
Qed.

(** A registration that fails during the bootstrap: the cleanups registered
    before it are removed, so that the stack is empty when the program is
    deinitialised, and the labels from out_dtcache on release the
    resources. *)
Lemma init_core_dump_register_failure (env : bootstrap_env)
    (fd file_segments reader' dindex tindex' dtcache dsindex : Z)
    (mappings : list file_mapping) (vmc : option vmcoreinfo)
    (prog : drgn_program) (done : list event) (heap : alloc_oracle)
    (err : drgn_error) :
  let r := init_core_dump_register env fd file_segments reader' dindex tindex'
             dtcache dsindex mappings vmc prog done heap in
  br_status r = Failed err ->
  err = drgn_enomem
  /\ cleanup (br_prog r) = []
  /\ br_events r
     = done
       ++ [ev_symbol_index_destroy dsindex; ev_type_index_destroy tindex';
           ev_memory_reader_destroy reader']
       ++ out_dtcache dtcache tindex' dindex mappings file_segments reader'
            None fd.
Proof.
  unfold init_core_dump_register, drgn_program_add_cleanup.
  cbv zeta.
  repeat match goal with
         | |- context [alloc ?h] => destruct (alloc h) as [[|] ?]
         | |- context [match ?v with Some _ => _ | None => _ end] =>
             is_var v; destruct v
         end;
    intros H; try discriminate H; inversion H; subst;
    unfold remove_cleanups, drgn_program_remove_cleanup;
    cbn -[out_dtcache Z.eqb];
    repeat (rewrite Z.eqb_refl; cbn -[out_dtcache Z.eqb]);
    auto.
Qed.

Lemma init_core_dump_indices_failure (env : bootstrap_env)
    (fd file_segments reader' : Z) (mappings : list file_mapping)
    (vmc : option vmcoreinfo) (prog : drgn_program) (done : list event)
    (heap : alloc_oracle) (err : drgn_error) :
  let r := init_core_dump_indices env fd file_segments reader' mappings vmc
             prog done heap in
  br_status r = Failed err ->
  callbacks_run (br_events r) = callbacks_run done.
Proof.
  unfold init_core_dump_indices. cbv zeta.
  repeat match goal with
         | |- context [match ?x with _ => _ end] =>
             lazymatch x with
             | context [init_core_dump_register] => fail
             | _ => destruct x eqn:?
             end
         end;
    try (cbn [br_status br_events]; intros _;
         rewrite callbacks_run_app; cbn; apply app_nil_r).
  all: intros H; apply init_core_dump_register_failure in H as (_ & _ & ->).
  all: rewrite !callbacks_run_app; cbn; apply app_nil_r.
Qed.

(** No failing run of the bootstrap calls a cleanup callback. *)
Lemma init_core_dump_failure_no_callbacks (env : bootstrap_env)
    (path' : string) (prog : drgn_program) (heap : alloc_oracle)
    (err : drgn_error) :
  let r := drgn_program_init_core_dump env path' prog heap in
  br_status r = Failed err -> callbacks_run (br_events r) = [].
Proof.
  unfold drgn_program_init_core_dump. cbv zeta.
  repeat match goal with
         | |- context [match ?x with _ => _ end] =>
             lazymatch x with
             | context [init_core_dump_indices] => fail
             | _ => destruct x eqn:?
             end
         end;
    try (cbn [br_status br_events]; intros H; try discriminate H; reflexivity).
  all: intros H; apply init_core_dump_indices_failure in H; rewrite H;
    reflexivity.
Qed.

(** *** The bootstrap from a process *)

(** The table that [parse_proc_maps] builds is merged: a line of length
    zero changes nothing there. *)
Lemma parse_proc_maps_lines_merged (maps_path : string) (file : list maps_line) :
  forall (mappings : list file_mapping) (capacity : Z) (heap : alloc_oracle),
    merged mappings ->
    merged (snd (fst (fst (parse_proc_maps_lines maps_path file mappings
                             capacity heap)))).
Proof.
  induction file as [|[s e o p| |] file IH]; intros mappings capacity heap Hm;
    simpl; auto.
  pose proof (append_file_mapping_merged s e o p mappings capacity heap Hm) as H.
  destruct (append_file_mapping s e o p mappings capacity heap)
    as [[[[err|] mappings1] capacity1] heap1]; simpl in H.
  - destruct (drgn_error_code_eqb (code err) DRGN_ERROR_STOP); auto.
  - auto.
Qed.

Lemma parse_proc_maps_merged (maps_path : string) (file : Z + list maps_line)
    (heap : alloc_oracle) :
  merged (snd (fst (parse_proc_maps maps_path file [] heap))).
Proof.
  unfold parse_proc_maps. destruct file as [errno|scanned]; simpl.
  - apply merged_nil.
  - pose proof (parse_proc_maps_lines_merged maps_path scanned [] 0 heap
                  merged_nil) as H.
    destruct (parse_proc_maps_lines maps_path scanned [] 0 heap)
      as [[[[err|] mappings'] capacity] heap']; exact H.
Qed.

Lemma init_pid_register_failure (env : bootstrap_env)
    (fd file_segment reader' dindex tindex' dtcache dsindex : Z)
    (mappings : list file_mapping) (prog : drgn_program)
    (heap : alloc_oracle) (err : drgn_error) :
  let r := init_pid_register env fd file_segment reader' dindex tindex'
             dtcache dsindex mappings prog heap in
  br_status r = Failed err ->
  cleanup (br_prog r) = []
  /\ br_events r
     = [ev_symbol_index_destroy dsindex; ev_type_index_destroy tindex';
        ev_memory_reader_destroy reader']
       ++ pid_out_dtcache dtcache tindex' dindex mappings reader'
            file_segment fd.
Proof.
  unfold init_pid_register, drgn_program_add_cleanup.
  cbv zeta.
  repeat match goal with
         | |- context [alloc ?h] => destruct (alloc h) as [[|] ?]
         end;
    intros H; try discriminate H;
    unfold remove_cleanups, drgn_program_remove_cleanup;
    cbn -[pid_out_dtcache Z.eqb];
    repeat (rewrite Z.eqb_refl; cbn -[pid_out_dtcache Z.eqb]);
    auto.
Qed.

(** A bootstrap from a process that succeeds leaves the flag clear,
    installs the user-space hook, keeps the mappings in the program and has
    the five cleanups on the stack, the one of the mappings on top. *)
Lemma init_pid_register_success (env : bootstrap_env)
    (fd file_segment reader' dindex tindex' dtcache dsindex : Z)
    (mappings : list file_mapping) (prog : drgn_program)
    (heap : alloc_oracle) :
  let r := init_pid_register env fd file_segment reader' dindex tindex'
             dtcache dsindex mappings prog heap in
  br_status r = Ok ->
  flags (br_prog r) = 0
  /\ prog_mappings (br_prog r) = mappings
  /\ br_dsindex r
     = Some (mk_dsindex (Some (env_prog env)) (Some hook_userspace))
  /\ cleanup (br_prog r)
     = [mk_cleanup cleanup_file_mappings (env_prog env);
        mk_cleanup cleanup_dwarf_type_cache dtcache;
        mk_cleanup cleanup_dwarf_index dindex;
        mk_cleanup cleanup_free file_segment;
        mk_cleanup cleanup_fd fd].
Proof.
  unfold init_pid_register, drgn_program_add_cleanup.
  cbv zeta.
  repeat match goal with
         | |- context [alloc ?h] => destruct (alloc h) as [[|] ?]
         end;
    cbn [br_status]; intros H; try discriminate H.
  repeat split.
Qed.

(** No failing bootstrap from a process calls a cleanup callback. *)
Lemma init_pid_failure_no_callbacks (env : bootstrap_env) (pid : string)
    (maps : Z + list maps_line) (prog : drgn_program) (heap : alloc_oracle)
    (err : drgn_error) :
  let r := drgn_program_init_pid env pid maps prog heap in
  br_status r = Failed err -> callbacks_run (br_events r) = [].
Proof.
  unfold drgn_program_init_pid. cbv zeta.
  repeat match goal with
         | |- context [match ?x with _ => _ end] =>
             lazymatch x with
             | context [init_pid_register] => fail
             | _ => destruct x eqn:?
             end
         end;
    try (cbn [br_status br_events]; intros H; try discriminate H; reflexivity).
  all: intros H; apply init_pid_register_failure in H as (_ & ->);
    reflexivity.
Qed.

(** A bootstrap from a process whose maps hold one file, mapped in two
    adjacent pieces around an empty one: the session is a user-space session
    with the merged mapping and its ELF file. *)
Example init_pid_keeps_mappings :
  let r := drgn_program_init_pid (example_env []) "42"
             (inr [maps_file 0x400000 0x401000 0 (bytes "/bin/x");
                   maps_anonymous;
                   maps_file 0x401000 0x401000 0x1000 (bytes "/bin/y");
                   maps_file 0x401000 0x402000 0x1000 (bytes "/bin/x")])
             zeroed_program [] in
  br_status r = Ok
  /\ flags (br_prog r) = 0
  /\ prog_mappings (br_prog r)
     = [mk_mapping 0x400000 0x402000 0 (Some (bytes "/bin/x")) (Some 900)].
Proof. vm_compute. repeat split. Qed.

(** C4 (counterexample).  The registration of the second cleanup fails (the
    fourth allocation of the run) after the cleanup of the file descriptor
    has been registered (the third allocation).  No cleanup callback is
    called on the way out: the descriptor is closed by the label out_fd, and
    the DWARF type cache and the DWARF index, whose cleanups were never
    registered, are destroyed as well. *)
Lemma bootstrap_failure_calls_no_cleanup_counterexample :
  (* the first registration, with what is left of the allocator for it *)
  (exists prog1,
      drgn_program_add_cleanup (drgn_program_init zeroed_program 200 500 700)
        cleanup_fd 3 [true; false]
      = (None, prog1, [false])
      /\ cleanup prog1 = [mk_cleanup cleanup_fd 3])
  /\ exists events,
       drgn_program_from_core_dump (example_env [example_vmcoreinfo_note])
         "core" zeroed_program [true; true; true; false]
       = (Failed drgn_enomem, None, events)
       /\ callbacks_run events = []
       /\ ~ In (ev_cleanup (mk_cleanup cleanup_fd 3)) events
       /\ releases events
          = [ev_dwarf_type_cache_destroy 600; ev_dwarf_index_destroy 400;
             ev_free 300; ev_close 3; ev_free 800].
Proof.
  split.
  - eexists. split; reflexivity.
  - eexists. split; [vm_compute; reflexivity|].
    split; [reflexivity|]. split; [|reflexivity].
    simpl. intuition discriminate.
Qed.

(** C4 (amended).  Destruction calls the registered cleanup callbacks in
    the reverse order of their registration, each of them once.  A
    bootstrap that fails, from a core dump or from a process, calls none:
    when a registration of the core-dump bootstrap fails, the
    cleanups registered before it are removed from the stack, the program
    is deinitialised with an empty stack, and the labels of the error path
    release the DWARF type cache, the DWARF index, the array of file
    segments and the file descriptor, in this order, each of them once. *)
Theorem cleanup_order_of_destruction_and_failure :
  (forall (prog : drgn_program) (cs : list drgn_cleanup) (heap : alloc_oracle),
      all_succeed heap -> cleanup prog = [] ->
      callbacks_run (drgn_program_deinit (register_all prog cs heap)) = rev cs)
  /\ (forall (env : bootstrap_env) (path' : string) (prog : drgn_program)
             (heap : alloc_oracle) (err : drgn_error),
         br_status (drgn_program_init_core_dump env path' prog heap)
         = Failed err ->
         callbacks_run
           (br_events (drgn_program_init_core_dump env path' prog heap)) = [])
  /\ (forall (env : bootstrap_env) (pid : string) (maps : Z + list maps_line)
             (prog : drgn_program) (heap : alloc_oracle) (err : drgn_error),
         br_status (drgn_program_init_pid env pid maps prog heap)
         = Failed err ->
         callbacks_run
           (br_events (drgn_program_init_pid env pid maps prog heap)) = [])
  /\ (forall (env : bootstrap_env)
             (fd file_segments reader' dindex tindex' dtcache dsindex : Z)
             (mappings : list file_mapping) (vmc : option vmcoreinfo)
             (prog : drgn_program) (done : list event) (heap : alloc_oracle)
             (err : drgn_error),
         let r := init_core_dump_register env fd file_segments reader' dindex
                    tindex' dtcache dsindex mappings vmc prog done heap in
         br_status r = Failed err ->
         exists tail,
           br_events r = done ++ tail
           /\ cleanup (br_prog r) = []
           /\ callbacks_run tail = []
           /\ releases tail
              = [ev_dwarf_type_cache_destroy dtcache;
                 ev_dwarf_index_destroy dindex;
                 ev_free file_segments; ev_close fd]).
Proof.
  split; [|split; [|split]].
  - apply deinit_runs_cleanups_in_reverse.
  - apply init_core_dump_failure_no_callbacks.
  - apply init_pid_failure_no_callbacks.
  - intros env fd file_segments reader' dindex tindex' dtcache dsindex mappings
      vmc prog done heap err r H.
    apply init_core_dump_register_failure in H as (_ & Hc & He).
    eexists. split; [exact He|]. split; [exact Hc|]. split; reflexivity.
Qed.

(** Three cleanups registered and the program destroyed; and the failing
    bootstrap of the counterexample. *)
Lemma cleanup_order_of_destruction_and_failure_witness :
  callbacks_run
    (drgn_program_deinit
       (register_all zeroed_program
          [mk_cleanup cleanup_fd 3; mk_cleanup cleanup_free 300;
           mk_cleanup cleanup_dwarf_index 400] []))
  = [mk_cleanup cleanup_dwarf_index 400; mk_cleanup cleanup_free 300;
     mk_cleanup cleanup_fd 3]
  /\ callbacks_run
       (br_events
          (drgn_program_init_core_dump (example_env [example_vmcoreinfo_note])
             "core" zeroed_program [true; true; false]))
     = [].
Proof.
  destruct cleanup_order_of_destruction_and_failure as (Hd & Hf & _).
  split.
  - apply (Hd zeroed_program
             [mk_cleanup cleanup_fd 3; mk_cleanup cleanup_free 300;
              mk_cleanup cleanup_dwarf_index 400] []).
    + constructor.
    + reflexivity.
  - apply (Hf (example_env [example_vmcoreinfo_note]) "core" zeroed_program
             [true; true; false] drgn_enomem).
    vm_compute. reflexivity.
Defined.

(** The destruction of a kernel session: the four callbacks, the one
    registered last first, after the indices and the reader. *)
Example destroy_after_kernel_bootstrap :
  exists prog events,
    drgn_program_from_core_dump (example_env [example_vmcoreinfo_note]) "core"
      zeroed_program []
    = (Ok, Some prog, events)
    /\ drgn_program_destroy (Some prog) 800
       = [ev_symbol_index_destroy 700; ev_type_index_destroy 500;
          ev_memory_reader_destroy 200;
          ev_cleanup (mk_cleanup cleanup_dwarf_type_cache 600);
          ev_dwarf_type_cache_destroy 600;
          ev_cleanup (mk_cleanup cleanup_dwarf_index 400);
          ev_dwarf_index_destroy 400;
          ev_cleanup (mk_cleanup cleanup_free 300); ev_free 300;
          ev_cleanup (mk_cleanup cleanup_fd 3); ev_close 3;
          ev_free 800].
Proof.
  eexists. eexists. split; [vm_compute; reflexivity|]. reflexivity.
Qed.

(** ** Bootstrap: kernel and user space *)

(** The local table handed to [open_userspace_files] is empty, so that the
    user-space branch never gets past it. *)
Lemma init_core_dump_indices_userspace (env : bootstrap_env)
    (fd file_segments reader' : Z) (prog : drgn_program) (done : list event)
    (heap : alloc_oracle) :
  exists err,
    br_status (init_core_dump_indices env fd file_segments reader' [] None
                 prog done heap) = Failed err
    /\ (code err = DRGN_ERROR_MISSING_DEBUG
        \/ env_dindex_create env = inl err).
Proof.
  unfold init_core_dump_indices.
  destruct (env_dindex_create env) as [err|dindex]; simpl.
  - exists err. auto.
  - eexists. split; [reflexivity|]. left. reflexivity.
Qed.

(** A kernel bootstrap that succeeds sets the flag and the kernel hook, and
    leaves in the program the table that it had when the indices were
    created. *)
Lemma init_core_dump_indices_kernel (env : bootstrap_env)
    (fd file_segments reader' : Z) (mappings : list file_mapping)
    (v : vmcoreinfo) (prog : drgn_program) (done : list event)
    (heap : alloc_oracle) :
  let r := init_core_dump_indices env fd file_segments reader' mappings
             (Some v) prog done heap in
  br_status r = Ok ->
  flags (br_prog r) = DRGN_PROGRAM_IS_LINUX_KERNEL
  /\ prog_vmcoreinfo (br_prog r) = v
  /\ prog_mappings (br_prog r) = prog_mappings prog
  /\ br_dsindex r = Some (mk_dsindex (Some (env_prog env)) (Some hook_kernel))
  /\ exists dindex dtcache,
       env_dindex_create env = inr dindex
       /\ env_dtcache_create env = inr dtcache
       /\ cleanup (br_prog r)
          = [mk_cleanup cleanup_dwarf_type_cache dtcache;
             mk_cleanup cleanup_dwarf_index dindex;
             mk_cleanup cleanup_free file_segments;
             mk_cleanup cleanup_fd fd].
Proof.
  unfold init_core_dump_indices, init_core_dump_register,
    drgn_program_add_cleanup.
  cbv zeta.
  repeat match goal with
         | |- context [alloc ?h] => destruct (alloc h) as [[|] ?]
         | |- context [match ?x with _ => _ end] => destruct x eqn:?
         end;
    cbn [br_status br_events br_prog br_dsindex]; intros H;
    try discriminate H.
  all: repeat split.
  eexists. eexists. repeat split.
Qed.

(** Whatever the environment, a bootstrap from a core dump that returns
    NULL has either left the program untouched (the allocation of the file
    segments failed) or built a kernel program: it never installs the
    user-space hook. *)
Lemma init_core_dump_never_userspace (env : bootstrap_env) (path' : string)
    (prog : drgn_program) (heap : alloc_oracle) :
  let r := drgn_program_init_core_dump env path' prog heap in
  br_status r = Ok ->
  (br_dsindex r = None /\ br_prog r = prog)
  \/ (br_dsindex r = Some (mk_dsindex (Some (env_prog env)) (Some hook_kernel))
      /\ flags (br_prog r) = DRGN_PROGRAM_IS_LINUX_KERNEL).
Proof.
  unfold drgn_program_init_core_dump. cbv zeta.
  repeat match goal with
         | |- context [match ?x with _ => _ end] =>
             lazymatch x with
             | context [init_core_dump_indices] => fail
             | _ => destruct x eqn:?
             end
         end;
    try (cbn [br_status br_events br_prog br_dsindex]; intros H;
         try discriminate H; left; split; reflexivity).
  all: intros H.
  all: try (apply init_core_dump_indices_kernel in H as (Hf & _ & _ & Hd & _);
            right; split; assumption).
  all: match type of H with
       | br_status (init_core_dump_indices ?env ?fd ?fs ?rd [] None ?p ?d ?h) = Ok =>
           destruct (init_core_dump_indices_userspace env fd fs rd p d h)
             as (err & He & _); rewrite He in H; discriminate H
       end.
Qed.

(** C10 (code defect).  A core dump with a VMCOREINFO note and an NT_FILE
    note, in an environment where every call succeeds: the bootstrap
    returns a kernel program with the flag set, and the mapping parsed from
    the NT_FILE note is still in the program, because [parse_nt_file] is
    given the table of the program and not the local one that is freed.
    The same dump without the VMCOREINFO note is a user-space dump; its
    bootstrap fails with MISSING_DEBUG, because [open_userspace_files] is
    given the local table, which is empty. *)
Theorem kernel_bootstrap_keeps_nt_file_mappings :
  (exists prog events,
      drgn_program_from_core_dump
        (example_env [example_nt_file_note; example_vmcoreinfo_note]) "core"
        zeroed_program []
      = (Ok, Some prog, events)
      /\ flags prog = DRGN_PROGRAM_IS_LINUX_KERNEL
      /\ prog_mappings prog
         = [mk_mapping 0x400000 0x401000 0 (Some (bytes "/bin/x")) None])
  /\ (exists err events,
         drgn_program_from_core_dump (example_env [example_nt_file_note])
           "core" zeroed_program []
         = (Failed err, None, events)
         /\ code err = DRGN_ERROR_MISSING_DEBUG).
Proof.
  split.
  - eexists. eexists. split; [vm_compute; reflexivity|].
    split; reflexivity.
  - eexists. eexists. split; [vm_compute; reflexivity|]. reflexivity.
Qed.

(** * Further properties

    Properties of the code beyond the statements of the specification: of
    the functions above that it leaves out, and of the parsers of
    /proc/kallsyms and of the module trees. *)

(** ** The mapping table: appending *)

(** X1.  [append_file_mapping] keeps the table merged: if no entry of the
    table can be merged into the one before it, the same holds after the
    call, whatever its arguments and its outcome (appended, merged, dropped,
    or failed). *)
Theorem append_file_mapping_keeps_table_merged
    (start' end' file_offset' : Z) (path' : list byte)
    (mappings : list file_mapping) (capacity : Z) (heap : alloc_oracle) :
  merged mappings ->
  merged (snd (fst (fst (append_file_mapping start' end' file_offset' path'
                           mappings capacity heap)))).
Proof. apply append_file_mapping_merged. Qed.

Lemma append_file_mapping_keeps_table_merged_witness :
  merged [mk_mapping 0x1000 0x2000 0 (Some (bytes "/a")) None]
  /\ merged (snd (fst (fst (append_file_mapping 0x2000 0x3000 0 (bytes "/a")
                              [mk_mapping 0x1000 0x2000 0 (Some (bytes "/a")) None]
                              1 [])))).
Proof.
  split; [apply merged_single|].
  apply append_file_mapping_keeps_table_merged. apply merged_single.
Defined.

Lemma wrap64_double (c : Z) : 0 <= c < 2 ^ 63 -> wrap64 (c * 2) = c * 2.
Proof. intros H. apply wrap64_small. unfold is_u64, UINT64_MAX. lia. Qed.

(** X2.  [append_file_mapping] keeps the entries inside the array: if the
    table has at most [capacity] entries before the call, it has at most
    the new capacity after it, and the capacity never shrinks.  The
    capacity is below 2^63, so that doubling it does not wrap. *)
Theorem append_file_mapping_within_capacity
    (start' end' file_offset' : Z) (path' : list byte)
    (mappings : list file_mapping) (capacity : Z) (heap : alloc_oracle) :
  0 <= capacity < 2 ^ 63 ->
  Z.of_nat (List.length mappings) <= capacity ->
  let r := append_file_mapping start' end' file_offset' path' mappings
             capacity heap in
  Z.of_nat (List.length (snd (fst (fst r)))) <= snd (fst r)
  /\ capacity <= snd (fst r).
Proof.
  intros Hc Hl r. subst r.
  unfold_append; cbn [fst snd]; try lia;
    repeat match goal with
           | H : unsnoc _ = Some _ |- _ => apply unsnoc_Some in H; subst
           | H : (_ =? _) = true |- _ => apply Z.eqb_eq in H
           | H : (_ =? _) = false |- _ => apply Z.eqb_neq in H
           | H : (_ <=? _) = true |- _ => apply Z.leb_le in H
           | H : (_ <=? _) = false |- _ => apply Z.leb_gt in H
           end;
    rewrite ?wrap64_double by lia;
    rewrite ?length_app in *; cbn [List.length] in *; try lia.
Qed.

Lemma append_file_mapping_within_capacity_witness :
  0 <= 1 < 2 ^ 63
  /\ Z.of_nat (List.length [mk_mapping 0x1000 0x2000 0 (Some (bytes "/a")) None])
     <= 1
  /\ (let r := append_file_mapping 0x3000 0x4000 0 (bytes "/b")
                 [mk_mapping 0x1000 0x2000 0 (Some (bytes "/a")) None] 1 [] in
      Z.of_nat (List.length (snd (fst (fst r)))) <= snd (fst r)
      /\ 1 <= snd (fst r)).
Proof.
  split; [lia|]. split; [simpl; lia|].
  apply (append_file_mapping_within_capacity 0x3000 0x4000 0 (bytes "/b")
           [mk_mapping 0x1000 0x2000 0 (Some (bytes "/a")) None] 1 []);
    [lia | simpl; lia].
Defined.

Lemma append_file_mapping_errors
    (start' end' file_offset' : Z) (path' : list byte)
    (mappings mappings' : list file_mapping) (capacity capacity' : Z)
    (heap heap' : alloc_oracle) (err : drgn_error) :
  append_file_mapping start' end' file_offset' path' mappings capacity heap
  = (Some err, mappings', capacity', heap') ->
  err = drgn_stop \/ err = negative_length_error \/ err = drgn_enomem.
Proof.
  unfold_append; intros H; inversion H; subst; auto.
Qed.

Lemma parse_nt_file_entries_errors (is_64_bit bswap : bool) (page_size : Z)
    (n : nat) :
  forall (p q : list byte) (mappings : list file_mapping) (capacity : Z)
         (heap : alloc_oracle) (err : drgn_error),
    fst (fst (fst (parse_nt_file_entries n is_64_bit bswap page_size p q
                     mappings capacity heap))) = Failed err ->
    err = invalid_nt_file \/ err = negative_length_error \/ err = drgn_enomem.
Proof.
  induction n as [|n IH]; intros p q mappings capacity heap err;
    [discriminate|].
  cbn [parse_nt_file_entries].
  set (rd := if is_64_bit then read_u64_nocheck bswap
             else read_u32_into_u64_nocheck bswap) in *.
  destruct (rd p) as [s p1]. destruct (rd p1) as [e p2].
  destruct (rd p2) as [o p3].
  destruct (read_string q) as [[[path' len] q']|];
    [|cbn; intros H; inversion H; auto].
  destruct (append_file_mapping s e (wrap64 (o * page_size)) path' mappings
              capacity heap) as [[[r mappings1] capacity1] heap1] eqn:Ea.
  destruct r as [err'|].
  - apply append_file_mapping_errors in Ea.
    destruct (drgn_error_code_eqb (code err') DRGN_ERROR_STOP) eqn:Es;
      [apply IH|].
    cbn. intros H; inversion H; subst err'.
    destruct Ea as [-> | [-> | ->]]; [discriminate Es | auto | auto].
  - destruct (unsnoc mappings1) as [[front mapping]|]; [|discriminate].
    destruct (alloc heap1) as [[|] heap2]; [apply IH|].
    cbn. intros H; inversion H; auto.
Qed.

(** X3.  The errors of [parse_nt_file]: an invalid note (ELF_FORMAT), an
    entry of negative length (OTHER) or a failed allocation (NO_MEMORY).
    [&drgn_stop], by which [append_file_mapping] reports a merge, never
    reaches the caller. *)
Theorem parse_nt_file_errors (desc : list byte) (is_64_bit : bool)
    (mappings : list file_mapping) (capacity : Z) (heap : alloc_oracle)
    (err : drgn_error) :
  fst (fst (fst (parse_nt_file desc is_64_bit mappings capacity heap)))
  = Failed err ->
  (err = invalid_nt_file \/ err = negative_length_error \/ err = drgn_enomem)
  /\ code err <> DRGN_ERROR_STOP.
Proof.
  intros H.
  assert (Hc : err = invalid_nt_file \/ err = negative_length_error
               \/ err = drgn_enomem).
  { revert H. unfold parse_nt_file.
    set (rd := if is_64_bit then read_u64 false else read_u32_into_u64 false).
    destruct (rd desc) as [[count p1]|];
      [|cbn; intros H; inversion H; auto].
    destruct (rd p1) as [[page_size p]|];
      [|cbn; intros H; inversion H; auto].
    destruct (mul_overflow count (if is_64_bit then 24 else 12))
      as [[|] paths_offset];
      [cbn; intros H; inversion H; auto|].
    destruct (negb (read_in_bounds p paths_offset));
      [cbn; intros H; inversion H; auto|].
    apply parse_nt_file_entries_errors. }
  split; [exact Hc|].
  destruct Hc as [-> | [-> | ->]]; discriminate.
Qed.

Lemma parse_nt_file_errors_witness :
  fst (fst (fst (parse_nt_file
                   (nt_file_desc64 0x1000 [(0x2000, 0x1000, 0)] ["/a"])
                   true [] 0 [])))
  = Failed negative_length_error
  /\ (negative_length_error = invalid_nt_file
      \/ negative_length_error = negative_length_error
      \/ negative_length_error = drgn_enomem)
  /\ code negative_length_error <> DRGN_ERROR_STOP.
Proof.
  split; [vm_compute; reflexivity|].
  apply (parse_nt_file_errors
           (nt_file_desc64 0x1000 [(0x2000, 0x1000, 0)] ["/a"]) true [] 0 []).
  vm_compute; reflexivity.
Defined.

Lemma le_value_nonneg (bs : list byte) : 0 <= le_value bs.
Proof.
  induction bs as [|b bs IH]; cbn [le_value]; [lia|].
  pose proof (byte_val_range b). lia.
Qed.

(** X4.  A descriptor that is too short for its two header words, or for
    the [count] entries that its header announces, is rejected as an invalid
    NT_FILE note before anything is read from it: the table, the capacity
    and the allocator are left as they were.  This covers a [count] whose
    product with the size of an entry overflows. *)
Theorem parse_nt_file_truncated (desc : list byte) (is_64_bit : bool)
    (mappings : list file_mapping) (capacity : Z) (heap : alloc_oracle) :
  let w := if is_64_bit then 8%nat else 4%nat in
  (List.length desc < 2 * w)%nat
  \/ Z.of_nat (List.length desc) - Z.of_nat (2 * w)
     < le_value (firstn w desc) * Z.of_nat (3 * w) ->
  parse_nt_file desc is_64_bit mappings capacity heap
  = (Failed invalid_nt_file, mappings, capacity, heap).
Proof.
  intros w H. unfold parse_nt_file.
  assert (Hrd : (if is_64_bit then read_u64 false else read_u32_into_u64 false)
                = read_uint w false) by (destruct is_64_bit; reflexivity).
  assert (Hmul : (if is_64_bit then 24 else 12) = Z.of_nat (3 * w))
    by (subst w; destruct is_64_bit; reflexivity).
  rewrite Hrd, Hmul. clearbody w. clear Hrd Hmul.
  unfold read_uint, read_in_bounds, read_uint_nocheck.
  destruct (Z.of_nat w <=? Z.of_nat (List.length desc)) eqn:E1; [|reflexivity].
  rewrite length_skipn.
  destruct (Z.of_nat w <=? Z.of_nat (List.length desc - w)) eqn:E2;
    [|reflexivity].
  apply Z.leb_le in E1, E2.
  destruct H as [H | H]; [lia|].
  set (count := le_value (firstn w desc)) in *.
  assert (Hcount : 0 <= count) by apply le_value_nonneg.
  unfold mul_overflow.
  destruct (UINT64_MAX <? count * Z.of_nat (3 * w)) eqn:E3; [reflexivity|].
  apply Z.ltb_ge in E3.
  rewrite wrap64_small by (unfold is_u64; split; [nia|lia]).
  rewrite !length_skipn.
  destruct (count * Z.of_nat (3 * w) <=? Z.of_nat (List.length desc - w - w))
    eqn:E4; [|reflexivity].
  apply Z.leb_le in E4. lia.
Qed.

Lemma parse_nt_file_truncated_witness :
  Z.of_nat (List.length (le_bytes 8 3 ++ le_bytes 8 0x1000 ++ le_bytes 8 0))
  - Z.of_nat (2 * 8)
  < le_value (firstn 8 (le_bytes 8 3 ++ le_bytes 8 0x1000 ++ le_bytes 8 0))
    * Z.of_nat (3 * 8)
  /\ parse_nt_file (le_bytes 8 3 ++ le_bytes 8 0x1000 ++ le_bytes 8 0) true
       [] 0 []
     = (Failed invalid_nt_file, [], 0, []).
Proof.
  assert (H : Z.of_nat (List.length (le_bytes 8 3 ++ le_bytes 8 0x1000
                                     ++ le_bytes 8 0))
              - Z.of_nat (2 * 8)
              < le_value (firstn 8 (le_bytes 8 3 ++ le_bytes 8 0x1000
                                    ++ le_bytes 8 0))
                * Z.of_nat (3 * 8))
    by (vm_compute; reflexivity).
  split; [exact H|].
  exact (parse_nt_file_truncated
           (le_bytes 8 3 ++ le_bytes 8 0x1000 ++ le_bytes 8 0) true [] 0 []
           (or_intror H)).
Defined.

(** X5.  On a descriptor without entries of length zero, [parse_nt_file]
    keeps the table merged, whatever else the descriptor holds and whatever
    the outcome. *)
Theorem parse_nt_file_keeps_table_merged (desc : list byte) (is_64_bit : bool)
    (mappings : list file_mapping) (capacity : Z) (heap : alloc_oracle) :
  let w := if is_64_bit then 8%nat else 4%nat in
  merged mappings ->
  entries_nonempty (Z.to_nat (le_value (firstn w desc)))
    (if is_64_bit then read_u64_nocheck false
     else read_u32_into_u64_nocheck false)
    (skipn w (skipn w desc)) ->
  merged (snd (fst (fst (parse_nt_file desc is_64_bit mappings capacity
                           heap)))).
Proof.
  intros w Hm Hne. unfold parse_nt_file.
  assert (Hrd : (if is_64_bit then read_u64 false else read_u32_into_u64 false)
                = read_uint w false) by (destruct is_64_bit; reflexivity).
  rewrite Hrd. unfold read_uint, read_uint_nocheck.
  destruct (read_in_bounds desc (Z.of_nat w)); [|exact Hm].
  destruct (read_in_bounds (skipn w desc) (Z.of_nat w)); [|exact Hm].
  destruct (mul_overflow (le_value (firstn w desc))
              (if is_64_bit then 24 else 12)) as [[|] paths_offset];
    [exact Hm|].
  destruct (negb (read_in_bounds (skipn w (skipn w desc)) paths_offset));
    [exact Hm|].
  apply parse_nt_file_entries_merged; assumption.
Qed.

Lemma parse_nt_file_keeps_table_merged_witness :
  merged [mk_mapping 0x1000 0x2000 0 (Some (bytes "/a")) None]
  /\ merged (snd (fst (fst (parse_nt_file
                              (nt_file_desc64 0x1000 [(0x2000, 0x3000, 1)] ["/a"])
                              true
                              [mk_mapping 0x1000 0x2000 0 (Some (bytes "/a")) None]
                              1 [])))).
Proof.
  split; [apply merged_single|].
  apply (parse_nt_file_keeps_table_merged
           (nt_file_desc64 0x1000 [(0x2000, 0x3000, 1)] ["/a"]) true
           [mk_mapping 0x1000 0x2000 0 (Some (bytes "/a")) None] 1 []).
  - apply merged_single.
  - vm_compute. split; [discriminate|exact I].
Defined.

Lemma read_u64_nocheck_le_bytes (z : Z) (rest : list byte) :
  is_u64 z -> read_u64_nocheck false (le_bytes 8 z ++ rest) = (z, rest).
Proof.
  intros Hz. unfold read_u64_nocheck, read_uint_nocheck.
  assert (Hf : firstn 8 (le_bytes 8 z ++ rest) = le_bytes 8 z) by reflexivity.
  assert (Hs : skipn 8 (le_bytes 8 z ++ rest) = rest) by reflexivity.
  rewrite Hf, Hs, le_value_le_bytes.
  f_equal. apply Z.mod_small.
  unfold is_u64, UINT64_MAX in Hz. simpl. lia.
Qed.

Lemma read_string_c_string (s : string) (rest : list byte) :
  ~ In x00 (bytes s) ->
  read_string (c_string s ++ rest)
  = Some (bytes s, Z.of_nat (List.length (bytes s)), rest).
Proof.
  intros H. unfold read_string, c_string.
  rewrite <- app_assoc. cbn [app]. now rewrite memchr_app.
Qed.

Lemma append_file_mapping_all_granted
    (start' end' file_offset' : Z) (path' : list byte)
    (mappings : list file_mapping) (capacity : Z) :
  start' < end' ->
  exists capacity',
    append_file_mapping start' end' file_offset' path' mappings capacity []
    = (None,
       mappings ++ [mk_mapping start' end' file_offset' (Some path') None],
       capacity', [])
    \/ exists mappings',
         append_file_mapping start' end' file_offset' path' mappings capacity []
         = (Some drgn_stop, mappings', capacity', []).
Proof.
  intros H. unfold_append; try lia;
    repeat match goal with
           | H : alloc [] = _ |- _ => inversion H; subst; clear H
           end;
    eauto.
Qed.

Lemma parse_nt_file_entries_of_encoding (page_size : Z)
    (entries : list (Z * Z * Z)) :
  forall (paths : list string) (ptail qtail : list byte)
         (mappings : list file_mapping) (capacity : Z),
    List.length paths = List.length entries ->
    Forall (fun '(s, e, o) => is_u64 s /\ is_u64 e /\ is_u64 o /\ s < e)
      entries ->
    Forall (fun p => ~ In x00 (bytes p)) paths ->
    exists capacity',
      parse_nt_file_entries (List.length entries) true false page_size
        (flat_map (fun '(s, e, o) => le_bytes 8 s ++ le_bytes 8 e ++ le_bytes 8 o)
           entries ++ ptail)
        (flat_map c_string paths ++ qtail) mappings capacity []
      = (Ok, append_all (nt_file_calls page_size entries paths) mappings
               capacity [],
         capacity', []).
Proof.
  induction entries as [|[[s e] o] entries IH];
    intros paths ptail qtail mappings capacity Hlen He Hp.
  - destruct paths; [|discriminate]. exists capacity. reflexivity.
  - destruct paths as [|path' paths]; [discriminate|].
    inversion He as [|? ? Hhd He'']; subst.
    destruct Hhd as (Hs & He' & Ho & Hlt).
    inversion Hp as [|? ? Hnul Hp'']; subst.
    injection Hlen as Hlen.
    cbn [List.length flat_map parse_nt_file_entries nt_file_calls combine map
         append_all].
    rewrite <- !app_assoc.
    rewrite (read_u64_nocheck_le_bytes s) by assumption.
    rewrite (read_u64_nocheck_le_bytes e) by assumption.
    rewrite (read_u64_nocheck_le_bytes o) by assumption.
    rewrite read_string_c_string by assumption.
    destruct (append_file_mapping_all_granted s e (wrap64 (o * page_size))
                (bytes path') mappings capacity Hlt)
      as (capacity1 & [Ea | (mappings1 & Ea)]); rewrite Ea.
    + rewrite unsnoc_app. cbn [alloc set_path start end_ file_offset elf].
      apply IH; assumption.
    + cbn [code drgn_stop drgn_error_code_eqb]. apply IH; assumption.
Qed.

Lemma length_nt_file_entries (entries : list (Z * Z * Z)) :
  List.length
    (flat_map (fun '(s, e, o) => le_bytes 8 s ++ le_bytes 8 e ++ le_bytes 8 o)
       entries)
  = (24 * List.length entries)%nat.
Proof.
  induction entries as [|[[s e] o] entries IH]; [reflexivity|].
  cbn [flat_map]. rewrite !length_app, IH. cbn [List.length le_bytes]. lia.
Qed.

(** X6.  Parsing an encoded note: on the 64-bit descriptor that holds
    [entries] (none of them empty or of negative length) and their paths,
    with every allocation granted, [parse_nt_file] returns NULL and leaves
    the table that the calls of [append_file_mapping] on the entries, in
    order, build, the file offset of each entry multiplied by the page
    size. *)
Theorem parse_nt_file_of_encoding (page_size : Z)
    (entries : list (Z * Z * Z)) (paths : list string)
    (mappings : list file_mapping) (capacity : Z) :
  is_u64 page_size ->
  List.length paths = List.length entries ->
  Z.of_nat (List.length entries) * 24 <= UINT64_MAX ->
  Forall (fun '(s, e, o) => is_u64 s /\ is_u64 e /\ is_u64 o /\ s < e)
    entries ->
  Forall (fun p => ~ In x00 (bytes p)) paths ->
  exists capacity',
    parse_nt_file (nt_file_desc64 page_size entries paths) true mappings
      capacity []
    = (Ok, append_all (nt_file_calls page_size entries paths) mappings
             capacity [],
       capacity', []).
Proof.
  intros Hps Hlen Hn He Hp.
  unfold parse_nt_file, nt_file_desc64.
  rewrite read_u64_le_bytes by (unfold is_u64; lia).
  rewrite read_u64_le_bytes by assumption.
  unfold mul_overflow.
  replace (UINT64_MAX <? Z.of_nat (List.length entries) * 24) with false
    by (symmetry; apply Z.ltb_ge; lia).
  rewrite wrap64_small by (unfold is_u64; lia).
  unfold read_in_bounds. rewrite length_app, length_nt_file_entries.
  replace (Z.of_nat (List.length entries) * 24
           <=? Z.of_nat (24 * List.length entries
                         + List.length (flat_map c_string paths)))
    with true by (symmetry; apply Z.leb_le; lia).
  cbn [negb].
  replace (Z.to_nat (Z.of_nat (List.length entries) * 24))
    with (List.length
            (flat_map (fun '(s, e, o) =>
                         le_bytes 8 s ++ le_bytes 8 e ++ le_bytes 8 o) entries))
    by (rewrite length_nt_file_entries; lia).
  rewrite skipn_app, skipn_all, Nat.sub_diag. cbn [app skipn].
  rewrite Nat2Z.id.
  pose proof (parse_nt_file_entries_of_encoding page_size entries paths
                (flat_map c_string paths) [] mappings capacity Hlen He Hp)
    as H.
  rewrite app_nil_r in H. exact H.
Qed.

Lemma parse_nt_file_of_encoding_witness :
  exists capacity',
    parse_nt_file
      (nt_file_desc64 0x1000
         [(0x400000, 0x401000, 0); (0x401000, 0x402000, 1);
          (0x7f0000, 0x7f1000, 0)]
         ["/bin/x"; "/bin/x"; "/lib/y"])
      true [] 0 []
    = (Ok,
       append_all
         (nt_file_calls 0x1000
            [(0x400000, 0x401000, 0); (0x401000, 0x402000, 1);
             (0x7f0000, 0x7f1000, 0)]
            ["/bin/x"; "/bin/x"; "/lib/y"])
         [] 0 [],
       capacity', []).
Proof.
  apply (parse_nt_file_of_encoding 0x1000
           [(0x400000, 0x401000, 0); (0x401000, 0x402000, 1);
            (0x7f0000, 0x7f1000, 0)]
           ["/bin/x"; "/bin/x"; "/lib/y"] [] 0).
  - unfold is_u64, UINT64_MAX. lia.
  - reflexivity.
  - unfold UINT64_MAX. simpl. lia.
  - repeat constructor; unfold UINT64_MAX; lia.
  - repeat constructor; vm_compute; intuition discriminate.
Defined.

(** ** /proc/<pid>/maps *)

Lemma parse_proc_maps_lines_errors (maps_path : string)
    (file : list maps_line) :
  forall (mappings : list file_mapping) (capacity : Z) (heap : alloc_oracle)
         (err : drgn_error),
    fst (fst (fst (parse_proc_maps_lines maps_path file mappings capacity
                     heap))) = Some err ->
    err = drgn_error_format DRGN_ERROR_OTHER "could not parse " maps_path
    \/ err = negative_length_error \/ err = drgn_enomem.
Proof.
  induction file as [|l file IH]; intros mappings capacity heap err;
    [discriminate|].
  destruct l as [s e o p| |]; cbn [parse_proc_maps_lines].
  - destruct (append_file_mapping s e o p mappings capacity heap)
      as [[[r mappings1] capacity1] heap1] eqn:Ea.
    destruct r as [err'|]; [|apply IH].
    apply append_file_mapping_errors in Ea.
    destruct (drgn_error_code_eqb (code err') DRGN_ERROR_STOP) eqn:Es;
      [apply IH|].
    cbn. intros H; inversion H; subst err'.
    destruct Ea as [-> | [-> | ->]]; [discriminate Es | auto | auto].
  - apply IH.
  - cbn. intros H; inversion H; auto.
Qed.

(** X7.  The errors of [parse_proc_maps]: the failure of [fopen] (OS), a
    line that [fscanf] cannot parse (OTHER), a mapping of negative length
    (OTHER) or a failed allocation (NO_MEMORY).  [&drgn_stop] never reaches
    the caller. *)
Theorem parse_proc_maps_errors (maps_path : string)
    (file : Z + list maps_line) (mappings : list file_mapping)
    (heap : alloc_oracle) (err : drgn_error) :
  fst (fst (parse_proc_maps maps_path file mappings heap)) = Some err ->
  ((exists errno, file = inl errno
                  /\ err = drgn_error_create_os errno maps_path "fopen")
   \/ err = drgn_error_format DRGN_ERROR_OTHER "could not parse " maps_path
   \/ err = negative_length_error \/ err = drgn_enomem)
  /\ code err <> DRGN_ERROR_STOP.
Proof.
  intros H.
  assert (Hc : (exists errno, file = inl errno
                  /\ err = drgn_error_create_os errno maps_path "fopen")
               \/ err = drgn_error_format DRGN_ERROR_OTHER "could not parse "
                          maps_path
               \/ err = negative_length_error \/ err = drgn_enomem).
  { destruct file as [errno|scanned]; cbn [parse_proc_maps] in H.
    - left. exists errno. cbn in H. inversion H. auto.
    - right.
      pose proof (parse_proc_maps_lines_errors maps_path scanned mappings 0
                    heap err) as Hl.
      destruct (parse_proc_maps_lines maps_path scanned mappings 0 heap)
        as [[[r mappings'] capacity] heap'].
      destruct r as [err'|]; cbn in H; [|discriminate].
      apply Hl. exact H. }
  split; [exact Hc|].
  destruct Hc as [(errno & _ & ->) | [-> | [-> | ->]]]; discriminate.
Qed.

Lemma parse_proc_maps_errors_witness :
  fst (fst (parse_proc_maps "/proc/42/maps"
              (inr [maps_file 0x1000 0x2000 0 (bytes "/a"); maps_unparsed])
              [] []))
  = Some (drgn_error_format DRGN_ERROR_OTHER "could not parse " "/proc/42/maps")
  /\ code (drgn_error_format DRGN_ERROR_OTHER "could not parse " "/proc/42/maps")
     <> DRGN_ERROR_STOP.
Proof.
  split; [reflexivity|].
  apply (parse_proc_maps_errors "/proc/42/maps"
           (inr [maps_file 0x1000 0x2000 0 (bytes "/a"); maps_unparsed])
           [] []).
  reflexivity.
Defined.

Lemma parse_proc_maps_lines_skipped (maps_path : string)
    (file : list maps_line) :
  forall (mappings : list file_mapping) (capacity : Z) (heap : alloc_oracle),
    parse_proc_maps_lines maps_path file mappings capacity heap
    = parse_proc_maps_lines maps_path
        (filter (fun l => negb (maps_line_skipped l)) file)
        mappings capacity heap.
Proof.
  induction file as [|l file IH]; intros mappings capacity heap;
    [reflexivity|].
  destruct l as [s e o p| |]; cbn [filter maps_line_skipped negb].
  - destruct (s =? e) eqn:Ese; cbn [negb].
    + apply Z.eqb_eq in Ese. subst e.
      cbn [parse_proc_maps_lines].
      rewrite append_file_mapping_zero_length. apply IH.
    + cbn [parse_proc_maps_lines].
      destruct (append_file_mapping s e o p mappings capacity heap)
        as [[[[err|] mappings1] capacity1] heap1];
        [destruct (drgn_error_code_eqb (code err) DRGN_ERROR_STOP)|];
        try apply IH; reflexivity.
  - cbn [parse_proc_maps_lines]. apply IH.
  - reflexivity.
Qed.

(** X8.  Anonymous mappings and file mappings of length zero leave no
    trace: [parse_proc_maps] gives the same result, table and allocator on
    the file without these lines. *)
Theorem parse_proc_maps_skips_anonymous_and_empty (maps_path : string)
    (file : list maps_line) (mappings : list file_mapping)
    (heap : alloc_oracle) :
  parse_proc_maps maps_path (inr file) mappings heap
  = parse_proc_maps maps_path
      (inr (filter (fun l => negb (maps_line_skipped l)) file)) mappings heap.
Proof.
  unfold parse_proc_maps. now rewrite <- parse_proc_maps_lines_skipped.
Qed.

(** ** The relocation hooks *)

Lemma find_file_mapping_In (mappings : list file_mapping) (e : Elf)
    (fo a : Z) :
  find_file_mapping mappings e fo = Some a ->
  exists m, In m mappings /\ mapping_contains m e fo = true
            /\ a = relocated_address m fo.
Proof.
  induction mappings as [|m mappings IH]; [discriminate|].
  cbn [find_file_mapping].
  destruct (mapping_contains m e fo) eqn:Ec.
  - intros H; inversion H. exists m. split; [now left|auto].
  - intros H. destruct (IH H) as (m' & Hin & H').
    exists m'. split; [now right|exact H'].
Qed.

(** X9.  A symbol that [userspace_relocation_hook] relocates lands in a
    mapping of its file: when the ranges of the mappings do not wrap and
    the hook succeeds, the new address lies in [start, end) of a mapping of
    the program whose ELF file is the file of the symbol. *)
Theorem userspace_relocation_hook_lands_in_mapping
    (prog : drgn_program) (name : string) (e : Elf) (sym sym' : drgn_symbol) :
  Forall mapping_in_range (prog_mappings prog) ->
  userspace_relocation_hook prog name e sym = (None, sym') ->
  exists m,
    In m (prog_mappings prog)
    /\ elf m = Some (elf_handle e)
    /\ start m <= address sym' < end_ m.
Proof.
  intros Hr. unfold userspace_relocation_hook.
  destruct (elf_phdrs e) as [phdrs|]; [|discriminate].
  destruct (find_load_segment phdrs (address sym)) as [err|[fo|]];
    [discriminate| |discriminate].
  destruct (find_file_mapping (prog_mappings prog) e fo) as [a|] eqn:Ef;
    [|discriminate].
  intros H; inversion H; subst sym'; clear H.
  apply find_file_mapping_In in Ef as (m & Hin & Hc & ->).
  exists m. split; [exact Hin|].
  pose proof (proj1 (Forall_forall _ _) Hr m Hin) as (Hs & He & Ho).
  split.
  - unfold mapping_contains in Hc.
    apply andb_true_iff in Hc as [Hc _]. apply andb_true_iff in Hc as [Hc _].
    unfold elf_ptr_eqb in Hc. destruct (elf m) as [h|]; [|discriminate].
    apply Z.eqb_eq in Hc. now subst h.
  - cbn [set_address address].
    apply (relocated_address_exact m e fo Hs He Ho Hc).
Qed.

Lemma userspace_relocation_hook_lands_in_mapping_witness :
  let p := mk_phdr PT_LOAD 0 0x1000 0 0x3000 0x3000 0x1000 in
  let e := mk_elf 7 (Some (3, true)) (Some [Some p]) true [] (fun _ => None) in
  let m := mk_mapping 0x7f0000 0x7f3000 0
             (Some (bytes "/lib/libfoo.so")) (Some 7) in
  let prog := mk_program 0 0 0 [] 0 (mk_vmcoreinfo [] 0) [m] in
  let sym := mk_symbol 0 false true 0x2100 0 0 in
  userspace_relocation_hook prog "foo" e sym = (None, set_address sym 0x7f1100)
  /\ exists m',
       In m' (prog_mappings prog)
       /\ elf m' = Some (elf_handle e)
       /\ start m' <= address (set_address sym 0x7f1100) < end_ m'.
Proof.
  cbv zeta. split; [reflexivity|].
  apply (userspace_relocation_hook_lands_in_mapping
           (mk_program 0 0 0 [] 0 (mk_vmcoreinfo [] 0)
              [mk_mapping 0x7f0000 0x7f3000 0
                 (Some (bytes "/lib/libfoo.so")) (Some 7)])
           "foo"
           (mk_elf 7 (Some (3, true))
              (Some [Some (mk_phdr PT_LOAD 0 0x1000 0 0x3000 0x3000 0x1000)])
              true [] (fun _ => None))
           (mk_symbol 0 false true 0x2100 0 0)).
  - repeat constructor; cbn; unfold UINT64_MAX; lia.
  - reflexivity.
Defined.

(** X10.  The two relocation hooks touch nothing but the address: on every
    input a hook either fails and leaves the symbol as it was, or succeeds
    and changes its address only. *)
Theorem relocation_hooks_change_only_the_address
    (prog : drgn_program) (kernel : kernel_target) (name : string) (e : Elf)
    (sym : drgn_symbol) :
  ((exists err, kernel_relocation_hook prog kernel name e sym = (Some err, sym))
   \/ (exists a, kernel_relocation_hook prog kernel name e sym
                 = (None, set_address sym a)))
  /\ ((exists err, userspace_relocation_hook prog name e sym = (Some err, sym))
      \/ (exists a, userspace_relocation_hook prog name e sym
                    = (None, set_address sym a))).
Proof.
  split.
  - unfold kernel_relocation_hook.
    repeat match goal with
           | |- context [match ?x with _ => _ end] => destruct x
           end; eauto.
  - unfold userspace_relocation_hook.
    repeat match goal with
           | |- context [match ?x with _ => _ end] => destruct x
           end; eauto.
Qed.

Lemma wrap64_add_sub (a b : Z) : is_u64 a -> wrap64 (b + wrap64 (a - b)) = a.
Proof.
  intros H. unfold wrap64. rewrite Zplus_mod_idemp_r.
  replace (b + (a - b)) with a by lia.
  apply Z.mod_small. unfold is_u64, UINT64_MAX in H. lia.
Qed.

(** X11.  The fallback VMCOREINFO takes _stext to where it runs: when
    [get_fallback_vmcoreinfo] succeeds, its release is the one of [uname],
    shorter than 64 bytes, and with its KASLR offset the kernel hook moves a
    symbol of vmlinux that has the address of _stext in the file to the
    address of _stext in /proc/kallsyms. *)
Theorem fallback_offset_relocates_stext
    (env : bootstrap_env) (v : vmcoreinfo) (release : list byte)
    (kallsyms_addr elf_addr : Z)
    (prog : drgn_program) (kernel : kernel_target) (name : string) (e : Elf)
    (sym : drgn_symbol) (is_64_bit : bool) :
  env_uname env = inr release ->
  env_kallsyms_stext env = inr kallsyms_addr ->
  env_vmlinux_stext env (cstr release) = inr elf_addr ->
  is_u64 kallsyms_addr ->
  get_fallback_vmcoreinfo env = inr v ->
  prog_vmcoreinfo prog = v ->
  elf_ehdr e = Some (ET_EXEC, is_64_bit) ->
  address sym = elf_addr ->
  osrelease v = cstr release
  /\ Z.of_nat (List.length (osrelease v)) < sizeof_osrelease
  /\ kernel_relocation_hook prog kernel name e sym
     = (None, set_address sym kallsyms_addr).
Proof.
  intros Hu Hk Hv Hka Hf Hp He Ha.
  unfold get_fallback_vmcoreinfo in Hf. rewrite Hu, Hk, Hv in Hf.
  destruct (sizeof_osrelease <=? Z.of_nat (List.length (cstr release)))
    eqn:El; [discriminate|].
  apply Z.leb_gt in El. injection Hf as Hf.
  rewrite <- Hf in Hp. rewrite <- Hf. clear Hf.
  cbn [osrelease]. split; [reflexivity|]. split; [exact El|].
  unfold kernel_relocation_hook. rewrite He, Z.eqb_refl, Hp, Ha.
  cbn [kaslr_offset]. now rewrite wrap64_add_sub.
Qed.

Lemma fallback_offset_relocates_stext_witness :
  let env := with_stext (example_env []) (inr 0xffffffff93000000)
               (fun _ => inr 0xffffffff81000000) in
  let e := mk_elf 9 (Some (ET_EXEC, true)) None true [] (fun _ => None) in
  let v := mk_vmcoreinfo (bytes "5.4.0-test") 0x12000000 in
  let prog := mk_program 0 0 0 [] DRGN_PROGRAM_IS_LINUX_KERNEL v [] in
  let sym := mk_symbol 5 false true 0xffffffff81000000 0 0 in
  get_fallback_vmcoreinfo env = inr v
  /\ kernel_relocation_hook prog (inr []) "_stext" e sym
     = (None, set_address sym 0xffffffff93000000).
Proof.
  cbv zeta. split; [reflexivity|].
  apply (fallback_offset_relocates_stext
           (with_stext (example_env []) (inr 0xffffffff93000000)
              (fun _ => inr 0xffffffff81000000))
           (mk_vmcoreinfo (bytes "5.4.0-test") 0x12000000)
           (bytes "5.4.0-test") 0xffffffff93000000 0xffffffff81000000
           (mk_program 0 0 0 [] DRGN_PROGRAM_IS_LINUX_KERNEL
              (mk_vmcoreinfo (bytes "5.4.0-test") 0x12000000) [])
           (inr []) "_stext"
           (mk_elf 9 (Some (ET_EXEC, true)) None true [] (fun _ => None))
           (mk_symbol 5 false true 0xffffffff81000000 0 0) true);
    try reflexivity.
  unfold is_u64, UINT64_MAX. lia.
Defined.

(** ** The name of a module *)

Lemma nul_terminated_no_nul (tail cur : list byte) :
  ~ In x00 tail -> nul_terminated cur tail = [].
Proof.
  revert cur. induction tail as [|b tail IH]; intros cur H; [reflexivity|].
  cbn [nul_terminated].
  destruct (Byte.eqb b x00) eqn:E.
  - apply byte_eqb_eq in E. subst b. exfalso. apply H. now left.
  - apply IH. intros Hin. apply H. now right.
Qed.

Lemma nul_terminated_entry (s rest cur : list byte) :
  ~ In x00 s ->
  nul_terminated cur (s ++ x00 :: rest)
  = (rev cur ++ s) :: nul_terminated [] rest.
Proof.
  revert cur. induction s as [|b s IH]; intros cur H.
  - cbn. now rewrite app_nil_r.
  - cbn [app nul_terminated].
    destruct (Byte.eqb b x00) eqn:E.
    + apply byte_eqb_eq in E. subst b. exfalso. apply H. now left.
    + rewrite IH by (intros Hin; apply H; now right).
      cbn [rev]. now rewrite <- app_assoc.
Qed.

Lemma nul_terminated_nul_separated (entries : list (list byte))
    (tail : list byte) :
  Forall (fun s => ~ In x00 s) entries -> ~ In x00 tail ->
  nul_terminated [] (nul_separated entries ++ tail) = entries.
Proof.
  intros He Ht. induction He as [|s entries Hs He IH].
  - now apply nul_terminated_no_nul.
  - cbn [nul_separated flat_map]. rewrite <- !app_assoc. cbn [app].
    rewrite nul_terminated_entry by exact Hs.
    cbn [rev app]. f_equal. exact IH.
Qed.

(** X12.  The name of a module is the value of the first name= entry of
    its .modinfo section: for a section made of NUL-terminated strings,
    followed or not by bytes without a NUL, [get_module_name] returns what
    follows name= in the first string that starts with it, and fails with
    LOOKUP when there is none.  The bytes after the last NUL are not
    looked at. *)
Theorem get_module_name_first_name_entry (scn : Elf_Scn)
    (entries : list (list byte)) (tail : list byte) :
  Forall (fun s => ~ In x00 s) entries -> ~ In x00 tail ->
  scn_data scn = inr (nul_separated entries ++ tail) ->
  get_module_name scn
  = match find (fun s => bytes_eqb (firstn 5 s) (bytes "name=")) entries with
    | Some s => inr (skipn 5 s)
    | None =>
        inl (drgn_error_create DRGN_ERROR_LOOKUP
               "could not find name in .modinfo section")
    end.
Proof.
  intros He Ht Hd. unfold get_module_name. rewrite Hd.
  rewrite nul_terminated_nul_separated by assumption.
  clear Hd. induction He as [|s entries Hs He IH]; [reflexivity|].
  cbn [find].
  assert (Hsame : strncmp_eq s (bytes "name=") 5
                  = bytes_eqb (firstn 5 s) (bytes "name=")).
  { unfold strncmp_eq.
    assert (Hc : forall l : list byte, ~ In x00 l -> cstr l = l).
    { induction l as [|b l IHl]; intros Hl; [reflexivity|].
      cbn [cstr]. destruct (Byte.eqb b x00) eqn:E.
      - apply byte_eqb_eq in E. subst b. exfalso. apply Hl. now left.
      - f_equal. apply IHl. intros Hin. apply Hl. now right. }
    rewrite (Hc (firstn 5 s)).
    - reflexivity.
    - intros Hin. apply Hs. rewrite <- (firstn_skipn 5 s).
      apply in_or_app. now left. }
  rewrite Hsame.
  destruct (bytes_eqb (firstn 5 s) (bytes "name=")); [reflexivity|exact IH].
Qed.

Lemma get_module_name_first_name_entry_witness :
  get_module_name
    (mk_scn (Some (bytes ".modinfo"))
       (inr (nul_separated [bytes "license=GPL"; bytes "name=dummy";
                            bytes "name=other"]
             ++ bytes "name=cut"))
       [])
  = inr (bytes "dummy").
Proof.
  apply (get_module_name_first_name_entry
           (mk_scn (Some (bytes ".modinfo"))
              (inr (nul_separated [bytes "license=GPL"; bytes "name=dummy";
                                   bytes "name=other"]
                    ++ bytes "name=cut"))
              [])
           [bytes "license=GPL"; bytes "name=dummy"; bytes "name=other"]
           (bytes "name=cut")).
  - repeat constructor; vm_compute; intuition discriminate.
  - vm_compute. intuition discriminate.
  - reflexivity.
Defined.

(** ** VMCOREINFO: what a well-formed note parses to *)

Lemma cstr_prefix (z : list byte) : exists w, z = cstr z ++ w.
Proof.
  induction z as [|b z [w IH]]; [now exists []|].
  cbn [cstr]. destruct (Byte.eqb b x00).
  - now exists (b :: z).
  - exists w. cbn [app]. now f_equal.
Qed.

Lemma cstr_no_nul (l : list byte) : ~ In x00 l -> cstr l = l.
Proof.
  induction l as [|b l IH]; intros H; [reflexivity|].
  cbn [cstr]. destruct (Byte.eqb b x00) eqn:E.
  - apply byte_eqb_eq in E. subst b. exfalso. apply H. now left.
  - f_equal. apply IH. intros Hin. apply H. now right.
Qed.

Lemma strncmp_eq_firstn (line pre : list byte) :
  ~ In x00 pre ->
  strncmp_eq line pre (List.length pre)
  = bytes_eqb (firstn (List.length pre) line) pre.
Proof.
  intros Hp. unfold strncmp_eq.
  rewrite firstn_all, (cstr_no_nul pre Hp).
  set (z := firstn (List.length pre) line).
  destruct (bytes_eqb z pre) eqn:E.
  - apply bytes_eqb_eq in E. rewrite E, (cstr_no_nul pre Hp).
    now apply bytes_eqb_eq.
  - destruct (bytes_eqb (cstr z) pre) eqn:E'; [|reflexivity].
    apply bytes_eqb_eq in E'.
    destruct (cstr_prefix z) as [w Hw]. rewrite E' in Hw.
    assert (Hlen : (List.length z <= List.length pre)%nat)
      by (subst z; rewrite length_firstn; lia).
    rewrite Hw, length_app in Hlen.
    destruct w; [|cbn in Hlen; lia].
    rewrite app_nil_r in Hw.
    assert (Ht : bytes_eqb z pre = true) by now apply bytes_eqb_eq.
    congruence.
Qed.

Lemma firstn_line (n : nat) (l rest pre : list byte) :
  List.length pre = n -> ~ In newline pre ->
  bytes_eqb (firstn n (l ++ newline :: rest)) pre = bytes_eqb (firstn n l) pre.
Proof.
  intros Hn Hp.
  destruct (Nat.le_gt_cases n (List.length l)) as [Hle | Hgt].
  - rewrite firstn_app.
    replace (n - List.length l)%nat with 0%nat by lia.
    cbn [firstn]. now rewrite app_nil_r.
  - rewrite firstn_app, (firstn_all2 (n:=n) l) by lia.
    destruct (n - List.length l)%nat as [|k] eqn:Ek; [lia|].
    cbn [firstn].
    destruct (bytes_eqb (l ++ newline :: firstn k rest) pre) eqn:E1.
    + apply bytes_eqb_eq in E1. exfalso. apply Hp. rewrite <- E1.
      apply in_or_app. right. now left.
    + destruct (bytes_eqb l pre) eqn:E2; [|reflexivity].
      apply bytes_eqb_eq in E2. subst l. lia.
Qed.

Lemma linematch_line (prefix : string) (l rest : list byte) :
  ~ In x00 (bytes prefix) -> ~ In newline (bytes prefix) ->
  linematch (l ++ newline :: rest) prefix
  = if has_prefix prefix l
    then Some (skipn (List.length (bytes prefix)) l ++ newline :: rest)
    else None.
Proof.
  intros H0 Hn. unfold linematch, has_prefix.
  rewrite strncmp_eq_firstn by exact H0.
  rewrite firstn_line by (reflexivity || exact Hn).
  destruct (bytes_eqb (firstn (List.length (bytes prefix)) l) (bytes prefix))
    eqn:E; [|reflexivity].
  apply bytes_eqb_eq in E.
  assert (Hlen : (List.length (bytes prefix) <= List.length l)%nat).
  { rewrite <- E at 1. rewrite length_firstn. lia. }
  rewrite skipn_app.
  replace (List.length (bytes prefix) - List.length l)%nat with 0%nat by lia.
  reflexivity.
Qed.

Ltac z_compare :=
  repeat match goal with
         | H : (_ <=? _) = true |- _ => apply Z.leb_le in H
         | H : (_ <=? _) = false |- _ => apply Z.leb_gt in H
         | H : (_ <? _) = true |- _ => apply Z.ltb_lt in H
         | H : (_ <? _) = false |- _ => apply Z.ltb_ge in H
         | H : (_ =? _) = true |- _ => apply Z.eqb_eq in H
         | H : (_ =? _) = false |- _ => apply Z.eqb_neq in H
         end.

Lemma hex_digit_range (b : byte) :
  is_hex_digit b ->
  48 <= byte_val b <= 57 \/ 97 <= byte_val b <= 102 \/ 65 <= byte_val b <= 70.
Proof.
  unfold is_hex_digit, hex_digit.
  destruct (48 <=? byte_val b) eqn:E1, (byte_val b <=? 57) eqn:E2,
           (97 <=? byte_val b) eqn:E3, (byte_val b <=? 102) eqn:E4,
           (65 <=? byte_val b) eqn:E5, (byte_val b <=? 70) eqn:E6;
    cbn [andb]; intros Hd; try congruence; z_compare; lia.
Qed.

Lemma hex_digit_value (b : byte) (d : Z) : hex_digit b = Some d -> 0 <= d < 16.
Proof.
  unfold hex_digit.
  destruct (48 <=? byte_val b) eqn:E1, (byte_val b <=? 57) eqn:E2,
           (97 <=? byte_val b) eqn:E3, (byte_val b <=? 102) eqn:E4,
           (65 <=? byte_val b) eqn:E5, (byte_val b <=? 70) eqn:E6;
    cbn [andb]; intros Hd; inversion Hd; z_compare; lia.
Qed.

Lemma hex_digit_not_space (b : byte) : is_hex_digit b -> isspace b = false.
Proof.
  intros H. apply hex_digit_range in H. unfold isspace.
  destruct (byte_val b =? 32) eqn:Ea, (9 <=? byte_val b) eqn:Eb,
           (byte_val b <=? 13) eqn:Ec; cbn; try reflexivity; z_compare; lia.
Qed.

Lemma byte_eqb_val (a b : byte) :
  byte_val a <> byte_val b -> Byte.eqb a b = false.
Proof.
  intros H. apply byte_eqb_neq. intros ->. now apply H.
Qed.

Lemma hex_digits_app (digits tail : list byte) :
  Forall is_hex_digit digits -> ends_number tail ->
  forall acc,
    hex_digits (digits ++ tail) acc
    = (List.length digits,
       fold_left (fun acc b => 16 * acc + match hex_digit b with
                                          | Some d => d
                                          | None => 0
                                          end) digits acc).
Proof.
  intros Hd Ht. induction Hd as [|b digits Hb Hd IH]; intros acc.
  - cbn [app List.length fold_left].
    destruct tail as [|t tail]; [reflexivity|].
    destruct Ht as (Ht & _). cbn [hex_digits]. now rewrite Ht.
  - cbn [app hex_digits fold_left List.length].
    unfold is_hex_digit in Hb.
    destruct (hex_digit b) as [d|]; [|congruence].
    now rewrite IH.
Qed.

Lemma strtoull16_hex_tail (digits tail : list byte) :
  digits <> [] -> Forall is_hex_digit digits ->
  hex_number digits <= UINT64_MAX -> ends_number tail ->
  strtoull16 (digits ++ tail)
  = mk_strtoull (hex_number digits) (List.length digits) false.
Proof.
  intros Hne Hd Hmax Ht.
  destruct digits as [|b digits]; [congruence|].
  inversion Hd as [|? ? Hb Hd']; subst.
  pose proof (hex_digit_range b Hb) as Hr.
  unfold strtoull16. cbn [app skip_spaces].
  rewrite (hex_digit_not_space b Hb).
  rewrite (byte_eqb_val b "-"%byte), (byte_eqb_val b "+"%byte)
    by (change (byte_val "-"%byte) with 45;
        change (byte_val "+"%byte) with 43; lia).
  assert (Hprefix :
            match b :: digits ++ tail with
            | z :: x :: (d :: _) as r =>
                if Byte.eqb z "0"%byte
                   && (Byte.eqb x "x"%byte || Byte.eqb x "X"%byte)
                   && match hex_digit d with Some _ => true | None => false end
                then (2%nat, r) else (0%nat, b :: digits ++ tail)
            | _ => (0%nat, b :: digits ++ tail)
            end = (0%nat, b :: digits ++ tail)).
  { destruct digits as [|x digits]; cbn [app].
    - destruct tail as [|t [|d tail]]; try reflexivity.
      destruct Ht as (_ & Hx & HX). rewrite Hx, HX.
      now rewrite andb_false_r.
    - inversion Hd' as [|? ? Hx _]; subst.
      pose proof (hex_digit_range x Hx) as Hrx.
      destruct (digits ++ tail); [reflexivity|].
      rewrite (byte_eqb_val x "x"%byte), (byte_eqb_val x "X"%byte)
        by (change (byte_val "x"%byte) with 120;
            change (byte_val "X"%byte) with 88; lia).
      now rewrite andb_false_r. }
  rewrite Hprefix.
  change (b :: digits ++ tail) with ((b :: digits) ++ tail).
  rewrite (hex_digits_app (b :: digits) tail Hd Ht 0).
  fold (hex_number (b :: digits)).
  cbn [List.length].
  replace (UINT64_MAX <? hex_number (b :: digits)) with false
    by (symmetry; apply Z.ltb_ge; lia).
  reflexivity.
Qed.

Lemma strtoull16_hex (digits rest : list byte) :
  digits <> [] -> Forall is_hex_digit digits ->
  hex_number digits <= UINT64_MAX ->
  strtoull16 (digits ++ newline :: rest)
  = mk_strtoull (hex_number digits) (List.length digits) false.
Proof.
  intros Hne Hd Hmax. apply strtoull16_hex_tail; try assumption.
  repeat split.
Qed.

Lemma osrelease_prefix_chars :
  ~ In x00 (bytes "OSRELEASE=") /\ ~ In newline (bytes "OSRELEASE=")
  /\ ~ In x00 (bytes "KERNELOFFSET=") /\ ~ In newline (bytes "KERNELOFFSET=").
Proof. repeat split; vm_compute; intuition discriminate. Qed.

Lemma has_prefix_length (prefix : string) (l : list byte) :
  has_prefix prefix l = true ->
  (List.length (bytes prefix) <= List.length l)%nat.
Proof.
  unfold has_prefix. intros H. apply bytes_eqb_eq in H.
  rewrite <- H at 1. rewrite length_firstn. lia.
Qed.

Lemma parse_vmcoreinfo_lines_well_formed (fuel : nat) (l rest : list byte)
    (ret : vmcoreinfo) :
  well_formed_line l ->
  parse_vmcoreinfo_lines (S fuel) (l ++ newline :: rest) ret
  = parse_vmcoreinfo_lines fuel rest (vmcoreinfo_line ret l).
Proof.
  intros (Hnl & Hos & Hko).
  destruct osrelease_prefix_chars as (Ha & Hb & Hc & Hd).
  cbn [parse_vmcoreinfo_lines].
  rewrite (memchr_app newline l rest Hnl).
  rewrite !linematch_line by assumption.
  unfold vmcoreinfo_line.
  destruct (has_prefix "OSRELEASE=" l) eqn:E1.
  - specialize (Hos eq_refl). apply has_prefix_length in E1.
    change (List.length (bytes "OSRELEASE=")) with 10%nat in *.
    replace (sizeof_osrelease <=? Z.of_nat (List.length l - 10)) with false
      by (symmetry; apply Z.leb_gt; unfold sizeof_osrelease; lia).
    rewrite firstn_app, length_skipn, Nat.sub_diag, firstn_all2
      by (rewrite length_skipn; lia).
    cbn [firstn]. now rewrite app_nil_r.
  - destruct (has_prefix "KERNELOFFSET=" l) eqn:E2; [|reflexivity].
    destruct (Hko eq_refl eq_refl) as (Hne & Hdig & Hmax).
    change (List.length (bytes "KERNELOFFSET=")) with 13%nat in *.
    rewrite strtoull16_hex by assumption.
    cbn [ull_erange ull_consumed ull_value].
    rewrite length_skipn, Nat.eqb_refl. cbn [negb].
    replace (List.length l - 13 =? 0)%nat with false; [reflexivity|].
    symmetry. apply Nat.eqb_neq. intros Hz.
    apply Hne. apply length_zero_iff_nil. rewrite length_skipn. exact Hz.
Qed.

Lemma parse_vmcoreinfo_lines_fold (ls : list (list byte)) :
  forall (fuel : nat) (rest : list byte) (ret : vmcoreinfo),
    Forall well_formed_line ls ->
    parse_vmcoreinfo_lines (List.length ls + fuel) (lines ls ++ rest) ret
    = parse_vmcoreinfo_lines fuel rest (fold_left vmcoreinfo_line ls ret).
Proof.
  induction ls as [|l ls IH]; intros fuel rest ret Hwf; [reflexivity|].
  inversion Hwf as [|? ? Hl Hls]; subst.
  change (lines (l :: ls)) with ((l ++ [newline]) ++ lines ls).
  rewrite <- !app_assoc. cbn [app List.length Nat.add fold_left].
  rewrite parse_vmcoreinfo_lines_well_formed by exact Hl.
  now apply IH.
Qed.

Lemma parse_vmcoreinfo_lines_no_newline (fuel : nat) (tail : list byte)
    (ret : vmcoreinfo) :
  ~ In newline tail -> parse_vmcoreinfo_lines fuel tail ret = inr ret.
Proof.
  intros H. destruct fuel as [|fuel]; [reflexivity|].
  cbn [parse_vmcoreinfo_lines].
  assert (Hm : memchr newline tail = None).
  { induction tail as [|b tail IH]; [reflexivity|].
    cbn [memchr]. destruct (Byte.eqb b newline) eqn:E.
    - apply byte_eqb_eq in E. subst b. exfalso. apply H. now left.
    - rewrite IH; [reflexivity|]. intros Hin. apply H. now right. }
  now rewrite Hm.
Qed.

Lemma parse_vmcoreinfo_lines_of_well_formed (ls : list (list byte))
    (tail : list byte) :
  Forall well_formed_line ls -> ~ In newline tail ->
  parse_vmcoreinfo_lines (S (List.length (lines ls ++ tail)))
    (lines ls ++ tail) (mk_vmcoreinfo [] 0)
  = inr (fold_left vmcoreinfo_line ls (mk_vmcoreinfo [] 0)).
Proof.
  intros Hwf Ht.
  rewrite (parse_vmcoreinfo_lines_fuel _
             (List.length ls + S (List.length (lines ls ++ tail))))
    by lia.
  rewrite parse_vmcoreinfo_lines_fold by exact Hwf.
  now apply parse_vmcoreinfo_lines_no_newline.
Qed.

(** X13.  What a well-formed note parses to.  On complete lines that are
    well formed, followed or not by a line without its newline,
    [parse_vmcoreinfo] returns the release of the last OSRELEASE= line and
    the number of the last KERNELOFFSET= line, 0 when there is none; lines
    with another key and the incomplete line are ignored; without an
    OSRELEASE= line, or when the last one is empty, it fails with OTHER. *)
Theorem parse_vmcoreinfo_of_well_formed_lines (ls : list (list byte))
    (tail : list byte) :
  Forall well_formed_line ls -> ~ In newline tail ->
  parse_vmcoreinfo (lines ls ++ tail)
  = let v := fold_left vmcoreinfo_line ls (mk_vmcoreinfo [] 0) in
    if osrelease_is_empty v then
      inl (drgn_error_create DRGN_ERROR_OTHER
             "VMCOREINFO does not contain valid OSRELEASE")
    else inr v.
Proof.
  intros Hwf Ht. unfold parse_vmcoreinfo.
  now rewrite parse_vmcoreinfo_lines_of_well_formed.
Qed.

Lemma parse_vmcoreinfo_of_well_formed_lines_witness :
  parse_vmcoreinfo
    (lines [bytes "CRASHTIME=1570000000"; bytes "OSRELEASE=4.0.0-old";
            bytes "KERNELOFFSET=1"; bytes "OSRELEASE=5.4.0-test";
            bytes "PAGESIZE=4096"; bytes "KERNELOFFSET=1a000000"]
     ++ bytes "partial")
  = inr (mk_vmcoreinfo (bytes "5.4.0-test") 0x1a000000).
Proof.
  apply (parse_vmcoreinfo_of_well_formed_lines
           [bytes "CRASHTIME=1570000000"; bytes "OSRELEASE=4.0.0-old";
            bytes "KERNELOFFSET=1"; bytes "OSRELEASE=5.4.0-test";
            bytes "PAGESIZE=4096"; bytes "KERNELOFFSET=1a000000"]
           (bytes "partial")).
  - repeat constructor; vm_compute;
      try (intuition discriminate); try discriminate; try lia.
  - vm_compute. intuition discriminate.
Defined.

(** ** VMCOREINFO: what an accepted note holds *)

Lemma hex_digits_nonneg (s : list byte) :
  forall acc, 0 <= acc -> 0 <= snd (hex_digits s acc).
Proof.
  induction s as [|b s IH]; intros acc Hacc; [exact Hacc|].
  cbn [hex_digits].
  destruct (hex_digit b) as [d|] eqn:Ed; [|exact Hacc].
  apply hex_digit_value in Ed.
  specialize (IH (16 * acc + d) ltac:(lia)).
  destruct (hex_digits s (16 * acc + d)). exact IH.
Qed.

Lemma strtoull16_value_range (s : list byte) :
  ull_erange (strtoull16 s) = false -> is_u64 (ull_value (strtoull16 s)).
Proof.
  unfold strtoull16.
  destruct (skip_spaces s) as [nspace s1].
  repeat match goal with
         | |- context [match ?x with _ => _ end] =>
             lazymatch x with
             | hex_digits _ _ => fail
             | _ => destruct x
             end
         end;
    match goal with
    | |- context [hex_digits ?s3 0] =>
        pose proof (hex_digits_nonneg s3 0 ltac:(lia)) as Hv;
        destruct (hex_digits s3 0) as [ndigits v]; cbn [snd] in Hv;
        destruct ndigits; [intros _; cbn; unfold is_u64, UINT64_MAX; lia|];
        destruct (UINT64_MAX <? v) eqn:E; [discriminate|];
        intros _; apply Z.ltb_ge in E; cbn [ull_value];
        unfold is_u64, UINT64_MAX, wrap64 in *;
        try (pose proof (Z.mod_pos_bound (- v) (2 ^ 64) ltac:(lia))); lia
    end.
Qed.

Lemma parse_vmcoreinfo_lines_invariant (fuel : nat) :
  forall (line : list byte) (ret v : vmcoreinfo),
    parse_vmcoreinfo_lines fuel line ret = inr v ->
    Z.of_nat (List.length (osrelease ret)) < sizeof_osrelease ->
    is_u64 (kaslr_offset ret) ->
    Z.of_nat (List.length (osrelease v)) < sizeof_osrelease
    /\ is_u64 (kaslr_offset v).
Proof.
  induction fuel as [|fuel IH]; intros line ret v H Hos Hko.
  - inversion H; subst. auto.
  - cbn [parse_vmcoreinfo_lines] in H.
    destruct (memchr newline line) as [[before next_line]|];
      [|inversion H; subst; auto].
    destruct (linematch line "OSRELEASE=") as [value|].
    + destruct (sizeof_osrelease <=? Z.of_nat (List.length before - 10))
        eqn:E; [discriminate|].
      apply Z.leb_gt in E.
      apply IH in H; [exact H| |exact Hko].
      cbn [osrelease]. rewrite length_firstn. lia.
    + destruct (linematch line "KERNELOFFSET=") as [value|];
        [|now apply IH in H].
      destruct (ull_erange (strtoull16 value)) eqn:Er; [discriminate|].
      destruct (_ || _); [discriminate|].
      apply IH in H; [exact H|exact Hos|].
      cbn [kaslr_offset]. now apply strtoull16_value_range.
Qed.

(** X14.  What an accepted note holds.  Whatever the descriptor, when
    [parse_vmcoreinfo] returns NULL the release is not empty, it is shorter
    than the 64 bytes of [osrelease], so that its NUL fits, and the KASLR
    offset is a 64-bit value. *)
Theorem parse_vmcoreinfo_accepts_only_valid (desc : list byte)
    (v : vmcoreinfo) :
  parse_vmcoreinfo desc = inr v ->
  (exists b rest, osrelease v = b :: rest /\ b <> x00)
  /\ Z.of_nat (List.length (osrelease v)) < sizeof_osrelease
  /\ is_u64 (kaslr_offset v).
Proof.
  unfold parse_vmcoreinfo.
  destruct (parse_vmcoreinfo_lines (S (List.length desc)) desc
              (mk_vmcoreinfo [] 0)) as [err|ret] eqn:E; [discriminate|].
  destruct (osrelease_is_empty ret) eqn:Ee; [discriminate|].
  intros H; inversion H; subst ret; clear H.
  split.
  - unfold osrelease_is_empty in Ee.
    destruct (osrelease v) as [|b rest]; [discriminate|].
    exists b, rest. split; [reflexivity|]. now apply byte_eqb_neq.
  - apply (parse_vmcoreinfo_lines_invariant _ _ _ _ E).
    + cbn. unfold sizeof_osrelease. lia.
    + cbn. unfold is_u64, UINT64_MAX. lia.
Qed.

Lemma parse_vmcoreinfo_accepts_only_valid_witness :
  parse_vmcoreinfo
    (lines [bytes "OSRELEASE=5.4.0-test"; bytes "KERNELOFFSET=-1"])
  = inr (mk_vmcoreinfo (bytes "5.4.0-test") UINT64_MAX)
  /\ is_u64 (kaslr_offset (mk_vmcoreinfo (bytes "5.4.0-test") UINT64_MAX)).
Proof.
  split; [vm_compute; reflexivity|].
  apply (parse_vmcoreinfo_accepts_only_valid
           (lines [bytes "OSRELEASE=5.4.0-test"; bytes "KERNELOFFSET=-1"])).
  vm_compute; reflexivity.
Defined.

(** X15.  A release of 64 bytes or more is refused: after well-formed
    lines, an OSRELEASE= line whose value has at least 64 bytes makes
    [parse_vmcoreinfo] fail with OTHER, whatever follows it.  Values of up
    to 63 bytes are well formed and accepted. *)
Theorem parse_vmcoreinfo_osrelease_too_long (ls : list (list byte))
    (release rest : list byte) :
  Forall well_formed_line ls -> ~ In newline release ->
  (64 <= List.length release)%nat ->
  parse_vmcoreinfo
    (lines ls ++ bytes "OSRELEASE=" ++ release ++ newline :: rest)
  = inl (drgn_error_create DRGN_ERROR_OTHER
           "OSRELEASE in VMCOREINFO is too long").
Proof.
  intros Hwf Hnl Hlen. unfold parse_vmcoreinfo.
  set (desc := lines ls ++ bytes "OSRELEASE=" ++ release ++ newline :: rest).
  rewrite (parse_vmcoreinfo_lines_fuel _
             (List.length ls + S (List.length desc))) by lia.
  set (n := List.length desc). clearbody n. subst desc.
  rewrite parse_vmcoreinfo_lines_fold by exact Hwf.
  destruct osrelease_prefix_chars as (Ha & Hb & _ & _).
  assert (Hl : ~ In newline (bytes "OSRELEASE=" ++ release)).
  { intros Hin. apply in_app_or in Hin as [Hin | Hin]; auto. }
  rewrite app_assoc.
  cbn [parse_vmcoreinfo_lines].
  rewrite (memchr_app newline _ rest Hl).
  rewrite linematch_line by assumption.
  assert (Hp : has_prefix "OSRELEASE=" (bytes "OSRELEASE=" ++ release) = true).
  { unfold has_prefix. rewrite firstn_app, firstn_all, Nat.sub_diag.
    cbn [firstn]. rewrite app_nil_r. now apply bytes_eqb_eq. }
  rewrite Hp.
  replace (sizeof_osrelease
           <=? Z.of_nat (List.length (bytes "OSRELEASE=" ++ release) - 10))
    with true; [reflexivity|].
  symmetry. apply Z.leb_le. rewrite length_app.
  change (List.length (bytes "OSRELEASE=")) with 10%nat.
  unfold sizeof_osrelease. lia.
Qed.

Lemma parse_vmcoreinfo_osrelease_too_long_witness :
  parse_vmcoreinfo
    (lines [bytes "KERNELOFFSET=1a000000"] ++ bytes "OSRELEASE="
     ++ repeat "a"%byte 64 ++ newline :: bytes "OSRELEASE=5.4.0-test"
     ++ [newline])
  = inl (drgn_error_create DRGN_ERROR_OTHER
           "OSRELEASE in VMCOREINFO is too long").
Proof.
  apply (parse_vmcoreinfo_osrelease_too_long
           [bytes "KERNELOFFSET=1a000000"] (repeat "a"%byte 64)
           (bytes "OSRELEASE=5.4.0-test" ++ [newline])).
  - repeat constructor; vm_compute;
      try (intuition discriminate); try discriminate; try lia.
  - vm_compute. intuition discriminate.
  - vm_compute. lia.
Defined.

(** ** VMCOREINFO from sysfs *)

(** X16.  The note behind /sys/kernel/vmcoreinfo: when the file gives an
    address and a size, the buffer is allocated and the physical read
    returns a VMCOREINFO note whose descriptor fits the size,
    [read_vmcoreinfo_from_sysfs] returns what [parse_vmcoreinfo] makes of
    the descriptor: the bytes from offset 24 on, as many as the header
    says. *)
Theorem read_vmcoreinfo_from_sysfs_of_note (env : bootstrap_env)
    (heap : alloc_oracle) (addr size type : Z) (desc trailing : list byte) :
  env_sysfs env = inr (Some (addr, size)) ->
  fst (alloc heap) = true ->
  env_read_physical env addr size
  = inr (vmcoreinfo_note type desc ++ trailing) ->
  24 + Z.of_nat (List.length desc) <= size <= UINT64_MAX ->
  Z.of_nat (List.length desc) < 2 ^ 32 ->
  fst (read_vmcoreinfo_from_sysfs env heap) = parse_vmcoreinfo desc.
Proof.
  intros Hs Ha Hr Hsize Hlen. unfold read_vmcoreinfo_from_sysfs.
  rewrite Hs. destruct (alloc heap) as [ok heap']. cbn [fst] in Ha. subst ok.
  cbn [negb]. rewrite Hr.
  set (buf := vmcoreinfo_note type desc ++ trailing).
  assert (H1 : firstn 4 buf = le_bytes 4 11) by reflexivity.
  assert (H2 : firstn 4 (skipn 4 buf)
               = le_bytes 4 (Z.of_nat (List.length desc))) by reflexivity.
  assert (H3 : firstn 10 (skipn 12 buf) = bytes "VMCOREINFO") by reflexivity.
  assert (H4 : skipn 24 buf = desc ++ trailing) by reflexivity.
  rewrite H1, H2, H3, H4, !le_value_le_bytes.
  change (11 mod 256 ^ Z.of_nat 4) with 11.
  change (256 ^ Z.of_nat 4) with (2 ^ 32).
  rewrite Z.mod_small by lia.
  replace (size <? 24) with false by (symmetry; apply Z.ltb_ge; lia).
  rewrite wrap64_small by (unfold is_u64; lia).
  replace (size - 24 <? Z.of_nat (List.length desc)) with false
    by (symmetry; apply Z.ltb_ge; lia).
  cbn [negb orb Z.eqb Pos.eqb].
  replace (bytes_eqb (bytes "VMCOREINFO") (bytes "VMCOREINFO")) with true
    by reflexivity.
  cbn [negb orb fst].
  now rewrite Nat2Z.id, firstn_app, firstn_all, Nat.sub_diag, app_nil_r.
Qed.

Lemma read_vmcoreinfo_from_sysfs_of_note_witness :
  let desc := lines [bytes "OSRELEASE=5.4.0-test";
                     bytes "KERNELOFFSET=1a000000"] in
  let env := with_sysfs (example_env []) (inr (Some (0x2000, 69)))
               (fun _ _ => inr (vmcoreinfo_note 0 desc ++ [x00; x00])) in
  fst (read_vmcoreinfo_from_sysfs env [])
  = inr (mk_vmcoreinfo (bytes "5.4.0-test") 0x1a000000).
Proof.
  cbv zeta.
  rewrite (read_vmcoreinfo_from_sysfs_of_note
             (with_sysfs (example_env []) (inr (Some (0x2000, 69)))
                (fun _ _ =>
                   inr (vmcoreinfo_note 0
                          (lines [bytes "OSRELEASE=5.4.0-test";
                                  bytes "KERNELOFFSET=1a000000"])
                        ++ [x00; x00])))
             [] 0x2000 69 0
             (lines [bytes "OSRELEASE=5.4.0-test";
                     bytes "KERNELOFFSET=1a000000"])
             [x00; x00]).
  - vm_compute. reflexivity.
  - reflexivity.
  - reflexivity.
  - reflexivity.
  - unfold UINT64_MAX. simpl. lia.
  - simpl. lia.
Defined.

(** ** Opening the debugging information *)

Lemma open_vmlinux_none (env : bootstrap_env) (release : list byte)
    (paths : list (string * string)) :
  forall found_vmlinux,
    open_vmlinux env paths release found_vmlinux = None ->
    exists p, In p paths /\ opens env (vmlinux_path release p) = true.
Proof.
  induction paths as [|[before after] paths IH]; intros found_vmlinux;
    [discriminate|].
  cbn [open_vmlinux].
  destruct (env_dindex_open env (bytes before ++ cstr release ++ bytes after))
    as [err|e] eqn:Eo.
  - intros H.
    assert (Hrec : exists fv, open_vmlinux env paths release fv = None).
    { destruct (is_enoent err); [eauto|].
      destruct (is_missing_debug err); [eauto|discriminate]. }
    destruct Hrec as [fv Hfv]. destruct (IH fv Hfv) as (p & Hin & Hp).
    exists p. split; [now right|exact Hp].
  - intros _. exists (before, after). split; [now left|].
    unfold opens, vmlinux_path. cbn [fst snd]. now rewrite Eo.
Qed.

Lemma open_vmlinux_all_missing (env : bootstrap_env) (release : list byte)
    (paths : list (string * string)) :
  forall found_vmlinux,
    (forall p, In p paths ->
       is_absent env (vmlinux_path release p) = true
       \/ lacks_debug env (vmlinux_path release p) = true) ->
    open_vmlinux env paths release found_vmlinux
    = Some (drgn_error_create DRGN_ERROR_MISSING_DEBUG
              (if found_vmlinux
                  || existsb (fun p => lacks_debug env (vmlinux_path release p))
                       paths
               then "vmlinux does not have debug information"
               else "could not find vmlinux")).
Proof.
  induction paths as [|[before after] paths IH]; intros found_vmlinux H.
  - cbn. now rewrite orb_false_r.
  - cbn [open_vmlinux existsb].
    assert (Hhd := H (before, after) (or_introl eq_refl)).
    assert (Htl : forall p, In p paths ->
                    is_absent env (vmlinux_path release p) = true
                    \/ lacks_debug env (vmlinux_path release p) = true)
      by (intros p Hin; apply H; now right).
    unfold is_absent, lacks_debug, vmlinux_path in Hhd |- *.
    cbn [fst snd] in Hhd |- *.
    destruct (env_dindex_open env (bytes before ++ cstr release ++ bytes after))
      as [err|e]; [|destruct Hhd; discriminate].
    destruct (is_enoent err); cbn [negb andb orb] in Hhd |- *.
    + now rewrite IH.
    + destruct (is_missing_debug err); [|destruct Hhd; discriminate].
      rewrite IH by exact Htl. cbn [orb]. now rewrite orb_true_r.
Qed.

(** X17.  vmlinux comes first.  [open_kernel_files] returns NULL only if
    one of the three candidates of [vmlinux_paths] was opened and the walk
    over the modules returned NULL.  When each candidate is absent or has
    no debugging information, it fails with MISSING_DEBUG before any module
    is looked for, and the message tells whether a vmlinux without
    debugging information was met. *)
Theorem open_kernel_files_vmlinux (env : bootstrap_env) (release : list byte) :
  (open_kernel_files env release = None ->
   (exists p, In p vmlinux_paths /\ opens env (vmlinux_path release p) = true)
   /\ env_walk_modules env release = None)
  /\ ((forall p, In p vmlinux_paths ->
         is_absent env (vmlinux_path release p) = true
         \/ lacks_debug env (vmlinux_path release p) = true) ->
      open_kernel_files env release
      = Some (drgn_error_create DRGN_ERROR_MISSING_DEBUG
                (if existsb (fun p => lacks_debug env (vmlinux_path release p))
                      vmlinux_paths
                 then "vmlinux does not have debug information"
                 else "could not find vmlinux"))).
Proof.
  unfold open_kernel_files. split.
  - destruct (open_vmlinux env vmlinux_paths release false) as [err|] eqn:E;
      [discriminate|].
    intros H. split; [|exact H].
    now apply open_vmlinux_none in E.
  - intros H.
    now rewrite (open_vmlinux_all_missing env release vmlinux_paths false H).
Qed.

Lemma open_kernel_files_vmlinux_witness :
  let stripped := drgn_error_create DRGN_ERROR_MISSING_DEBUG "no .debug_info" in
  let env := with_dindex_open (example_env [])
               (fun p => if bytes_eqb p (bytes "/boot/vmlinux-5.4.0-test")
                         then inl stripped
                         else inl (drgn_error_create_os ENOENT "" "open")) in
  open_kernel_files env (bytes "5.4.0-test")
  = Some (drgn_error_create DRGN_ERROR_MISSING_DEBUG
            "vmlinux does not have debug information")
  /\ open_kernel_files (example_env []) (bytes "5.4.0-test") = None.
Proof.
  cbv zeta. split; [|reflexivity].
  apply (proj2 (open_kernel_files_vmlinux
                  (with_dindex_open (example_env [])
                     (fun p =>
                        if bytes_eqb p (bytes "/boot/vmlinux-5.4.0-test")
                        then inl (drgn_error_create DRGN_ERROR_MISSING_DEBUG
                                    "no .debug_info")
                        else inl (drgn_error_create_os ENOENT "" "open")))
                  (bytes "5.4.0-test"))).
  intros p [<- | [<- | [<- | []]]]; vm_compute; auto.
Defined.

Lemma open_userspace_loop_geometry (env : bootstrap_env)
    (mappings : list file_mapping) :
  forall success,
    map mapping_geometry (snd (open_userspace_loop env mappings success))
    = map mapping_geometry mappings.
Proof.
  induction mappings as [|m mappings IH]; intros success; [reflexivity|].
  cbn [open_userspace_loop].
  destruct (env_dindex_open env _) as [err|e].
  - destruct (_ || _); [|reflexivity].
    specialize (IH success).
    destruct (open_userspace_loop env mappings success) as [[r s'] rest'].
    cbn [snd map] in *. now rewrite IH.
  - specialize (IH true).
    destruct (open_userspace_loop env mappings true) as [[r s'] rest'].
    cbn [snd map] in *. now rewrite IH.
Qed.

Lemma open_userspace_loop_result (env : bootstrap_env)
    (mappings : list file_mapping) :
  forall success,
    forallb (fun m => opens env (mapping_path m)
                      || is_passed_over env (mapping_path m)) mappings = true ->
    open_userspace_loop env mappings success
    = (None,
       success || existsb (fun m => opens env (mapping_path m)) mappings,
       map (fun m => set_elf m match env_dindex_open env (mapping_path m) with
                               | inr e => e
                               | inl _ => None
                               end) mappings).
Proof.
  induction mappings as [|m mappings IH]; intros success H.
  - cbn. now rewrite orb_false_r.
  - cbn [forallb] in H. apply andb_true_iff in H as [Hm Hrest].
    cbn [open_userspace_loop existsb map].
    unfold opens, is_passed_over, mapping_path in *.
    destruct (env_dindex_open env match path m with
                                  | Some p => p
                                  | None => []
                                  end) as [err|e].
    + cbn [orb] in Hm. rewrite Hm, (IH success Hrest). reflexivity.
    + rewrite (IH true Hrest). cbn [orb]. now rewrite orb_true_r.
Qed.

Lemma open_userspace_loop_fatal (env : bootstrap_env)
    (mappings : list file_mapping) :
  forall success,
    forallb (fun m => opens env (mapping_path m)
                      || is_passed_over env (mapping_path m)) mappings = false ->
    exists err, fst (fst (open_userspace_loop env mappings success)) = Some err.
Proof.
  induction mappings as [|m mappings IH]; intros success H; [discriminate|].
  cbn [forallb] in H. cbn [open_userspace_loop].
  unfold opens, is_passed_over, mapping_path in *.
  destruct (env_dindex_open env match path m with
                                | Some p => p
                                | None => []
                                end) as [err|e].
  - cbn [orb] in H.
    destruct (is_enoent err
              || drgn_error_code_eqb (code err) DRGN_ERROR_NOT_ELF
              || is_missing_debug err); [|now exists err].
    cbn [andb] in H. destruct (IH success H) as [err' He].
    destruct (open_userspace_loop env mappings success) as [[r s'] rest'].
    exists err'. exact He.
  - cbn [orb andb] in H. destruct (IH true H) as [err' He].
    destruct (open_userspace_loop env mappings true) as [[r s'] rest'].
    exists err'. exact He.
Qed.

Lemma open_userspace_files_geometry (env : bootstrap_env)
    (mappings : list file_mapping) :
  map mapping_geometry (snd (open_userspace_files env mappings))
  = map mapping_geometry mappings.
Proof.
  unfold open_userspace_files.
  pose proof (open_userspace_loop_geometry env mappings false) as H.
  destruct (open_userspace_loop env mappings false) as [[[err|] success] ms];
    [exact H|].
  destruct success; exact H.
Qed.

Lemma open_userspace_files_success (env : bootstrap_env)
    (mappings mappings' : list file_mapping) :
  open_userspace_files env mappings = (None, mappings') ->
  forallb (fun m => opens env (mapping_path m)
                    || is_passed_over env (mapping_path m)) mappings = true
  /\ existsb (fun m => opens env (mapping_path m)) mappings = true
  /\ mappings'
     = map (fun m => set_elf m match env_dindex_open env (mapping_path m) with
                               | inr e => e
                               | inl _ => None
                               end) mappings.
Proof.
  unfold open_userspace_files.
  destruct (forallb (fun m => opens env (mapping_path m)
                              || is_passed_over env (mapping_path m)) mappings)
    eqn:Ef.
  - rewrite (open_userspace_loop_result env mappings false Ef). cbn [orb].
    destruct (existsb (fun m => opens env (mapping_path m)) mappings);
      intros H; inversion H. auto.
  - destruct (open_userspace_loop_fatal env mappings false Ef) as [err He].
    destruct (open_userspace_loop env mappings false) as [[r s'] rest'].
    cbn [fst] in He. subst r. discriminate.
Qed.

(** X18.  When [open_userspace_files] succeeds.  It returns NULL exactly
    when [drgn_dwarf_index_open] opens at least one of the mapped files
    and fails on the others only with the errors that are passed over: a
    file that does not exist, a file that is not an ELF file, a file
    without debugging information.  The table then differs from the one
    it was given only in the ELF handles: the handle that was stored for
    a file that was opened, NULL for the others. *)
Theorem open_userspace_files_succeeds_iff (env : bootstrap_env)
    (mappings : list file_mapping) :
  (fst (open_userspace_files env mappings) = None
   <-> forallb (fun m => opens env (mapping_path m)
                         || is_passed_over env (mapping_path m)) mappings = true
       /\ existsb (fun m => opens env (mapping_path m)) mappings = true)
  /\ (fst (open_userspace_files env mappings) = None ->
      snd (open_userspace_files env mappings)
      = map (fun m => set_elf m match env_dindex_open env (mapping_path m) with
                                | inr e => e
                                | inl _ => None
                                end) mappings).
Proof.
  split.
  - unfold open_userspace_files.
    destruct (forallb (fun m => opens env (mapping_path m)
                                || is_passed_over env (mapping_path m))
                mappings) eqn:Ef.
    + rewrite (open_userspace_loop_result env mappings false Ef). cbn [orb].
      destruct (existsb (fun m => opens env (mapping_path m)) mappings);
        cbn [fst].
      * split; [auto|reflexivity].
      * split; [discriminate|]. intros [_ H]. discriminate.
    + destruct (open_userspace_loop_fatal env mappings false Ef) as [err He].
      destruct (open_userspace_loop env mappings false) as [[r s'] rest'].
      cbn [fst] in He. subst r. cbn [fst].
      split; [discriminate|]. intros [H _]. discriminate.
  - intros H.
    destruct (open_userspace_files env mappings) as [r mappings'] eqn:E.
    cbn [fst] in H. subst r. cbn [snd].
    now apply open_userspace_files_success in E.
Qed.

Lemma open_userspace_files_succeeds_iff_witness :
  let missing := drgn_error_create_os ENOENT "/lib/gone.so" "open" in
  let env := with_dindex_open (example_env [])
               (fun p => if bytes_eqb p (bytes "/bin/x") then inr (Some 900)
                         else inl missing) in
  let text_mapping := mk_mapping 0x400000 0x401000 0 (Some (bytes "/bin/x")) in
  let lib_mapping :=
    mk_mapping 0x7f0000 0x7f1000 0 (Some (bytes "/lib/gone.so")) in
  fst (open_userspace_files env [text_mapping None; lib_mapping None]) = None
  /\ snd (open_userspace_files env [text_mapping None; lib_mapping None])
     = [text_mapping (Some 900); lib_mapping None].
Proof.
  cbv zeta. split; [reflexivity|].
  rewrite (proj2 (open_userspace_files_succeeds_iff
                    (with_dindex_open (example_env [])
                       (fun p =>
                          if bytes_eqb p (bytes "/bin/x")
                          then inr (Some 900)
                          else inl (drgn_error_create_os ENOENT
                                      "/lib/gone.so" "open")))
                    [mk_mapping 0x400000 0x401000 0 (Some (bytes "/bin/x"))
                       None;
                     mk_mapping 0x7f0000 0x7f1000 0
                       (Some (bytes "/lib/gone.so")) None])
             eq_refl).
  reflexivity.
Defined.

(** ** The cleanup stack: registering and removing *)

Lemma set_cleanup_same (prog : drgn_program) :
  set_cleanup prog (cleanup prog) = prog.
Proof. now destruct prog. Qed.

Lemma cleanup_cb_eqb_refl (c : cleanup_cb) : cleanup_cb_eqb c c = true.
Proof. now destruct c. Qed.

Lemma cleanup_cb_eqb_eq (a b : cleanup_cb) :
  cleanup_cb_eqb a b = true <-> a = b.
Proof. destruct a, b; cbn; split; intros H; congruence. Qed.

(** X19.  Removing undoes registering: after a registration that
    succeeded, [drgn_program_remove_cleanup] with the same callback and
    argument returns true and leaves the program as it was before the
    registration. *)
Theorem remove_cleanup_undoes_add (prog prog' : drgn_program)
    (cb' : cleanup_cb) (arg' : Z) (heap heap' : alloc_oracle) :
  drgn_program_add_cleanup prog cb' arg' heap = (None, prog', heap') ->
  drgn_program_remove_cleanup prog' cb' arg' = (true, prog).
Proof.
  unfold drgn_program_add_cleanup.
  destruct (alloc heap) as [[|] h]; intros H; inversion H; subst; clear H.
  unfold drgn_program_remove_cleanup. cbn [cleanup set_cleanup remove_first_cleanup cb arg].
  rewrite cleanup_cb_eqb_refl, Z.eqb_refl. cbn [andb].
  now destruct prog.
Qed.

Lemma remove_cleanup_undoes_add_witness :
  let prog := mk_program 200 500 700 [mk_cleanup cleanup_fd 3] 0
                (mk_vmcoreinfo [] 0) [] in
  exists prog',
    drgn_program_add_cleanup prog cleanup_free 300 [] = (None, prog', [])
    /\ drgn_program_remove_cleanup prog' cleanup_free 300 = (true, prog).
Proof.
  cbv zeta. eexists. split; [reflexivity|].
  apply (remove_cleanup_undoes_add
           (mk_program 200 500 700 [mk_cleanup cleanup_fd 3] 0
              (mk_vmcoreinfo [] 0) [])
           _ cleanup_free 300 [] []).
  reflexivity.
Defined.

Lemma remove_first_cleanup_found (l1 l2 : list drgn_cleanup)
    (cb' : cleanup_cb) (arg' : Z) :
  ~ In (mk_cleanup cb' arg') l1 ->
  remove_first_cleanup (l1 ++ mk_cleanup cb' arg' :: l2) cb' arg'
  = (true, l1 ++ l2).
Proof.
  induction l1 as [|c l1 IH]; intros H.
  - cbn. now rewrite cleanup_cb_eqb_refl, Z.eqb_refl.
  - cbn [app remove_first_cleanup].
    destruct (cleanup_cb_eqb (cb c) cb' && (arg c =? arg')) eqn:E.
    + apply andb_true_iff in E as [E1 E2].
      apply cleanup_cb_eqb_eq in E1. apply Z.eqb_eq in E2.
      exfalso. apply H. left. destruct c; cbn in *; now subst.
    + rewrite IH by (intros Hin; apply H; now right). reflexivity.
Qed.

Lemma remove_first_cleanup_absent (l : list drgn_cleanup)
    (cb' : cleanup_cb) (arg' : Z) :
  ~ In (mk_cleanup cb' arg') l ->
  remove_first_cleanup l cb' arg' = (false, l).
Proof.
  induction l as [|c l IH]; intros H; [reflexivity|].
  cbn [remove_first_cleanup].
  destruct (cleanup_cb_eqb (cb c) cb' && (arg c =? arg')) eqn:E.
  - apply andb_true_iff in E as [E1 E2].
    apply cleanup_cb_eqb_eq in E1. apply Z.eqb_eq in E2.
    exfalso. apply H. left. destruct c; cbn in *; now subst.
  - rewrite IH by (intros Hin; apply H; now right). reflexivity.
Qed.

(** X20.  What [drgn_program_remove_cleanup] removes: of the cleanups
    with the given callback and argument, the one registered last, and
    only that one; the others stay on the stack in their order.  When no
    such cleanup is registered it returns false and changes nothing. *)
Theorem remove_cleanup_takes_latest_registration (prog : drgn_program)
    (cb' : cleanup_cb) (arg' : Z) :
  (forall l1 l2,
      cleanup prog = l1 ++ mk_cleanup cb' arg' :: l2 ->
      ~ In (mk_cleanup cb' arg') l1 ->
      drgn_program_remove_cleanup prog cb' arg'
      = (true, set_cleanup prog (l1 ++ l2)))
  /\ (~ In (mk_cleanup cb' arg') (cleanup prog) ->
      drgn_program_remove_cleanup prog cb' arg' = (false, prog)).
Proof.
  split.
  - intros l1 l2 Hc Hn. unfold drgn_program_remove_cleanup.
    now rewrite Hc, remove_first_cleanup_found.
  - intros Hn. unfold drgn_program_remove_cleanup.
    rewrite remove_first_cleanup_absent by exact Hn.
    now rewrite set_cleanup_same.
Qed.

Lemma remove_cleanup_takes_latest_registration_witness :
  let stack l := mk_program 200 500 700 l 0 (mk_vmcoreinfo [] 0) [] in
  drgn_program_remove_cleanup
    (stack [mk_cleanup cleanup_free 300; mk_cleanup cleanup_fd 3;
            mk_cleanup cleanup_free 301; mk_cleanup cleanup_fd 3])
    cleanup_fd 3
  = (true,
     stack [mk_cleanup cleanup_free 300; mk_cleanup cleanup_free 301;
            mk_cleanup cleanup_fd 3]).
Proof.
  cbv zeta.
  apply (proj1 (remove_cleanup_takes_latest_registration
                  (mk_program 200 500 700
                     [mk_cleanup cleanup_free 300; mk_cleanup cleanup_fd 3;
                      mk_cleanup cleanup_free 301; mk_cleanup cleanup_fd 3]
                     0 (mk_vmcoreinfo [] 0) [])
                  cleanup_fd 3)
           [mk_cleanup cleanup_free 300]
           [mk_cleanup cleanup_free 301; mk_cleanup cleanup_fd 3]).
  - reflexivity.
  - intros [H | []]. discriminate H.
Defined.

(** ** Reading a C string: what a result says about the memory *)

Section ReadResult.

Variable rd : memory_reader.
Variable physical : bool.
Variable max_size : Z.

Lemma reads_string_nil (addr : Z) : reads_string rd physical addr [].
Proof. split; [constructor|]. intros i Hi. cbn in Hi. lia. Qed.

Lemma reads_string_cons (addr : Z) (b : byte) (bs : list byte) :
  wrap64 addr = addr ->
  rd addr physical = inr b -> b <> x00 ->
  reads_string rd physical (wrap64 (addr + 1)) bs ->
  reads_string rd physical addr (b :: bs).
Proof.
  intros Ha Hb Hnz [Hf Hr]. split; [now constructor|].
  intros [|i] Hi.
  - cbn [nth]. now rewrite Z.add_0_r, Ha.
  - cbn [nth]. cbn [List.length] in Hi.
    rewrite <- (Hr i ltac:(lia)), wrap64_succ. f_equal. f_equal. lia.
Qed.

Lemma read_c_string_loop_result (fuel : nat) :
  forall (str : list byte) (size capacity addr : Z) (heap heap' : alloc_oracle)
         (res : drgn_error + list byte),
    wrap64 addr = addr -> size <= max_size ->
    read_c_string_loop fuel rd physical max_size str size capacity addr heap
    = Some (res, heap') ->
    match res with
    | inr out =>
        exists bs,
          out = str ++ bs ++ [x00]
          /\ reads_string rd physical addr bs
          /\ size + Z.of_nat (List.length bs) <= max_size
          /\ (size + Z.of_nat (List.length bs) < max_size ->
              rd (wrap64 (addr + Z.of_nat (List.length bs))) physical
              = inr x00)
    | inl err =>
        (err = drgn_enomem /\ ~ all_succeed heap)
        \/ exists bs,
             reads_string rd physical addr bs
             /\ size + Z.of_nat (List.length bs) < max_size
             /\ rd (wrap64 (addr + Z.of_nat (List.length bs))) physical
                = inl err
    end.
Proof.
  induction fuel as [|fuel IH];
    intros str size capacity addr heap heap' res Haddr Hsize H;
    [discriminate|].
  cbn [read_c_string_loop] in H.
  assert (Hgrow :
            exists ok capacity1 heap1,
              (if capacity <=? size
               then let (ok, heap0) := alloc heap in
                    (ok, wrap64 (capacity * 2), heap0)
               else (true, capacity, heap)) = (ok, capacity1, heap1)
              /\ (ok = false -> ~ all_succeed heap)
              /\ (~ all_succeed heap1 -> ~ all_succeed heap)).
  { destruct (capacity <=? size).
    - destruct (alloc heap) as [ok heap0] eqn:Ea.
      exists ok, (wrap64 (capacity * 2)), heap0.
      split; [reflexivity|]. split.
      + intros -> Hall. apply alloc_all_succeed in Hall as [Hall _].
        rewrite Ea in Hall. discriminate.
      + intros Hn Hall. apply Hn. apply alloc_all_succeed in Hall as [_ Hall].
        now rewrite Ea in Hall.
    - exists true, capacity, heap. split; [reflexivity|].
      split; [discriminate|auto]. }
  destruct Hgrow as (ok & capacity1 & heap1 & Eg & Hfail & Hrest).
  rewrite Eg in H. destruct ok; cbn [negb] in H.
  2:{ inversion H; subst. left. split; [reflexivity|]. now apply Hfail. }
  destruct (size <? max_size) eqn:Hlt.
  - apply Z.ltb_lt in Hlt.
    destruct (rd addr physical) as [err|b] eqn:Erd.
    + inversion H; subst. right. exists []. split; [apply reads_string_nil|].
      cbn [List.length]. rewrite !Z.add_0_r, Haddr. split; [exact Hlt|exact Erd].
    + destruct (Byte.eqb b x00) eqn:Eb.
      * apply byte_eqb_eq in Eb. subst b. inversion H; subst.
        exists []. split; [reflexivity|]. split; [apply reads_string_nil|].
        cbn [List.length]. rewrite !Z.add_0_r, Haddr. split; [lia|auto].
      * apply byte_eqb_neq in Eb.
        apply IH in H; [|apply wrap64_wrap64|lia].
        destruct res as [err|out].
        -- destruct H as [[He Hn] | (bs & Hr & Hl & He)].
           ++ left. split; [exact He|]. now apply Hrest.
           ++ right. exists (b :: bs).
              split; [now apply reads_string_cons|].
              cbn [List.length]. split; [lia|].
              rewrite <- He, wrap64_succ. f_equal. f_equal. lia.
        -- destruct H as (bs & Ho & Hr & Hl & Hn).
           exists (b :: bs). split; [now rewrite Ho, <- app_assoc|].
           split; [now apply reads_string_cons|].
           cbn [List.length]. split; [lia|].
           intros Hlt'. rewrite <- Hn by lia. rewrite wrap64_succ.
           f_equal. f_equal. lia.
  - apply Z.ltb_ge in Hlt. inversion H; subst.
    exists []. split; [reflexivity|]. split; [apply reads_string_nil|].
    cbn [List.length]. split; lia.
Qed.

End ReadResult.

(** X21.  What a string that [drgn_program_read_c_string] returns says
    about the memory, whatever the reader and the allocator do: the buffer
    is a run of bytes without a NUL followed by one NUL; the bytes are
    those that the reader returned for the addresses from [addr] on, one
    by one; there are at most [max_size] of them; and if there are fewer,
    the reader returned a NUL for the address after the last of them. *)
Theorem drgn_program_read_c_string_returns_what_it_read
    (rd : memory_reader) (addr : Z) (physical : bool) (max_size : Z)
    (heap heap' : alloc_oracle) (str : list byte) :
  is_u64 addr -> 0 <= max_size ->
  drgn_program_read_c_string rd addr physical max_size heap
  = Some (inr str, heap') ->
  exists bs,
    str = bs ++ [x00]
    /\ reads_string rd physical addr bs
    /\ Z.of_nat (List.length bs) <= max_size
    /\ (Z.of_nat (List.length bs) < max_size ->
        rd (wrap64 (addr + Z.of_nat (List.length bs))) physical = inr x00).
Proof.
  intros Ha Hmax. unfold drgn_program_read_c_string.
  destruct (alloc heap) as [[|] heap1]; cbn [negb]; [|discriminate].
  destruct (read_c_string_loop (S (Z.to_nat max_size)) rd physical max_size
              [] 0 1 addr heap1) as [[[err|out] heap2]|] eqn:El;
    [discriminate| |discriminate].
  intros H; inversion H; subst; clear H.
  apply read_c_string_loop_result in El;
    [|now apply wrap64_small|exact Hmax].
  destruct El as (bs & Ho & Hr & Hl & Hn).
  exists bs. cbn [app] in Ho. rewrite Z.add_0_l in Hl, Hn. auto.
Qed.

Lemma drgn_program_read_c_string_returns_what_it_read_witness :
  let rd : memory_reader :=
    fun addr _ =>
      if addr =? 0x1000 then inr "h"%byte
      else if addr =? 0x1001 then inr "i"%byte
      else inr x00 in
  drgn_program_read_c_string rd 0x1000 false 16 []
  = Some (inr (bytes "hi" ++ [x00]), [])
  /\ exists bs,
       bytes "hi" ++ [x00] = bs ++ [x00]
       /\ reads_string rd false 0x1000 bs
       /\ Z.of_nat (List.length bs) <= 16
       /\ (Z.of_nat (List.length bs) < 16 ->
           rd (wrap64 (0x1000 + Z.of_nat (List.length bs))) false = inr x00).
Proof.
  cbv zeta. split; [vm_compute; reflexivity|].
  apply (drgn_program_read_c_string_returns_what_it_read
           (fun addr _ =>
              if addr =? 0x1000 then inr "h"%byte
              else if addr =? 0x1001 then inr "i"%byte
              else inr x00)
           0x1000 false 16 [] []).
  - unfold is_u64, UINT64_MAX. lia.
  - lia.
  - vm_compute. reflexivity.
Defined.

(** X22.  Why [drgn_program_read_c_string] fails.  An error that it
    returns is either NO_MEMORY, and then the allocator refused a request,
    or the error of the reader for the address that follows a run of fewer
    than [max_size] bytes without a NUL that it had returned from [addr]
    on: the first failing read ends the string. *)
Theorem drgn_program_read_c_string_failure
    (rd : memory_reader) (addr : Z) (physical : bool) (max_size : Z)
    (heap heap' : alloc_oracle) (err : drgn_error) :
  is_u64 addr -> 0 <= max_size ->
  drgn_program_read_c_string rd addr physical max_size heap
  = Some (inl err, heap') ->
  (err = drgn_enomem /\ ~ all_succeed heap)
  \/ exists bs,
       reads_string rd physical addr bs
       /\ Z.of_nat (List.length bs) < max_size
       /\ rd (wrap64 (addr + Z.of_nat (List.length bs))) physical = inl err.
Proof.
  intros Ha Hmax. unfold drgn_program_read_c_string.
  destruct (alloc heap) as [[|] heap1] eqn:Ea; cbn [negb].
  - destruct (read_c_string_loop (S (Z.to_nat max_size)) rd physical max_size
                [] 0 1 addr heap1) as [[[err'|out] heap2]|] eqn:El;
      [|discriminate|discriminate].
    intros H; inversion H; subst; clear H.
    apply read_c_string_loop_result in El;
      [|now apply wrap64_small|exact Hmax].
    destruct El as [[He Hn] | (bs & Hr & Hl & He)].
    + left. split; [exact He|]. intros Hall. apply Hn.
      apply alloc_all_succeed in Hall as [_ Hall]. now rewrite Ea in Hall.
    + right. exists bs. rewrite Z.add_0_l in Hl. auto.
  - intros H; inversion H; subst. left. split; [reflexivity|].
    intros Hall. apply alloc_all_succeed in Hall as [Hall _].
    rewrite Ea in Hall. discriminate.
Qed.

Lemma drgn_program_read_c_string_failure_witness :
  let fault := drgn_error_create DRGN_ERROR_FAULT "no segment" in
  let rd : memory_reader :=
    fun addr _ =>
      if addr =? 0x1000 then inr "h"%byte
      else if addr =? 0x1001 then inr "i"%byte
      else inl fault in
  drgn_program_read_c_string rd 0x1000 false 16 [] = Some (inl fault, [])
  /\ ((fault = drgn_enomem /\ ~ all_succeed [])
      \/ exists bs,
           reads_string rd false 0x1000 bs
           /\ Z.of_nat (List.length bs) < 16
           /\ rd (wrap64 (0x1000 + Z.of_nat (List.length bs))) false
              = inl fault).
Proof.
  cbv zeta. split; [vm_compute; reflexivity|].
  apply (drgn_program_read_c_string_failure
           (fun addr _ =>
              if addr =? 0x1000 then inr "h"%byte
              else if addr =? 0x1001 then inr "i"%byte
              else inl (drgn_error_create DRGN_ERROR_FAULT "no segment"))
           0x1000 false 16 [] []).
  - unfold is_u64, UINT64_MAX. lia.
  - lia.
  - vm_compute. reflexivity.
Defined.

(** ** The two passes over the program headers *)

Lemma count_load_segments_counts (phdrs : list GElf_Phdr) :
  forall (nz : bool) (num : Z),
    count_load_segments (map Some phdrs) nz num
    = Some (nz || existsb (fun p => negb (p_paddr p =? 0))
                    (filter is_load phdrs),
            num + Z.of_nat (List.length (filter is_load phdrs))).
Proof.
  induction phdrs as [|p phdrs IH]; intros nz num.
  - cbn. now rewrite orb_false_r, Z.add_0_r.
  - cbn [map count_load_segments filter]. fold (is_load p).
    destruct (is_load p).
    + rewrite IH. cbn [existsb List.length]. f_equal. f_equal.
      * now rewrite orb_assoc.
      * lia.
    + apply IH.
Qed.

Lemma parse_notes_segments (is_64_bit : bool) (notes : list note) :
  forall (st : pass_state),
    ps_segments (snd (parse_notes notes is_64_bit st)) = ps_segments st.
Proof.
  induction notes as [|nt notes IH]; intros st; [reflexivity|].
  cbn [parse_notes].
  destruct (note_named nt "CORE").
  - destruct (n_type nt =? NT_FILE).
    + destruct (parse_nt_file (n_desc nt) is_64_bit (ps_mappings st)
                  (ps_capacity st) (ps_heap st))
        as [[[r mappings'] capacity'] heap'].
      destruct r; [rewrite IH|..]; reflexivity.
    + destruct (n_type nt =? NT_TASKSTRUCT); rewrite IH; reflexivity.
  - destruct (note_named nt "VMCOREINFO"); [|apply IH].
    destruct (parse_vmcoreinfo (n_desc nt)); [reflexivity|].
    rewrite IH. reflexivity.
Qed.

Lemma second_pass_segments (env : bootstrap_env) (e : Elf) (fd : Z)
    (is_64_bit nz : bool) (num : Z) (phdrs : list GElf_Phdr) :
  forall (i : nat) (st st' : pass_state),
    second_pass env e fd is_64_bit nz num i (map Some phdrs) st = (Ok, st') ->
    Z.of_nat (List.length (ps_segments st))
    + Z.of_nat (List.length (filter is_load phdrs)) <= num ->
    ps_segments st'
    = ps_segments st ++ map (segment_of_phdr fd nz) (filter is_load phdrs).
Proof.
  induction phdrs as [|p phdrs IH]; intros i st st' H Hnum.
  - cbn in H. inversion H; subst. cbn. now rewrite app_nil_r.
  - cbn [map second_pass] in H. cbn [filter] in Hnum |- *.
    fold (is_load p) in H.
    destruct (is_load p) eqn:Et.
    + cbn [List.length] in Hnum.
      replace (Z.of_nat (List.length (ps_segments st)) =? num) with false in H
        by (symmetry; apply Z.eqb_neq; lia).
      destruct (env_add_segment env (List.length (ps_segments st)));
        [discriminate|].
      apply IH in H.
      * rewrite H. cbn [ps_segments map]. rewrite <- app_assoc. reflexivity.
      * cbn [ps_segments]. rewrite length_app. cbn [List.length]. lia.
    + destruct (p_type p =? PT_NOTE).
      * destruct (elf_notes e i) as [notes|]; [|discriminate].
        pose proof (parse_notes_segments is_64_bit notes st) as Hs.
        destruct (parse_notes notes is_64_bit st) as [[| |] st1];
          try discriminate.
        cbn [snd] in Hs. apply IH in H; [|rewrite Hs; exact Hnum].
        now rewrite H, Hs.
      * now apply IH in H.
Qed.

Lemma second_pass_bound (env : bootstrap_env) (e : Elf) (fd : Z)
    (is_64_bit nz : bool) (num : Z) (phdrs : list (option GElf_Phdr)) :
  forall (i : nat) (st : pass_state),
    Z.of_nat (List.length (ps_segments st)) <= num ->
    Z.of_nat (List.length
                (ps_segments
                   (snd (second_pass env e fd is_64_bit nz num i phdrs st))))
    <= num.
Proof.
  induction phdrs as [|[p|] phdrs IH]; intros i st Hst; try exact Hst.
  cbn [second_pass].
  destruct (p_type p =? PT_LOAD).
  - destruct (Z.of_nat (List.length (ps_segments st)) =? num) eqn:En;
      [now apply IH|].
    apply Z.eqb_neq in En.
    destruct (env_add_segment env (List.length (ps_segments st)));
      [exact Hst|].
    apply IH. cbn [ps_segments]. rewrite length_app. cbn [List.length]. lia.
  - destruct (p_type p =? PT_NOTE); [|now apply IH].
    destruct (elf_notes e i) as [notes|]; [|exact Hst].
    pose proof (parse_notes_segments is_64_bit notes st) as Hs.
    destruct (parse_notes notes is_64_bit st) as [[| |] st1]; cbn [snd] in *;
      try (rewrite Hs; exact Hst).
    apply IH. now rewrite Hs.
Qed.

(** X23.  The segments of a core dump.  The second pass never adds more
    segments than the first pass counted, so that it stays inside the array
    of file segments, whatever libelf answers.  When libelf returns every
    program header in both passes and the second pass succeeds, the
    segments are those of the PT_LOAD headers, one for each and in their
    order, all of the descriptor of the core file; their physical address
    is [p_paddr] if some PT_LOAD header has a [p_paddr] that is not zero,
    and UINT64_MAX for all of them otherwise. *)
Theorem second_pass_segments_of_load_headers (env : bootstrap_env) (e : Elf)
    (fd : Z) (is_64_bit nz : bool) (num : Z) :
  (forall (phdrs : list (option GElf_Phdr)) (st : pass_state),
      ps_segments st = [] -> 0 <= num ->
      Z.of_nat (List.length
                  (ps_segments
                     (snd (second_pass env e fd is_64_bit nz num 0 phdrs st))))
      <= num)
  /\ (forall (phdrs : list GElf_Phdr) (st st' : pass_state),
         count_load_segments (map Some phdrs) false 0 = Some (nz, num) ->
         ps_segments st = [] ->
         second_pass env e fd is_64_bit nz num 0 (map Some phdrs) st
         = (Ok, st') ->
         nz = existsb (fun p => negb (p_paddr p =? 0)) (filter is_load phdrs)
         /\ ps_segments st'
            = map (segment_of_phdr fd nz) (filter is_load phdrs)).
Proof.
  split.
  - intros phdrs st Hs Hnum. apply second_pass_bound. now rewrite Hs.
  - intros phdrs st st' Hc Hs H. rewrite count_load_segments_counts in Hc.
    injection Hc as Hnz Hnum. cbn [orb] in Hnz.
    split; [symmetry; exact Hnz|].
    apply second_pass_segments in H.
    + now rewrite H, Hs.
    + rewrite Hs. cbn [List.length]. lia.
Qed.

Lemma second_pass_segments_of_load_headers_witness :
  let phdrs := [mk_phdr PT_NOTE 0x200 0 0 0x400 0 4;
                mk_phdr PT_LOAD 0x1000 0x400000 0 0x1000 0x1000 0x1000;
                mk_phdr PT_LOAD 0x2000 0x600000 0 0x800 0x1000 0x1000] in
  let e := mk_elf 100 (Some (ET_CORE, true)) (Some (map Some phdrs)) true []
             (fun i => match i with
                       | O => Some [example_vmcoreinfo_note]
                       | S _ => None
                       end) in
  let st := mk_pass [] [] 0 None false false [] in
  count_load_segments (map Some phdrs) false 0 = Some (false, 2)
  /\ ps_segments
       (snd (second_pass (example_env []) e 3 true false 2 0 (map Some phdrs)
               st))
     = [mk_segment 0x400000 UINT64_MAX 0x1000 0x1000 0x1000 3;
        mk_segment 0x600000 UINT64_MAX 0x1000 0x2000 0x800 3].
Proof.
  cbv zeta. split; [reflexivity|].
  refine (proj2 (proj2 (second_pass_segments_of_load_headers (example_env [])
                  (mk_elf 100 (Some (ET_CORE, true))
                     (Some (map Some
                              [mk_phdr PT_NOTE 0x200 0 0 0x400 0 4;
                               mk_phdr PT_LOAD 0x1000 0x400000 0 0x1000 0x1000
                                 0x1000;
                               mk_phdr PT_LOAD 0x2000 0x600000 0 0x800 0x1000
                                 0x1000]))
                     true []
                     (fun i => match i with
                               | O => Some [example_vmcoreinfo_note]
                               | S _ => None
                               end))
                  3 true false 2)
            [mk_phdr PT_NOTE 0x200 0 0 0x400 0 4;
             mk_phdr PT_LOAD 0x1000 0x400000 0 0x1000 0x1000 0x1000;
             mk_phdr PT_LOAD 0x2000 0x600000 0 0x800 0x1000 0x1000]
            (mk_pass [] [] 0 None false false []) _ eq_refl eq_refl _)).
  vm_compute. reflexivity.
Defined.

(** ** The resources of a bootstrap *)

Lemma files_closed_app (a b : list event) :
  files_closed (a ++ b) = files_closed a ++ files_closed b.
Proof. apply flat_map_app. Qed.

Lemma elfs_ended_app (a b : list event) :
  elfs_ended (a ++ b) = elfs_ended a ++ elfs_ended b.
Proof. apply flat_map_app. Qed.

Lemma init_core_dump_indices_failure_resources (env : bootstrap_env)
    (fd file_segments reader' : Z) (mappings : list file_mapping)
    (vmc : option vmcoreinfo) (prog : drgn_program) (done : list event)
    (heap : alloc_oracle) (err : drgn_error) :
  let r := init_core_dump_indices env fd file_segments reader' mappings vmc
             prog done heap in
  br_status r = Failed err ->
  files_closed (br_events r) = files_closed done ++ [fd]
  /\ elfs_ended (br_events r) = elfs_ended done.
Proof.
  unfold init_core_dump_indices. cbv zeta.
  repeat match goal with
         | |- context [match ?x with _ => _ end] =>
             lazymatch x with
             | context [init_core_dump_register] => fail
             | _ => destruct x eqn:?
             end
         end;
    try (cbn [br_status br_events]; intros _;
         rewrite files_closed_app, elfs_ended_app; cbn;
         rewrite ?app_nil_r; split; reflexivity).
  all: intros H; apply init_core_dump_register_failure in H as (_ & _ & ->).
  all: rewrite !files_closed_app, !elfs_ended_app; cbn;
    rewrite ?app_nil_r; split; reflexivity.
Qed.

(** X24.  A bootstrap that fails releases the file it opened.  On every
    failing run of [drgn_program_init_core_dump] the descriptor that [open]
    returned is closed exactly once, and the ELF handle that [elf_begin]
    returned is ended exactly once; nothing is closed when [open] failed.
    On every failing run of [drgn_program_init_pid] the descriptor of
    /proc/<pid>/mem is closed exactly once. *)
Theorem failed_bootstrap_releases_file_and_elf (env : bootstrap_env)
    (path' pid : string) (maps : Z + list maps_line) (prog : drgn_program)
    (heap : alloc_oracle) (err : drgn_error) :
  (let r := drgn_program_init_core_dump env path' prog heap in
   br_status r = Failed err ->
   files_closed (br_events r)
   = match env_open env with
     | inr fd => [fd]
     | inl _ => []
     end
   /\ elfs_ended (br_events r)
      = match env_open env, env_elf env with
        | inr _, Some e => [elf_handle e]
        | _, _ => []
        end)
  /\ (let r := drgn_program_init_pid env pid maps prog heap in
      br_status r = Failed err ->
      files_closed (br_events r)
      = match env_open env with
        | inr fd => [fd]
        | inl _ => []
        end).
Proof.
  split.
  - unfold drgn_program_init_core_dump. cbv zeta.
    repeat match goal with
           | |- context [match ?x with _ => _ end] =>
               lazymatch x with
               | context [init_core_dump_indices] => fail
               | _ => destruct x eqn:?
               end
           end;
      try (cbn [br_status br_events]; intros H; try discriminate H;
           split; reflexivity).
    all: intros H;
      apply init_core_dump_indices_failure_resources in H as [-> ->].
    all: split; reflexivity.
  - unfold drgn_program_init_pid. cbv zeta.
    repeat match goal with
           | |- context [match ?x with _ => _ end] =>
               lazymatch x with
               | context [init_pid_register] => fail
               | _ => destruct x eqn:?
               end
           end;
      try (cbn [br_status br_events]; intros H; try discriminate H;
           reflexivity).
    all: intros H; apply init_pid_register_failure in H as (_ & ->);
      reflexivity.
Qed.

Lemma failed_bootstrap_releases_file_and_elf_witness :
  let r := drgn_program_init_core_dump (example_env [example_vmcoreinfo_note])
             "core" zeroed_program [true; true; false] in
  br_status r = Failed drgn_enomem
  /\ files_closed (br_events r) = [3]
  /\ elfs_ended (br_events r) = [100].
Proof.
  cbv zeta. split; [vm_compute; reflexivity|].
  apply (proj1 (failed_bootstrap_releases_file_and_elf
                  (example_env [example_vmcoreinfo_note]) "core" "42" (inr [])
                  zeroed_program [true; true; false] drgn_enomem)).
  vm_compute. reflexivity.
Defined.

(** ** What a bootstrap that succeeds leaves behind *)

Lemma mergeable_geometry (a b a' b' : file_mapping) :
  mapping_geometry a = mapping_geometry a' ->
  mapping_geometry b = mapping_geometry b' ->
  mergeable a b = mergeable a' b'.
Proof.
  unfold mapping_geometry, mergeable, merges_into.
  intros Ha Hb. inversion Ha. inversion Hb. congruence.
Qed.

Lemma merged_geometry (a b : list file_mapping) :
  map mapping_geometry a = map mapping_geometry b -> merged a -> merged b.
Proof.
  intros Hmap Hm front x y back Hb. subst b.
  rewrite map_app in Hmap. cbn [map] in Hmap.
  apply map_eq_app in Hmap as (front' & rest & -> & _ & Hrest).
  destruct rest as [|x' rest]; [discriminate|].
  destruct rest as [|y' back']; [discriminate|].
  cbn [map] in Hrest.
  assert (Hx : mapping_geometry x' = mapping_geometry x) by congruence.
  assert (Hy : mapping_geometry y' = mapping_geometry y) by congruence.
  rewrite <- (mergeable_geometry x' y' x y Hx Hy).
  now apply (Hm front' x' y' back').
Qed.

(** What a bootstrap from a process that succeeds has built. *)
Lemma init_pid_success (env : bootstrap_env) (pid : string)
    (maps : Z + list maps_line) (prog : drgn_program) (heap : alloc_oracle) :
  let r := drgn_program_init_pid env pid maps prog heap in
  br_status r = Ok ->
  flags (br_prog r) = 0
  /\ br_dsindex r
     = Some (mk_dsindex (Some (env_prog env)) (Some hook_userspace))
  /\ merged (prog_mappings (br_prog r))
  /\ (exists m e,
         In m (prog_mappings (br_prog r))
         /\ env_dindex_open env (mapping_path m) = inr e /\ elf m = e)
  /\ map cb (cleanup (br_prog r))
     = [cleanup_file_mappings; cleanup_dwarf_type_cache; cleanup_dwarf_index;
        cleanup_free; cleanup_fd]
  /\ br_events r = [].
Proof.
  unfold drgn_program_init_pid. cbv zeta.
  destruct (env_open env) as [errno|fd]; [discriminate|].
  destruct (alloc heap) as [[|] heap1]; cbn [negb]; [|discriminate].
  destruct (env_reader_create env) as [err|reader']; [discriminate|].
  destruct (env_add_segment env 0) as [err|]; [discriminate|].
  pose proof (parse_proc_maps_merged ("/proc/" ++ pid ++ "/maps")%string maps
                heap1) as Hmerged.
  destruct (parse_proc_maps ("/proc/" ++ pid ++ "/maps")%string maps [] heap1)
    as [[parsed mappings] heap2].
  cbn [fst snd] in Hmerged.
  destruct parsed as [err|]; [discriminate|].
  destruct (env_dindex_create env) as [err|dindex]; [discriminate|].
  pose proof (open_userspace_files_geometry env mappings) as Hgeo.
  destruct (open_userspace_files env mappings) as [opened mappings'] eqn:Eo.
  cbn [snd] in Hgeo.
  destruct opened as [err|]; [discriminate|].
  apply open_userspace_files_success in Eo as (_ & Hex & Hmap).
  destruct (env_dindex_update env) as [err|]; [discriminate|].
  destruct (env_tindex_create env) as [err|tindex']; [discriminate|].
  destruct (env_dtcache_create env) as [err|dtcache]; [discriminate|].
  destruct (env_add_finder env) as [err|]; [discriminate|].
  destruct (env_dsindex_create env) as [err|dsindex]; [discriminate|].
  intros H.
  assert (Hev : br_events
                  (init_pid_register env fd (env_file_segments env) reader'
                     dindex tindex' dtcache dsindex mappings' prog heap2) = []).
  { revert H. unfold init_pid_register, drgn_program_add_cleanup. cbv zeta.
    repeat match goal with
           | |- context [alloc ?h] => destruct (alloc h) as [[|] ?]
           end;
      cbn [br_status]; intros H; try discriminate H. reflexivity. }
  apply init_pid_register_success in H as (Hf & Hm & Hd & Hc).
  rewrite Hf, Hm, Hd, Hc, Hev.
  repeat split.
  - apply (merged_geometry mappings mappings'); [now symmetry|exact Hmerged].
  - apply existsb_exists in Hex as (m & Hin & Ho).
    unfold opens in Ho.
    destruct (env_dindex_open env (mapping_path m)) as [err|e] eqn:Ee;
      [discriminate|].
    exists (set_elf m e), e. split; [|split].
    + rewrite Hmap. apply in_map_iff. exists m. split; [|exact Hin].
      now rewrite Ee.
    + exact Ee.
    + reflexivity.
Qed.

(** X25.  The session of a process.  When [drgn_program_init_pid] returns
    NULL the program is a user-space session: the kernel flag is clear
    and the symbol index calls the user-space hook; the mapping table is
    merged; at least one mapping has the ELF handle that
    [drgn_dwarf_index_open] stored for its path; the cleanup stack holds,
    from its top, the cleanups of the mappings, the DWARF type cache, the
    DWARF index, the file segment and the descriptor; and nothing has been
    released. *)
Theorem init_pid_success_state (env : bootstrap_env) (pid : string)
    (maps : Z + list maps_line) (prog : drgn_program) (heap : alloc_oracle) :
  let r := drgn_program_init_pid env pid maps prog heap in
  br_status r = Ok ->
  flags (br_prog r) = 0
  /\ br_dsindex r
     = Some (mk_dsindex (Some (env_prog env)) (Some hook_userspace))
  /\ merged (prog_mappings (br_prog r))
  /\ (exists m e,
         In m (prog_mappings (br_prog r))
         /\ env_dindex_open env (mapping_path m) = inr e /\ elf m = e)
  /\ map cb (cleanup (br_prog r))
     = [cleanup_file_mappings; cleanup_dwarf_type_cache; cleanup_dwarf_index;
        cleanup_free; cleanup_fd]
  /\ br_events r = [].
Proof. apply init_pid_success. Qed.

Lemma init_pid_success_state_witness :
  let r := drgn_program_init_pid (example_env []) "42"
             (inr [maps_file 0x400000 0x401000 0 (bytes "/bin/x");
                   maps_anonymous;
                   maps_file 0x401000 0x402000 0x1000 (bytes "/bin/x");
                   maps_file 0x7f0000 0x7f1000 0 (bytes "/lib/y")])
             zeroed_program [] in
  br_status r = Ok
  /\ prog_mappings (br_prog r)
     = [mk_mapping 0x400000 0x402000 0 (Some (bytes "/bin/x")) (Some 900);
        mk_mapping 0x7f0000 0x7f1000 0 (Some (bytes "/lib/y")) (Some 900)]
  /\ flags (br_prog r) = 0
  /\ br_dsindex r = Some (mk_dsindex (Some 800) (Some hook_userspace))
  /\ merged (prog_mappings (br_prog r)).
Proof.
  cbv zeta. split; [vm_compute; reflexivity|].
  split; [vm_compute; reflexivity|].
  pose proof (init_pid_success_state (example_env []) "42"
                (inr [maps_file 0x400000 0x401000 0 (bytes "/bin/x");
                      maps_anonymous;
                      maps_file 0x401000 0x402000 0x1000 (bytes "/bin/x");
                      maps_file 0x7f0000 0x7f1000 0 (bytes "/lib/y")])
                zeroed_program []) as H.
  cbv zeta in H.
  destruct H as (Hf & Hd & Hm & _); [vm_compute; reflexivity|].
  split; [exact Hf|]. split; [exact Hd|exact Hm].
Defined.

(** The public constructor returns the program that the bootstrap has
    built. *)
Lemma drgn_program_from_pid_success (env : bootstrap_env) (pid : string)
    (maps : Z + list maps_line) (garbage : drgn_program) (heap : alloc_oracle)
    (prog : drgn_program) (events : list event) :
  drgn_program_from_pid env pid maps garbage heap = (Ok, Some prog, events) ->
  flags prog = 0 /\ merged (prog_mappings prog) /\ events = [].
Proof.
  unfold drgn_program_from_pid.
  destruct (alloc heap) as [[|] heap1]; cbn [negb]; [|discriminate].
  pose proof (init_pid_success env pid maps garbage heap1) as H.
  cbv zeta in H.
  destruct (br_status (drgn_program_init_pid env pid maps garbage heap1));
    try discriminate.
  destruct (H eq_refl) as (Hf & _ & Hm & _ & _ & He).
  intros E; inversion E; subst. auto.
Qed.

Lemma parse_vmcoreinfo_fits (desc : list byte) (v : vmcoreinfo) :
  parse_vmcoreinfo desc = inr v -> vmcoreinfo_fits v.
Proof.
  unfold parse_vmcoreinfo.
  destruct (parse_vmcoreinfo_lines (S (List.length desc)) desc
              (mk_vmcoreinfo [] 0)) as [err|ret] eqn:E; [discriminate|].
  destruct (osrelease_is_empty ret); [discriminate|].
  intros H; inversion H; subst ret; clear H.
  apply (parse_vmcoreinfo_lines_invariant _ _ _ _ E).
  - cbn. unfold sizeof_osrelease. lia.
  - cbn. unfold is_u64, UINT64_MAX. lia.
Qed.

Lemma parse_notes_fits (is_64_bit : bool) (notes : list note) :
  forall (st : pass_state),
    option_fits (ps_vmcoreinfo st) ->
    option_fits (ps_vmcoreinfo (snd (parse_notes notes is_64_bit st))).
Proof.
  induction notes as [|nt notes IH]; intros st Hst; [exact Hst|].
  cbn [parse_notes].
  destruct (note_named nt "CORE").
  - destruct (n_type nt =? NT_FILE).
    + destruct (parse_nt_file (n_desc nt) is_64_bit (ps_mappings st)
                  (ps_capacity st) (ps_heap st))
        as [[[r mappings'] capacity'] heap'].
      destruct r; [apply IH|..]; exact Hst.
    + destruct (n_type nt =? NT_TASKSTRUCT); apply IH; exact Hst.
  - destruct (note_named nt "VMCOREINFO"); [|now apply IH].
    destruct (parse_vmcoreinfo (n_desc nt)) as [err|v] eqn:Ev; [exact Hst|].
    apply IH. cbn [ps_vmcoreinfo option_fits].
    now apply parse_vmcoreinfo_fits in Ev.
Qed.

Lemma second_pass_fits (env : bootstrap_env) (e : Elf) (fd : Z)
    (is_64_bit nz : bool) (num : Z) (phdrs : list (option GElf_Phdr)) :
  forall (i : nat) (st : pass_state),
    option_fits (ps_vmcoreinfo st) ->
    option_fits
      (ps_vmcoreinfo (snd (second_pass env e fd is_64_bit nz num i phdrs st))).
Proof.
  induction phdrs as [|[p|] phdrs IH]; intros i st Hst; try exact Hst.
  cbn [second_pass].
  destruct (p_type p =? PT_LOAD).
  - destruct (Z.of_nat (List.length (ps_segments st)) =? num);
      [now apply IH|].
    destruct (env_add_segment env (List.length (ps_segments st)));
      [exact Hst|].
    now apply IH.
  - destruct (p_type p =? PT_NOTE); [|now apply IH].
    destruct (elf_notes e i) as [notes|]; [|exact Hst].
    pose proof (parse_notes_fits is_64_bit notes st Hst) as Hs.
    destruct (parse_notes notes is_64_bit st) as [[| |] st1]; cbn [snd] in *;
      try exact Hs.
    now apply IH.
Qed.

Lemma read_vmcoreinfo_from_sysfs_fits (env : bootstrap_env)
    (heap heap' : alloc_oracle) (v : vmcoreinfo) :
  read_vmcoreinfo_from_sysfs env heap = (inr v, heap') -> vmcoreinfo_fits v.
Proof.
  unfold read_vmcoreinfo_from_sysfs.
  destruct (env_sysfs env) as [errno|[[addr size]|]]; try discriminate.
  destruct (alloc heap) as [[|] heap1]; cbn [negb]; [|discriminate].
  destruct (env_read_physical env addr size) as [err|buf]; [discriminate|].
  destruct (_ || _); [discriminate|].
  intros H. injection H as H _. now apply parse_vmcoreinfo_fits in H.
Qed.

Lemma get_fallback_vmcoreinfo_fits (env : bootstrap_env) (v : vmcoreinfo) :
  get_fallback_vmcoreinfo env = inr v -> vmcoreinfo_fits v.
Proof.
  unfold get_fallback_vmcoreinfo.
  destruct (env_uname env) as [errno|release]; [discriminate|].
  destruct (sizeof_osrelease <=? Z.of_nat (List.length (cstr release))) eqn:E;
    [discriminate|].
  destruct (env_kallsyms_stext env) as [err|ka]; [discriminate|].
  destruct (env_vmlinux_stext env (cstr release)) as [err|ea];
    [discriminate|].
  intros H; inversion H; subst. apply Z.leb_gt in E.
  split; [exact E|].
  cbn [kaslr_offset]. unfold is_u64, UINT64_MAX, wrap64.
  pose proof (Z.mod_pos_bound (ka - ea) (2 ^ 64) ltac:(lia)). lia.
Qed.

Lemma init_core_dump_indices_kernel_events (env : bootstrap_env)
    (fd file_segments reader' : Z) (mappings : list file_mapping)
    (v : vmcoreinfo) (prog : drgn_program) (done : list event)
    (heap : alloc_oracle) :
  let r := init_core_dump_indices env fd file_segments reader' mappings
             (Some v) prog done heap in
  br_status r = Ok -> br_events r = done.
Proof.
  unfold init_core_dump_indices, init_core_dump_register,
    drgn_program_add_cleanup.
  cbv zeta.
  repeat match goal with
         | |- context [alloc ?h] => destruct (alloc h) as [[|] ?]
         | |- context [match ?x with _ => _ end] => destruct x eqn:?
         end;
    cbn [br_status br_events br_prog br_dsindex]; intros H;
    try discriminate H.
  reflexivity.
Qed.

(** What a bootstrap from a core dump that returns NULL has done. *)
Lemma init_core_dump_success (env : bootstrap_env) (path' : string)
    (prog : drgn_program) (heap : alloc_oracle) :
  let r := drgn_program_init_core_dump env path' prog heap in
  br_status r = Ok ->
  (br_dsindex r = None /\ br_prog r = prog /\ fst (alloc heap) = false)
  \/ (br_dsindex r
      = Some (mk_dsindex (Some (env_prog env)) (Some hook_kernel))
      /\ flags (br_prog r) = DRGN_PROGRAM_IS_LINUX_KERNEL
      /\ vmcoreinfo_fits (prog_vmcoreinfo (br_prog r))
      /\ map cb (cleanup (br_prog r))
         = [cleanup_dwarf_type_cache; cleanup_dwarf_index; cleanup_free;
            cleanup_fd]
      /\ files_closed (br_events r) = []).
Proof.
  unfold drgn_program_init_core_dump. cbv zeta.
  destruct (env_open env) as [errno|fd]; [discriminate|].
  destruct (env_elf env) as [e|]; [|discriminate].
  destruct (elf_ehdr e) as [[e_type is_64_bit]|]; [|discriminate].
  destruct (negb (e_type =? ET_CORE)); [discriminate|].
  destruct (elf_phdrs e) as [phdrs|]; [|discriminate].
  destruct (count_load_segments phdrs false 0) as [[nz num]|]; [|discriminate].
  destruct (env_reader_create env) as [err|reader']; [discriminate|].
  destruct (alloc heap) as [[|] heap1]; cbn [negb].
  2:{ intros _. left. repeat split. }
  pose proof (second_pass_fits env e fd is_64_bit nz num phdrs 0
                (mk_pass [] (prog_mappings prog) 0 None false false heap1) I)
    as Hfits.
  destruct (second_pass env e fd is_64_bit nz num 0 phdrs
              (mk_pass [] (prog_mappings prog) 0 None false false heap1))
    as [[| |] st]; try discriminate.
  cbn [snd] in Hfits.
  destruct (detect_proc_kcore env path'
              match ps_vmcoreinfo st with Some _ => true | None => false end
              (ps_have_nt_taskstruct st)) as [err|is_proc_kcore];
    [discriminate|].
  set (heap2 := if Z.of_nat (List.length (@nil file_mapping)) <? ps_capacity st
                then snd (alloc (ps_heap st)) else ps_heap st).
  destruct ((match ps_vmcoreinfo st with Some _ => true | None => false end)
            || is_proc_kcore).
  - assert (Hfound :
              forall found heap3,
                match ps_vmcoreinfo st with
                | Some v => (inr v, heap2)
                | None =>
                    if nz then read_vmcoreinfo_from_sysfs env heap2
                    else (get_fallback_vmcoreinfo env, heap2)
                end = (found, heap3) ->
                match found with
                | inr v => vmcoreinfo_fits v
                | inl _ => True
                end).
    { intros found heap3.
      destruct (ps_vmcoreinfo st) as [v|].
      - intros H; inversion H; subst. exact Hfits.
      - destruct nz.
        + destruct found as [err|v]; [auto|].
          intros H. eapply read_vmcoreinfo_from_sysfs_fits. exact H.
        + intros H; inversion H; subst.
          destruct (get_fallback_vmcoreinfo env) as [err|v] eqn:Ef; [exact I|].
          now apply (get_fallback_vmcoreinfo_fits env). }
    destruct (match ps_vmcoreinfo st with
              | Some v => (inr v, heap2)
              | None =>
                  if nz then read_vmcoreinfo_from_sysfs env heap2
                  else (get_fallback_vmcoreinfo env, heap2)
              end) as [found heap3] eqn:Efound.
    specialize (Hfound found heap3 eq_refl).
    destruct found as [err|v]; [discriminate|].
    intros H. right.
    pose proof (init_core_dump_indices_kernel_events _ _ _ _ _ _ _ _ _ H)
      as Hev.
    apply init_core_dump_indices_kernel in H
      as (Hf & Hv & _ & Hd & dindex & dtcache & _ & _ & Hc).
    split; [exact Hd|]. split; [exact Hf|].
    split; [rewrite Hv; exact Hfound|].
    split; [rewrite Hc; reflexivity|].
    rewrite Hev. reflexivity.
  - destruct (negb (ps_have_nt_file st)); [discriminate|].
    intros H.
    match type of H with
    | br_status (init_core_dump_indices ?env ?fd ?fs ?rd [] None ?p ?d ?h) = Ok =>
        destruct (init_core_dump_indices_userspace env fd fs rd p d h)
          as (err & He & _); rewrite He in H; discriminate H
    end.
Qed.

(** X26.  The session of a kernel.  When [drgn_program_init_core_dump], or
    [drgn_program_init_kernel], which is the same on /proc/kcore, returns
    NULL, then either the allocation of the file segments had failed and
    the program structure is as it was, or the program is a kernel
    session: the symbol index calls the kernel hook, the kernel flag is
    set, the release fits its 64 bytes and the KASLR offset is a 64-bit
    value, the cleanup stack holds, from its top, the cleanups of the
    DWARF type cache, the DWARF index, the file segments and the
    descriptor, and the descriptor has not been closed. *)
Theorem core_dump_bootstrap_success_state (env : bootstrap_env)
    (path' : string) (prog : drgn_program) (heap : alloc_oracle)
    (r : bootstrap_result) :
  r = drgn_program_init_core_dump env path' prog heap
  \/ r = drgn_program_init_kernel env prog heap ->
  br_status r = Ok ->
  (br_dsindex r = None /\ br_prog r = prog /\ fst (alloc heap) = false)
  \/ (br_dsindex r
      = Some (mk_dsindex (Some (env_prog env)) (Some hook_kernel))
      /\ flags (br_prog r) = DRGN_PROGRAM_IS_LINUX_KERNEL
      /\ vmcoreinfo_fits (prog_vmcoreinfo (br_prog r))
      /\ map cb (cleanup (br_prog r))
         = [cleanup_dwarf_type_cache; cleanup_dwarf_index; cleanup_free;
            cleanup_fd]
      /\ files_closed (br_events r) = []).
Proof.
  intros [-> | ->].
  - apply init_core_dump_success.
  - apply (init_core_dump_success env "/proc/kcore").
Qed.

Lemma core_dump_bootstrap_success_state_witness :
  let r := drgn_program_init_kernel (example_env [example_vmcoreinfo_note])
             zeroed_program [] in
  br_status r = Ok
  /\ prog_vmcoreinfo (br_prog r) = mk_vmcoreinfo (bytes "5.4.0-test") 0
  /\ ((br_dsindex r = None /\ br_prog r = zeroed_program
       /\ fst (alloc []) = false)
      \/ (br_dsindex r = Some (mk_dsindex (Some 800) (Some hook_kernel))
          /\ flags (br_prog r) = DRGN_PROGRAM_IS_LINUX_KERNEL
          /\ vmcoreinfo_fits (prog_vmcoreinfo (br_prog r))
          /\ map cb (cleanup (br_prog r))
             = [cleanup_dwarf_type_cache; cleanup_dwarf_index; cleanup_free;
                cleanup_fd]
          /\ files_closed (br_events r) = [])).
Proof.
  cbv zeta. split; [vm_compute; reflexivity|].
  split; [vm_compute; reflexivity|].
  apply (core_dump_bootstrap_success_state
           (example_env [example_vmcoreinfo_note]) "/proc/kcore"
           zeroed_program []).
  - right. reflexivity.
  - vm_compute. reflexivity.
Defined.

(** [drgn_program_from_kernel] is [drgn_program_from_core_dump] on
    /proc/kcore. *)
Lemma drgn_program_from_kernel_is_core_dump (env : bootstrap_env)
    (garbage : drgn_program) (heap : alloc_oracle) :
  drgn_program_from_kernel env garbage heap
  = drgn_program_from_core_dump env "/proc/kcore" garbage heap.
Proof. reflexivity. Qed.

(** ** /proc/kallsyms: the address of a symbol *)

Lemma strtok_token_end (delim token : list byte) :
  Forall (fun b => is_delim delim b = false) token ->
  strtok_token delim token = (token, []).
Proof.
  induction 1 as [|b token Hb Ht IH]; [reflexivity|].
  cbn [strtok_token]. now rewrite Hb, IH.
Qed.

Lemma strtok_token_delim (delim token rest : list byte) (d : byte) :
  Forall (fun b => is_delim delim b = false) token ->
  is_delim delim d = true ->
  strtok_token delim (token ++ d :: rest) = (token, rest).
Proof.
  intros Ht Hd. induction Ht as [|b token Hb Ht IH].
  - cbn. now rewrite Hd.
  - cbn [app strtok_token]. now rewrite Hb, IH.
Qed.

Lemma strtok_r_token (delim token tail : list byte) :
  token <> [] ->
  Forall (fun b => is_delim delim b = false) token ->
  match tail with
  | [] => True
  | d :: _ => is_delim delim d = true
  end ->
  strtok_r delim (token ++ tail) = Some (token, List.tl tail)
  /\ strtok_skip delim (token ++ tail) = token ++ tail.
Proof.
  intros Hne Ht Hd. destruct token as [|b token]; [congruence|].
  inversion Ht as [|? ? Hb Ht']; subst.
  unfold strtok_r. cbn [app strtok_skip]. rewrite Hb.
  split; [|reflexivity]. f_equal.
  change (b :: token ++ tail) with ((b :: token) ++ tail).
  destruct tail as [|d tail].
  - rewrite app_nil_r. now apply strtok_token_end.
  - now apply strtok_token_delim.
Qed.

Lemma hex_digit_not_delim (b : byte) :
  is_hex_digit b ->
  is_delim [tab; space] b = false /\ b <> x00.
Proof.
  intros H. apply hex_digit_range in H. split.
  - unfold is_delim. cbn [existsb].
    rewrite (byte_eqb_val b tab), (byte_eqb_val b space)
      by (change (byte_val tab) with 9; change (byte_val space) with 32; lia).
    reflexivity.
  - intros ->. change (byte_val x00) with 0 in H. lia.
Qed.

Lemma Forall_no_nul (P : byte -> Prop) (l : list byte) :
  Forall (fun b => P b /\ b <> x00) l -> ~ In x00 l.
Proof.
  intros H Hin. apply (proj1 (Forall_forall _ _) H) in Hin. now destruct Hin.
Qed.

Lemma parse_kallsyms_line_well_formed (e : kallsyms_entry) (name : list byte) :
  well_formed_kallsyms_entry e ->
  parse_kallsyms_line (kallsyms_entry_line e) name
  = if bytes_eqb (ke_symbol e) (cstr name)
    then kallsyms_found (hex_number (ke_digits e))
    else kallsyms_other.
Proof.
  intros ((Hdne & Hd & Hmax) & (Htne & Ht) & (Hsne & Hs) & (Hr0 & Hr)).
  assert (Hd' : Forall (fun b => is_delim [tab; space] b = false /\ b <> x00)
                  (ke_digits e)).
  { eapply Forall_impl; [|exact Hd]. apply hex_digit_not_delim. }
  unfold parse_kallsyms_line, kallsyms_entry_line.
  set (line := ke_digits e ++ space :: ke_type e ++ space :: ke_symbol e
               ++ ke_rest e).
  assert (Hline : cstr line = line).
  { apply cstr_no_nul. subst line. intros Hin.
    apply in_app_or in Hin as [Hin | [Hin | Hin]];
      [now apply (Forall_no_nul _ _ Hd') in Hin | discriminate Hin |].
    apply in_app_or in Hin as [Hin | [Hin | Hin]];
      [now apply (Forall_no_nul _ _ Ht) in Hin | discriminate Hin |].
    apply in_app_or in Hin as [Hin | Hin];
      [now apply (Forall_no_nul _ _ Hs) in Hin | now apply Hr0]. }
  rewrite Hline. subst line.
  destruct (strtok_r_token [tab; space] (ke_digits e)
              (space :: ke_type e ++ space :: ke_symbol e ++ ke_rest e) Hdne)
    as [H1 H1'];
    [eapply Forall_impl; [|exact Hd']; now intros b [Hb _] | reflexivity |].
  rewrite H1, H1'. cbn [List.tl].
  destruct (strtok_r_token [tab; space] (ke_type e)
              (space :: ke_symbol e ++ ke_rest e) Htne) as [H2 _];
    [eapply Forall_impl; [|exact Ht]; now intros b [Hb _] | reflexivity |].
  rewrite H2. cbn [List.tl].
  destruct (strtok_r_token [tab; newline; space] (ke_symbol e) (ke_rest e)
              Hsne) as [H3 _];
    [eapply Forall_impl; [|exact Hs]; now intros b [Hb _] | exact Hr |].
  rewrite H3.
  destruct (bytes_eqb (ke_symbol e) (cstr name)); cbn [negb]; [|reflexivity].
  rewrite Nat.sub_diag. cbn [firstn app Nat.add].
  assert (Hull : strtoull16 (ke_digits e)
                 = mk_strtoull (hex_number (ke_digits e))
                     (List.length (ke_digits e)) false).
  { rewrite <- (app_nil_r (ke_digits e)) at 1.
    apply strtoull16_hex_tail; (assumption || exact I). }
  rewrite Hull. cbn [ull_erange ull_consumed ull_value orb].
  now rewrite Nat.eqb_refl.
Qed.

Lemma find_kallsyms_line_well_formed (entries : list kallsyms_entry)
    (name : list byte) :
  Forall well_formed_kallsyms_entry entries ->
  find_kallsyms_line (map kallsyms_entry_line entries) name
  = match find (fun e => bytes_eqb (ke_symbol e) (cstr name)) entries with
    | Some e => kallsyms_found (hex_number (ke_digits e))
    | None => kallsyms_other
    end.
Proof.
  induction 1 as [|e entries He Hes IH]; [reflexivity|].
  cbn [map find_kallsyms_line find].
  rewrite parse_kallsyms_line_well_formed by exact He.
  destruct (bytes_eqb (ke_symbol e) (cstr name)); [reflexivity|exact IH].
Qed.

(** X27.  The address of a symbol in /proc/kallsyms.  On a file whose
    lines are well formed (an address in hexadecimal digits, a type and a
    symbol, separated by single spaces, then the newline or a tab and a
    module), [proc_kallsyms_symbol_addr] returns the address of the first
    line that names the symbol, whatever comes after that line.  When no
    line names it, the result is the error of [getline] if there is one,
    and else OTHER, could not find the symbol. *)
Theorem proc_kallsyms_symbol_addr_first_match (entries : list kallsyms_entry)
    (getline_errno : Z) (name : list byte) :
  Forall well_formed_kallsyms_entry entries ->
  proc_kallsyms_symbol_addr
    (inr (map kallsyms_entry_line entries, getline_errno)) name
  = match find (fun e => bytes_eqb (ke_symbol e) (cstr name)) entries with
    | Some e => inr (hex_number (ke_digits e))
    | None =>
        if getline_errno =? 0 then
          inl (mk_error DRGN_ERROR_OTHER 0
                 ("could not find " ++ text name
                  ++ " symbol in /proc/kallsyms")%string)
        else
          inl (drgn_error_create_os getline_errno "/proc/kallsyms" "getline")
    end.
Proof.
  intros H. unfold proc_kallsyms_symbol_addr.
  rewrite find_kallsyms_line_well_formed by exact H.
  destruct (find _ entries); [reflexivity|].
  now destruct (getline_errno =? 0).
Qed.

Lemma proc_kallsyms_symbol_addr_first_match_witness :
  proc_kallsyms_symbol_addr
    (inr ([bytes "ffffffff81000000 T startup_64" ++ [newline];
           bytes "ffffffff81000000 T _stext" ++ [newline];
           bytes "ffffffffc0001000 t _stext" ++ tab :: bytes "[dummy]"
           ++ [newline]], 0))
    (c_string "_stext")
  = inr 0xffffffff81000000.
Proof.
  apply (proc_kallsyms_symbol_addr_first_match
           [mk_kallsyms_entry (bytes "ffffffff81000000") (bytes "T")
              (bytes "startup_64") [newline];
            mk_kallsyms_entry (bytes "ffffffff81000000") (bytes "T")
              (bytes "_stext") [newline];
            mk_kallsyms_entry (bytes "ffffffffc0001000") (bytes "t")
              (bytes "_stext") (tab :: bytes "[dummy]" ++ [newline])]
           0 (c_string "_stext")).
  repeat constructor; vm_compute; try discriminate; try lia;
    intuition discriminate.
Defined.

(** ** The walk over the module trees *)

(** X28.  [fts_name_endswith] is the test of a suffix: it holds exactly
    when the name of the entry is some stem followed by the suffix, and
    in particular never for a name that is shorter than the suffix. *)
Theorem fts_name_endswith_iff (ent : FTSENT) (suffix : list byte) :
  fts_name_endswith ent suffix = true
  <-> exists stem, fts_name ent = stem ++ cstr suffix.
Proof.
  unfold fts_name_endswith.
  set (name := fts_name ent). set (len := List.length (cstr suffix)).
  assert (Hsuffix : firstn len suffix = cstr suffix).
  { subst len. clear. induction suffix as [|b suffix IH]; [reflexivity|].
    cbn [cstr]. destruct (Byte.eqb b x00); [reflexivity|].
    cbn [List.length firstn]. now rewrite IH. }
  rewrite Hsuffix. split.
  - intros H. apply andb_true_iff in H as [Hlen H].
    apply Nat.leb_le in Hlen. apply bytes_eqb_eq in H.
    exists (firstn (List.length name - len) name).
    rewrite <- H.
    rewrite (firstn_all2 (n:=len) (skipn (List.length name - len) name))
      by (rewrite length_skipn; lia).
    symmetry. apply firstn_skipn.
  - intros [stem H]. rewrite H.
    rewrite length_app. fold len.
    apply andb_true_iff. split; [apply Nat.leb_le; lia|].
    apply bytes_eqb_eq.
    replace (List.length stem + len - len)%nat with (List.length stem) by lia.
    rewrite skipn_app, skipn_all, Nat.sub_diag. cbn [skipn app].
    subst len. apply firstn_all.
Qed.

Lemma read_module_tree_opened (env : bootstrap_env) (extension : string)
    (entries : list FTSENT) :
  forall (found_modules : bool) (opened : list FTSENT),
    let r := read_module_tree env extension entries found_modules opened in
    (exists more,
        snd r = opened ++ more
        /\ Forall (fun ent => is_module_file ent extension = true) more
        /\ snd (fst r) = found_modules || negb (Nat.eqb (List.length more) 0))
    /\ (forall err, fst (fst r) = Some err -> is_missing_debug err = false).
Proof.
  induction entries as [|ent entries IH]; intros found_modules opened.
  - cbn. split; [|discriminate]. exists []. rewrite app_nil_r, orb_false_r.
    repeat split. constructor.
  - cbn [read_module_tree].
    destruct (is_module_file ent extension) eqn:Em; cbn [negb]; [|apply IH].
    assert (Hstep :
              let r := read_module_tree env extension entries true
                         (opened ++ [ent]) in
              (exists more,
                  snd r = opened ++ more
                  /\ Forall (fun ent => is_module_file ent extension = true)
                       more
                  /\ snd (fst r)
                     = found_modules || negb (Nat.eqb (List.length more) 0))
              /\ (forall err, fst (fst r) = Some err ->
                              is_missing_debug err = false)).
    { destruct (IH true (opened ++ [ent])) as [(more & Hs & Hf & Hb) He].
      split; [|exact He]. exists (ent :: more).
      split; [now rewrite Hs, <- app_assoc|].
      split; [now constructor|].
      rewrite Hb. cbn. now rewrite orb_true_r. }
    destruct (env_dindex_open env (fts_accpath ent)) as [err|e];
      [|exact Hstep].
    destruct (is_missing_debug err) eqn:Emd; [exact Hstep|].
    cbn. split.
    + exists [ent]. split; [reflexivity|]. split; [now repeat constructor|].
      now rewrite orb_true_r.
    + intros err' H. inversion H; subst. exact Emd.
Qed.

Lemma read_module_tree_found (env : bootstrap_env) (extension : string)
    (entries : list FTSENT) :
  forall (found_modules found' : bool) (opened opened' : list FTSENT),
    read_module_tree env extension entries found_modules opened
    = (None, found', opened') ->
    found' = found_modules
             || existsb (fun ent => is_module_file ent extension) entries.
Proof.
  induction entries as [|ent entries IH];
    intros found_modules found' opened opened' H.
  - cbn in H. inversion H. now rewrite orb_false_r.
  - cbn [read_module_tree existsb] in H |- *.
    destruct (is_module_file ent extension); cbn [negb orb] in H |- *;
      [|now apply IH in H].
    rewrite orb_true_r.
    destruct (env_dindex_open env (fts_accpath ent)) as [err|e].
    + destruct (is_missing_debug err); [|discriminate].
      apply IH in H. exact H.
    + apply IH in H. exact H.
Qed.

Lemma walk_module_trees_opened (env : bootstrap_env)
    (fts_open : list byte -> fts_tree) (release : list byte)
    (trees : list (string * string * string)) :
  incl trees module_paths ->
  forall (found_modules : bool) (opened : list FTSENT),
    Forall (fun ent => exists tree, In tree module_paths
                          /\ is_module_file ent (snd tree) = true) opened ->
    let r := walk_module_trees env fts_open release trees found_modules
               opened in
    (forall err, fst r = Some err -> is_missing_debug err = false)
    /\ Forall (fun ent => exists tree, In tree module_paths
                            /\ is_module_file ent (snd tree) = true) (snd r).
Proof.
  induction trees as [|[[before after] extension] trees IH];
    intros Hincl found_modules opened Ho.
  - cbn. split; [discriminate|exact Ho].
  - assert (Hin : In (before, after, extension) module_paths)
      by (apply Hincl; now left).
    assert (Hincl' : incl trees module_paths)
      by (intros t Ht; apply Hincl; now right).
    cbn [walk_module_trees].
    destruct found_modules; [cbn; split; [discriminate|exact Ho]|].
    destruct (fts_open (bytes before ++ cstr release ++ bytes after))
      as [errno|[entries fts_read_errno]].
    + destruct (errno =? ENOENT); [now apply IH|].
      cbn. split; [|exact Ho]. intros err H. inversion H. reflexivity.
    + destruct (read_module_tree_opened env extension entries false opened)
        as [(more & Hs & Hf & _) He].
      destruct (read_module_tree env extension entries false opened)
        as [[[err|] found'] opened']; cbn [fst snd] in Hs, He.
      * cbn [fst snd]. split.
        -- intros err' H. inversion H; subst. now apply He.
        -- rewrite Hs. apply Forall_app. split; [exact Ho|].
           eapply Forall_impl; [|exact Hf]. intros ent Hm.
           exists (before, after, extension). split; [exact Hin|exact Hm].
      * assert (Ho' : Forall (fun ent => exists tree, In tree module_paths
                                /\ is_module_file ent (snd tree) = true)
                        opened').
        { rewrite Hs. apply Forall_app. split; [exact Ho|].
          eapply Forall_impl; [|exact Hf]. intros ent Hm.
          exists (before, after, extension). split; [exact Hin|exact Hm]. }
        destruct (negb (fts_read_errno =? 0)); [|now apply IH].
        cbn. split; [|exact Ho']. intros err H. inversion H. reflexivity.
Qed.

(** X29.  Modules without debugging information do not stop the walk
    over the module trees: no error that the walk returns is
    MISSING_DEBUG.  And every entry that the walk gives to
    [drgn_dwarf_index_open] is a regular file whose name ends in .ko.debug
    or in .ko. *)
Theorem open_kernel_modules_tolerates_missing_debug (env : bootstrap_env)
    (fts_open : list byte -> fts_tree) (release : list byte) :
  let r := open_kernel_modules env fts_open release in
  (forall err, fst r = Some err -> is_missing_debug err = false)
  /\ Forall (fun ent => is_module_file ent ".ko.debug" = true
                        \/ is_module_file ent ".ko" = true) (snd r).
Proof.
  destruct (walk_module_trees_opened env fts_open release module_paths
              (incl_refl _) false [] (Forall_nil _)) as [He Ho].
  split; [exact He|].
  eapply Forall_impl; [|exact Ho].
  intros ent (tree & [<- | [<- | []]] & Hm); auto.
Qed.

(** X30.  The tree of /usr/lib/debug comes first and alone: when it
    holds a module file, the walk is the walk over that tree, and the
    tree of /lib/modules is not opened, whatever it holds and whether or
    not the modules of the first tree have debugging information. *)
Theorem open_kernel_modules_prefers_debug_tree (env : bootstrap_env)
    (fts_open : list byte -> fts_tree) (release : list byte)
    (entries : list FTSENT) (fts_read_errno : Z) :
  fts_open (bytes "/usr/lib/debug/lib/modules/" ++ cstr release
            ++ bytes "/kernel")
  = inr (entries, fts_read_errno) ->
  existsb (fun ent => is_module_file ent ".ko.debug") entries = true ->
  open_kernel_modules env fts_open release
  = match read_module_tree env ".ko.debug" entries false [] with
    | (Some err, _, opened) => (Some err, opened)
    | (None, _, opened) =>
        if fts_read_errno =? 0 then (None, opened)
        else
          (Some (drgn_error_create_os fts_read_errno
                   (text (bytes "/usr/lib/debug/lib/modules/" ++ cstr release
                          ++ bytes "/kernel")) "fts_read"), opened)
    end.
Proof.
  intros Hf Hex. unfold open_kernel_modules, module_paths.
  cbn [walk_module_trees]. rewrite Hf.
  destruct (read_module_tree env ".ko.debug" entries false [])
    as [[[err|] found'] opened'] eqn:Er; [reflexivity|].
  apply read_module_tree_found in Er. rewrite Hex in Er. cbn [orb] in Er.
  subst found'.
  destruct (fts_read_errno =? 0); reflexivity.
Qed.

Lemma open_kernel_modules_prefers_debug_tree_witness :
  let dummy := mk_ftsent FTS_NSOK (bytes "dummy.ko.debug")
                 (bytes "/usr/lib/debug/lib/modules/5.4.0-test/kernel/dummy.ko.debug")
                 (Some S_IFREG) in
  let readme := mk_ftsent FTS_F (bytes "README") (bytes "README") None in
  let fts_open : list byte -> fts_tree :=
    fun root =>
      if bytes_eqb root
           (bytes "/usr/lib/debug/lib/modules/5.4.0-test/kernel")
      then inr ([readme; dummy], 0)
      else inr ([mk_ftsent FTS_F (bytes "other.ko") (bytes "other.ko") None],
                0) in
  open_kernel_modules (example_env []) fts_open (bytes "5.4.0-test")
  = (None, [dummy]).
Proof.
  cbv zeta.
  rewrite (open_kernel_modules_prefers_debug_tree (example_env [])
             (fun root =>
                if bytes_eqb root
                     (bytes "/usr/lib/debug/lib/modules/5.4.0-test/kernel")
                then
                  inr ([mk_ftsent FTS_F (bytes "README") (bytes "README") None;
                        mk_ftsent FTS_NSOK (bytes "dummy.ko.debug")
                          (bytes "/usr/lib/debug/lib/modules/5.4.0-test/kernel/dummy.ko.debug")
                          (Some S_IFREG)], 0)
                else
                  inr ([mk_ftsent FTS_F (bytes "other.ko") (bytes "other.ko")
                          None], 0))
             (bytes "5.4.0-test")
             [mk_ftsent FTS_F (bytes "README") (bytes "README") None;
              mk_ftsent FTS_NSOK (bytes "dummy.ko.debug")
                (bytes "/usr/lib/debug/lib/modules/5.4.0-test/kernel/dummy.ko.debug")
                (Some S_IFREG)]
             0).
  - reflexivity.
  - reflexivity.
  - reflexivity.
Defined.
